(** * bptree-kvstore: disk manager, buffer pool manager and B+ tree

    A shallow embedding of the storage stack of the repository
    (config.h, disk_manager.{h,cpp}, buffer_pool_manager.{h,cpp},
    btree.{h,cpp}) and the proofs of its specification.

    Modelling conventions.
    - C++ [int] page ids, keys and counters are [Z]; [size_t] frame
      indices are [nat]; a [Page*] returned by the buffer pool is the index
      of its frame ([option nat], [None] is the null pointer).
    - A page image is a record with one field per header word and one
      list per array of the page layouts of btree.h.  The first header
      word is both [BPlusTreePageHeader::page_type] and
      [MetaPage::root_page_id] (both live at offset 0), which is the only
      reinterpretation of page bytes the program performs.  Arrays read
      past what has been written return zero, as the page bytes do after
      [NewPage] zeroed them.
    - The program runs in a state and error monad: [IOError] is the
      [std::runtime_error] of the disk manager, [NullDeref] a dereference
      of a null [Page*], and [OutOfFuel] bounds the loops whose
      termination depends on the page graph (tree descent, parent chain,
      sibling chain). *)

From Stdlib Require Import ZArith List Bool Ascii String Lia.
From stdpp Require Import base gmap list.

Open Scope Z_scope.

(* ================================================================== *)
(** ** config.h and btree.h constants *)

Definition PAGE_SIZE : Z := 4096.
Definition MAX_PAGES_IN_RAM : nat := 64.
Definition VALUE_SIZE : Z := 128.
Definition INVALID_PAGE_ID : Z := -1.
Definition META_PAGE_ID : Z := 0.

(** [sizeof(int)] and [sizeof(PageType)] ([enum class PageType : int]). *)
Definition sizeof_int : Z := 4.
(** [sizeof(LeafPageHeader)]: three header words and [next_page_id]. *)
Definition LEAF_HEADER_SIZE : Z := 4 * sizeof_int.
(** [sizeof(LeafEntry)]: an [int] key and [char value[VALUE_SIZE]]. *)
Definition LEAF_ENTRY_SIZE : Z := sizeof_int + VALUE_SIZE.
Definition LEAF_MAX_ENTRIES : Z := (PAGE_SIZE - LEAF_HEADER_SIZE) / LEAF_ENTRY_SIZE.
Definition INTERNAL_HEADER_SIZE : Z := 3 * sizeof_int.
Definition INTERNAL_MAX_KEYS : Z :=
  (PAGE_SIZE - INTERNAL_HEADER_SIZE - sizeof_int) / (2 * sizeof_int).

(** [enum class PageType]. *)
Definition PT_INVALID : Z := 0.
Definition PT_LEAF : Z := 1.
Definition PT_INTERNAL : Z := 2.

(* ================================================================== *)
(** ** Page images *)

Record LeafEntry := mkLeafEntry { key : Z; value : list ascii }.

(** A value array after [std::memset(value, 0, VALUE_SIZE)]. *)
Definition zero_value : list ascii := repeat zero (Z.to_nat VALUE_SIZE).
Definition zero_entry : LeafEntry := mkLeafEntry 0 zero_value.

Record PageData := mkPageData {
  page_type : Z;        (** offset 0; [MetaPage::root_page_id] on page 0 *)
  num_keys : Z;
  parent_page_id : Z;
  next_page_id : Z;     (** [LeafPageHeader::next_page_id] *)
  entries : list LeafEntry;   (** leaf entry array *)
  children : list Z;          (** internal children array *)
  keys : list Z               (** internal keys array *)
}.

(** A page whose bytes are all zero. *)
Definition zero_page : PageData := mkPageData 0 0 0 0 [] [] [].

Definition set_page_type (v : Z) (d : PageData) : PageData :=
  mkPageData v (num_keys d) (parent_page_id d) (next_page_id d) (entries d) (children d) (keys d).
Definition set_num_keys (v : Z) (d : PageData) : PageData :=
  mkPageData (page_type d) v (parent_page_id d) (next_page_id d) (entries d) (children d) (keys d).
Definition set_parent_page_id (v : Z) (d : PageData) : PageData :=
  mkPageData (page_type d) (num_keys d) v (next_page_id d) (entries d) (children d) (keys d).
Definition set_next_page_id (v : Z) (d : PageData) : PageData :=
  mkPageData (page_type d) (num_keys d) (parent_page_id d) v (entries d) (children d) (keys d).
Definition set_entries (v : list LeafEntry) (d : PageData) : PageData :=
  mkPageData (page_type d) (num_keys d) (parent_page_id d) (next_page_id d) v (children d) (keys d).
Definition set_children (v : list Z) (d : PageData) : PageData :=
  mkPageData (page_type d) (num_keys d) (parent_page_id d) (next_page_id d) (entries d) v (keys d).
Definition set_keys (v : list Z) (d : PageData) : PageData :=
  mkPageData (page_type d) (num_keys d) (parent_page_id d) (next_page_id d) (entries d) (children d) v.

(** Reading [a[i]] of an array of the page: slots never written are zero. *)
Definition arr_get {A} (d : A) (l : list A) (i : Z) : A := nth (Z.to_nat i) l d.

(** Writing [a[i] = x]. *)
Definition arr_set {A} (d : A) (l : list A) (i : Z) (x : A) : list A :=
  let n := Z.to_nat i in
  if decide (n < length l)%nat then <[n := x]> l
  else l ++ repeat d (n - length l) ++ [x].

Definition entry_at (d : PageData) (i : Z) : LeafEntry := arr_get zero_entry (entries d) i.
Definition child_at (d : PageData) (i : Z) : Z := arr_get 0 (children d) i.
Definition key_at (d : PageData) (i : Z) : Z := arr_get 0 (keys d) i.

(* ================================================================== *)
(** ** C strings *)

(** [std::string(char_array)]: the characters before the first NUL. *)
Fixpoint cstr (l : list ascii) : list ascii :=
  match l with
  | [] => []
  | c :: l' => if Ascii.eqb c zero then [] else c :: cstr l'
  end.

(** [value[0]]. *)
Definition first_byte (v : list ascii) : ascii := nth 0 v zero.

(** [std::memset(v, 0, VALUE_SIZE); std::strncpy(v, s.c_str(), VALUE_SIZE - 1)]:
    at most [VALUE_SIZE - 1] characters of [s] up to its first NUL, then
    zeros up to [VALUE_SIZE]. *)
Definition strncpy_value (s : string) : list ascii :=
  let src := firstn (Z.to_nat (VALUE_SIZE - 1)) (cstr (list_ascii_of_string s)) in
  src ++ repeat zero (Z.to_nat VALUE_SIZE - length src).

(** [std::string(entries[i].value)]. *)
Definition value_string (v : list ascii) : string := string_of_list_ascii (cstr v).

(* ================================================================== *)
(** ** A state and error monad *)

Inductive error := IOError | NullDeref | OutOfFuel.

Inductive outcome (S A : Type) : Type :=
| Ok (a : A) (s : S)
| Err (e : error).
Arguments Ok {S A} a s.
Arguments Err {S A} e.

Definition M (S A : Type) : Type := S -> outcome S A.

Definition ret {S A} (a : A) : M S A := fun s => Ok a s.
Definition bind {S A B} (m : M S A) (k : A -> M S B) : M S B :=
  fun s => match m s with Ok a s' => k a s' | Err e => Err e end.
Definition get {S} : M S S := fun s => Ok s s.
Definition put {S} (s : S) : M S unit := fun _ => Ok tt s.
Definition modify {S} (f : S -> S) : M S unit := fun s => Ok tt (f s).
Definition throw {S A} (e : error) : M S A := fun _ => Err e.

(** Run a computation on a component of the state. *)
Definition zoom {S T A} (prj : S -> T) (upd : T -> S -> S) (m : M T A) : M S A :=
  fun s => match m (prj s) with Ok a t => Ok a (upd t s) | Err e => Err e end.

Notation "'let*' x ':=' c1 'in' c2" := (bind c1 (fun x => c2))
  (at level 200, x pattern, c1 at level 100, c2 at level 200, right associativity).

(** A [for] loop [for (i = lo; i < lo + n; ++i) body(i)]. *)
Fixpoint for_loop {S} (n : nat) (lo : Z) (body : Z -> M S unit) : M S unit :=
  match n with
  | O => ret tt
  | S n' => let* _ := body lo in for_loop n' (lo + 1) body
  end.

(* ================================================================== *)
(** ** disk_manager.{h,cpp} *)

Module DiskManager.

(** The backing file, as the pages written to it ([WritePage]); a page
    inside the file that was never written reads as zeros. *)
Definition file := gmap Z PageData.

Record t := mk { file_ : file; num_pages_ : Z }.

(** [file_stat.st_size / PAGE_SIZE]: one past the highest written page. *)
Definition file_num_pages (f : file) : Z :=
  fold_right Z.max 0 (map (fun kv => kv.1 + 1) (map_to_list f)).

(** [DiskManager(db_file)]: open the file and count its pages. *)
Definition Open (f : file) : t := mk f (file_num_pages f).

(** Contents of page [p] of the file; short reads are zero padded. *)
Definition file_page (f : file) (p : Z) : PageData :=
  match f !! p with Some d => d | None => zero_page end.

(** [ReadPage]: [lseek] to a negative offset fails. *)
Definition ReadPage (page_id : Z) : M t PageData := fun dm =>
  if decide (page_id < 0) then Err IOError
  else Ok (file_page (file_ dm) page_id) dm.

Definition WritePage (page_id : Z) (d : PageData) : M t unit := fun dm =>
  if decide (page_id < 0) then Err IOError
  else Ok tt (mk (<[page_id := d]> (file_ dm)) (num_pages_ dm)).

(** [return num_pages_++;] *)
Definition AllocatePage : M t Z := fun dm =>
  Ok (num_pages_ dm) (mk (file_ dm) (num_pages_ dm + 1)).

Definition GetNumPages : M t Z := fun dm => Ok (num_pages_ dm) dm.

End DiskManager.

(* ================================================================== *)
(** ** buffer_pool_manager.{h,cpp} *)

Module BufferPoolManager.

(** [struct Page]. *)
Record Page := mkPage { page_id : Z; data : PageData; is_dirty : bool; pin_count : Z }.

(** A frame as allocated by [new Page[pool_size_]]. *)
Definition default_page : Page := mkPage (-1) zero_page false 0.
#[global] Instance Page_inhabited : Inhabited Page := populate default_page.

Definition set_data (d : PageData) (p : Page) : Page :=
  mkPage (page_id p) d (is_dirty p) (pin_count p).
Definition set_pin_count (n : Z) (p : Page) : Page :=
  mkPage (page_id p) (data p) (is_dirty p) n.
Definition set_is_dirty (b : bool) (p : Page) : Page :=
  mkPage (page_id p) (data p) b (pin_count p).

(** The members of [BufferPoolManager].  [lru_map_] indexes [lru_list_]
    by frame id; it is represented by membership in [lru_list_], in which
    each frame occurs at most once (see [bpm_wf]). *)
Record t := mk {
  pool_size_ : nat;
  disk_manager_ : DiskManager.t;
  pages_ : list Page;
  page_table_ : gmap Z nat;
  free_list_ : list nat;
  lru_list_ : list nat
}.

Definition set_disk_manager (v : DiskManager.t) (b : t) : t :=
  mk (pool_size_ b) v (pages_ b) (page_table_ b) (free_list_ b) (lru_list_ b).
Definition set_pages (v : list Page) (b : t) : t :=
  mk (pool_size_ b) (disk_manager_ b) v (page_table_ b) (free_list_ b) (lru_list_ b).
Definition set_page_table (v : gmap Z nat) (b : t) : t :=
  mk (pool_size_ b) (disk_manager_ b) (pages_ b) v (free_list_ b) (lru_list_ b).
Definition set_free_list (v : list nat) (b : t) : t :=
  mk (pool_size_ b) (disk_manager_ b) (pages_ b) (page_table_ b) v (lru_list_ b).
Definition set_lru_list (v : list nat) (b : t) : t :=
  mk (pool_size_ b) (disk_manager_ b) (pages_ b) (page_table_ b) (free_list_ b) v.

(** [pages_[f]]. *)
Definition frame (b : t) (f : nat) : Page := pages_ b !!! f.

(** Update frame [f] with [upd]. *)
Definition update_frame (f : nat) (upd : Page -> Page) (b : t) : t :=
  set_pages (<[f := upd (frame b f)]> (pages_ b)) b.

(** A call to the disk manager. *)
Definition disk {A} (m : M DiskManager.t A) : M t A :=
  zoom disk_manager_ set_disk_manager m.

(** [BufferPoolManager(pool_size, disk_manager)]. *)
Definition create (pool_size : nat) (dm : DiskManager.t) : t :=
  mk pool_size dm (repeat default_page pool_size) empty (seq 0 pool_size) [].

(** [lru_list_.erase(lru_map_[f])]. *)
Fixpoint lru_erase (f : nat) (l : list nat) : list nat :=
  match l with
  | [] => []
  | g :: l' => if decide (g = f) then l' else g :: lru_erase f l'
  end.

(** The [while (!lru_list_.empty())] loop of [FindVictimPage], on the LRU
    list read from its back: pop frames until one has [pin_count == 0].
    Returns the victim (if any) and the frames left, back first. *)
Fixpoint pop_back_victim (ps : list Page) (back_first : list nat) : option nat * list nat :=
  match back_first with
  | [] => (None, [])
  | f :: rest =>
      if decide (pin_count (ps !!! f) = 0) then (Some f, rest)
      else pop_back_victim ps rest
  end.

(** [FindVictimPage]: [pool_size_] when no victim exists. *)
Definition FindVictimPage : M t nat := fun b =>
  match free_list_ b with
  | f :: rest => Ok f (set_free_list rest b)
  | [] =>
      let '(r, rest) := pop_back_victim (pages_ b) (rev (lru_list_ b)) in
      let b' := set_lru_list (rev rest) b in
      match r with
      | Some f => Ok f b'
      | None => Ok (pool_size_ b) b'
      end
  end.

(** The block shared by [FetchPage] and [NewPage] that writes back a
    dirty victim and drops it from the page table. *)
Definition evict_victim (f : nat) : M t unit :=
  let* b := get in
  let pg := frame b f in
  if decide (page_id pg <> -1) then
    let* _ := (if is_dirty pg then disk (DiskManager.WritePage (page_id pg) (data pg))
               else ret tt) in
    modify (fun b => set_page_table (delete (page_id pg) (page_table_ b)) b)
  else ret tt.

Definition FetchPage (pid : Z) : M t (option nat) :=
  let* b := get in
  match page_table_ b !! pid with
  | Some f =>
      let* _ := modify (update_frame f (fun pg => set_pin_count (pin_count pg + 1) pg)) in
      let* _ := modify (fun b => if decide (f ∈ lru_list_ b)
                                 then set_lru_list (lru_erase f (lru_list_ b)) b else b) in
      ret (Some f)
  | None =>
      let* f := FindVictimPage in
      let* b := get in
      if decide (f = pool_size_ b) then ret None
      else
        let* _ := evict_victim f in
        let* _ := modify (update_frame f (fun pg => mkPage pid (data pg) false 1)) in
        let* d := disk (DiskManager.ReadPage pid) in
        let* _ := modify (update_frame f (set_data d)) in
        let* _ := modify (fun b => set_page_table (<[pid := f]> (page_table_ b)) b) in
        ret (Some f)
  end.

Definition UnpinPage (pid : Z) (dirty : bool) : M t bool :=
  let* b := get in
  match page_table_ b !! pid with
  | None => ret false
  | Some f =>
      let pg := frame b f in
      if decide (pin_count pg <= 0) then ret false
      else
        let n := pin_count pg - 1 in
        let* _ := modify (update_frame f (fun pg =>
                    mkPage (page_id pg) (data pg) (is_dirty pg || dirty) n)) in
        let* _ := (if decide (n = 0)
                   then modify (fun b => set_lru_list (f :: lru_list_ b) b)
                   else ret tt) in
        ret true
  end.

Definition FlushPage (pid : Z) : M t bool :=
  let* b := get in
  match page_table_ b !! pid with
  | None => ret false
  | Some f =>
      let pg := frame b f in
      let* _ := disk (DiskManager.WritePage (page_id pg) (data pg)) in
      let* _ := modify (update_frame f (set_is_dirty false)) in
      ret true
  end.

(** [NewPage(int *page_id)]: the frame and the value stored in
    [*page_id]; [None] is [nullptr] ([*page_id] untouched). *)
Definition NewPage : M t (option (nat * Z)) :=
  let* f := FindVictimPage in
  let* b := get in
  if decide (f = pool_size_ b) then ret None
  else
    let* _ := evict_victim f in
    let* pid := disk DiskManager.AllocatePage in
    let* _ := modify (update_frame f (fun _ => mkPage pid zero_page false 1)) in
    let* _ := modify (fun b => set_page_table (<[pid := f]> (page_table_ b)) b) in
    ret (Some (f, pid)).

Definition DeletePage (pid : Z) : M t bool :=
  let* b := get in
  match page_table_ b !! pid with
  | None => ret true
  | Some f =>
      let pg := frame b f in
      if decide (pin_count pg > 0) then ret false
      else
        let* _ := modify (fun b => if decide (f ∈ lru_list_ b)
                                   then set_lru_list (lru_erase f (lru_list_ b)) b else b) in
        let* _ := modify (fun b => set_page_table (delete pid (page_table_ b)) b) in
        let* _ := modify (update_frame f (fun pg => mkPage (-1) (data pg) false 0)) in
        let* _ := modify (fun b => set_free_list (free_list_ b ++ [f]) b) in
        ret true
  end.

(** [FlushAllPages]: the [for] over [page_table_] (in the map's order). *)
Fixpoint flush_entries (l : list (Z * nat)) : M t unit :=
  match l with
  | [] => ret tt
  | (_, f) :: l' =>
      let* b := get in
      let pg := frame b f in
      let* _ := (if is_dirty pg then
                   let* _ := disk (DiskManager.WritePage (page_id pg) (data pg)) in
                   modify (update_frame f (set_is_dirty false))
                 else ret tt) in
      flush_entries l'
  end.

Definition FlushAllPages : M t unit :=
  let* b := get in flush_entries (map_to_list (page_table_ b)).

Definition GetDiskManager : M t DiskManager.t := fun b => Ok (disk_manager_ b) b.

End BufferPoolManager.

(* ================================================================== *)
(** ** btree.{h,cpp} *)

Module BPlusTree.

Import BufferPoolManager.

(** The members of [BPlusTree]. *)
Record t := mk { bpm : BufferPoolManager.t; root_page_id_ : Z }.

Definition set_bpm (v : BufferPoolManager.t) (tr : t) : t := mk v (root_page_id_ tr).
Definition set_root (v : Z) (tr : t) : t := mk (bpm tr) v.

(** A call [buffer_pool_manager_->...]. *)
Definition pool {A} (m : M BufferPoolManager.t A) : M t A := zoom bpm set_bpm m.

(** Reading the bytes of the frame behind a [Page*]. *)
Definition page_of (f : nat) : M t PageData := fun tr => Ok (data (frame (bpm tr) f)) tr.

(** Writing the bytes of the frame behind a [Page*]. *)
Definition write_page (f : nat) (upd : PageData -> PageData) : M t unit :=
  modify (fun tr => set_bpm (update_frame f (fun pg => set_data (upd (data pg)) pg) (bpm tr)) tr).

(** [page->page_id]. *)
Definition pid_of (f : nat) : M t Z := fun tr => Ok (page_id (frame (bpm tr) f)) tr.

(** Dereferencing a [Page*]: a null pointer crashes. *)
Definition deref {A} (o : option A) : M t A :=
  match o with Some a => ret a | None => throw NullDeref end.

(** *** Node-level primitives *)

(** The binary search loop of [LeafFindKey]; each round shrinks
    [hi - lo], so [num_keys + 1] rounds always suffice. *)
Fixpoint leaf_bsearch (fuel : nat) (d : PageData) (k lo hi : Z) : Z :=
  match fuel with
  | O => lo
  | S n =>
      if decide (lo < hi) then
        let mid := (lo + hi) / 2 in
        if decide (key (entry_at d mid) < k) then leaf_bsearch n d k (mid + 1) hi
        else leaf_bsearch n d k lo mid
      else lo
  end.

Definition LeafFindKey (d : PageData) (k : Z) : Z :=
  leaf_bsearch (S (Z.to_nat (num_keys d))) d k 0 (num_keys d).

(** The binary search loop of [InternalFindChild]. *)
Fixpoint internal_bsearch (fuel : nat) (d : PageData) (k lo hi : Z) : Z :=
  match fuel with
  | O => lo
  | S n =>
      if decide (lo < hi) then
        let mid := (lo + hi) / 2 in
        if decide (key_at d mid <= k) then internal_bsearch n d k (mid + 1) hi
        else internal_bsearch n d k lo mid
      else lo
  end.

Definition InternalFindChild (d : PageData) (k : Z) : Z :=
  child_at d (internal_bsearch (S (Z.to_nat (num_keys d))) d k 0 (num_keys d)).

(** [for (int i = num_keys; i > idx; --i) entries[i] = entries[i - 1];]
    with [cnt = num_keys - idx] rounds starting at [i = num_keys]. *)
Fixpoint shift_entries (cnt : nat) (i : Z) (es : list LeafEntry) : list LeafEntry :=
  match cnt with
  | O => es
  | S c => shift_entries c (i - 1) (arr_set zero_entry es i (arr_get zero_entry es (i - 1)))
  end.

Definition LeafInsert (f : nat) (k : Z) (v : string) : M t bool :=
  let* d := page_of f in
  let idx := LeafFindKey d k in
  if decide (idx < num_keys d /\ key (entry_at d idx) = k) then
    let* _ := write_page f (fun d =>
                set_entries (arr_set zero_entry (entries d) idx
                               (mkLeafEntry (key (entry_at d idx)) (strncpy_value v))) d) in
    ret true
  else
    let* _ := write_page f (fun d =>
                set_entries (shift_entries (Z.to_nat (num_keys d - idx)) (num_keys d) (entries d)) d) in
    let* _ := write_page f (fun d =>
                set_entries (arr_set zero_entry (entries d) idx (mkLeafEntry k (strncpy_value v))) d) in
    let* _ := write_page f (fun d => set_num_keys (num_keys d + 1) d) in
    ret true.

(** [while (idx < n && keys[idx] < key) idx++;] *)
Fixpoint first_not_less (fuel : nat) (d : PageData) (n k idx : Z) : Z :=
  match fuel with
  | O => idx
  | S m => if decide (idx < n /\ key_at d idx < k) then first_not_less m d n k (idx + 1) else idx
  end.

(** [for (int i = n; i > idx; --i) { keys[i] = keys[i - 1];
    children[i + 1] = children[i]; }] *)
Fixpoint shift_internal (cnt : nat) (i : Z) (d : PageData) : PageData :=
  match cnt with
  | O => d
  | S c =>
      let d1 := set_keys (arr_set 0 (keys d) i (key_at d (i - 1))) d in
      let d2 := set_children (arr_set 0 (children d1) (i + 1) (child_at d1 i)) d1 in
      shift_internal c (i - 1) d2
  end.

Definition InternalInsert (f : nat) (k : Z) (right_child_id : Z) : M t unit :=
  let* d := page_of f in
  let n := num_keys d in
  let idx := first_not_less (S (Z.to_nat n)) d n k 0 in
  let* _ := write_page f (shift_internal (Z.to_nat (n - idx)) n) in
  let* _ := write_page f (fun d => set_keys (arr_set 0 (keys d) idx k) d) in
  let* _ := write_page f (fun d => set_children (arr_set 0 (children d) (idx + 1) right_child_id) d) in
  write_page f (fun d => set_num_keys (num_keys d + 1) d).

(** [UpdateMetaPage]. *)
Definition UpdateMetaPage : M t unit :=
  let* o := pool (FetchPage META_PAGE_ID) in
  match o with
  | None => ret tt
  | Some f =>
      let* tr := get in
      let* _ := write_page f (set_page_type (root_page_id_ tr)) in
      let* _ := pool (UnpinPage META_PAGE_ID true) in
      ret tt
  end.

(** [LoadMetaPage]. *)
Definition LoadMetaPage : M t unit :=
  let* dm := pool GetDiskManager in
  if decide (DiskManager.num_pages_ dm > 0) then
    let* o := pool (FetchPage META_PAGE_ID) in
    match o with
    | None => ret tt
    | Some f =>
        let* d := page_of f in
        let* _ := modify (set_root (page_type d)) in
        let* _ := pool (UnpinPage META_PAGE_ID false) in
        ret tt
    end
  else ret tt.

(** *** Search *)

(** The [while (header->page_type == PageType::INTERNAL)] loop of
    [FindLeafPage]. *)
Fixpoint descend (fuel : nat) (k : Z) (f : nat) : M t (option nat) :=
  match fuel with
  | O => throw OutOfFuel
  | S n =>
      let* d := page_of f in
      if decide (page_type d = PT_INTERNAL) then
        let child_page_id := InternalFindChild d k in
        let* pid := pid_of f in
        let* _ := pool (UnpinPage pid false) in
        let* o := pool (FetchPage child_page_id) in
        match o with
        | None => ret None
        | Some f' => descend n k f'
        end
      else ret (Some f)
  end.

Definition FindLeafPage (fuel : nat) (k : Z) : M t (option nat) :=
  let* tr := get in
  if decide (root_page_id_ tr = INVALID_PAGE_ID) then ret None
  else
    let* o := pool (FetchPage (root_page_id_ tr)) in
    match o with
    | None => ret None
    | Some f => descend fuel k f
    end.

(** The lookup at the leaf in [Search]. *)
Definition leaf_lookup (d : PageData) (k : Z) : option string :=
  let idx := LeafFindKey d k in
  let e := entry_at d idx in
  if decide (idx < num_keys d /\ key e = k) then
    if negb (Ascii.eqb (first_byte (value e)) zero) then Some (value_string (value e))
    else None
  else None.

Definition Search (fuel : nat) (k : Z) : M t (option string) :=
  let* o := FindLeafPage fuel k in
  match o with
  | None => ret None
  | Some f =>
      let* d := page_of f in
      let result := leaf_lookup d k in
      let* pid := pid_of f in
      let* _ := pool (UnpinPage pid false) in
      ret result
  end.

(** *** Insert *)

(** [for (i = 0; i < cnt; ++i) { if (i == idx) temp[j++] = x;
    temp[j++] = a[i]; }], the merge loop of both splits. *)
Fixpoint merge_temp {A} (cnt : nat) (i : Z) (at_ : Z -> A) (idx : Z) (x : A) : list A :=
  match cnt with
  | O => []
  | S c => (if decide (i = idx) then [x] else []) ++ at_ i :: merge_temp c (i + 1) at_ idx x
  end.

(** [for (i = lo; i < lo + cnt; ++i) dst[i - off] = src[i];] *)
Fixpoint copy_loop {A} (dflt : A) (cnt : nat) (i off : Z) (src : list A) (dst : list A) : list A :=
  match cnt with
  | O => dst
  | S c => copy_loop dflt c (i + 1) off src (arr_set dflt dst (i - off) (arr_get dflt src i))
  end.

Definition CreateNewRoot (f_left : nat) (k : Z) (f_right : nat) : M t unit :=
  let* o := pool NewPage in
  let* r := deref o in
  let '(f_root, new_root_id) := r in
  let* _ := write_page f_root (set_page_type PT_INTERNAL) in
  let* _ := write_page f_root (set_num_keys 1) in
  let* _ := write_page f_root (set_parent_page_id INVALID_PAGE_ID) in
  let* left_id := pid_of f_left in
  let* _ := write_page f_root (fun d => set_children (arr_set 0 (children d) 0 left_id) d) in
  let* right_id := pid_of f_right in
  let* _ := write_page f_root (fun d => set_children (arr_set 0 (children d) 1 right_id) d) in
  let* _ := write_page f_root (fun d => set_keys (arr_set 0 (keys d) 0 k) d) in
  let* _ := write_page f_left (set_parent_page_id new_root_id) in
  let* _ := write_page f_right (set_parent_page_id new_root_id) in
  let* _ := modify (set_root new_root_id) in
  let* _ := UpdateMetaPage in
  let* _ := pool (UnpinPage new_root_id true) in
  ret tt.

(** [SplitLeaf]; [iip] is [InsertIntoParent]. *)
Definition SplitLeaf (iip : nat -> Z -> nat -> M t unit)
    (f_leaf : nat) (k : Z) (v : string) : M t unit :=
  let* old := page_of f_leaf in
  let idx := LeafFindKey old k in
  let nk := num_keys old in
  let new_entry := mkLeafEntry k (strncpy_value v) in
  let temp := merge_temp (Z.to_nat nk) 0 (entry_at old) idx new_entry
              ++ (if decide (idx = nk) then [new_entry] else []) in
  let total := Z.of_nat (length temp) in
  let* o := pool NewPage in
  let* r := deref o in
  let '(f_new, new_leaf_id) := r in
  let split := total / 2 in
  let* _ := write_page f_leaf (set_num_keys split) in
  let* _ := write_page f_leaf (fun d =>
              set_entries (copy_loop zero_entry (Z.to_nat split) 0 0 temp (entries d)) d) in
  let* _ := write_page f_new (set_page_type PT_LEAF) in
  let* _ := write_page f_new (set_num_keys (total - split)) in
  let* od := page_of f_leaf in
  let* _ := write_page f_new (set_parent_page_id (parent_page_id od)) in
  let* _ := write_page f_new (set_next_page_id (next_page_id od)) in
  let* _ := write_page f_leaf (set_next_page_id new_leaf_id) in
  let* _ := write_page f_new (fun d =>
              set_entries (copy_loop zero_entry (Z.to_nat (total - split)) split split temp
                             (entries d)) d) in
  let* nd := page_of f_new in
  let middle_key := key (entry_at nd 0) in
  let* _ := iip f_leaf middle_key f_new in
  let* _ := pool (UnpinPage new_leaf_id true) in
  ret tt.

(** [SplitInternal]; [iip] is [InsertIntoParent]. *)
Definition SplitInternal (iip : nat -> Z -> nat -> M t unit)
    (f_int : nat) (k : Z) (right_child_id : Z) : M t unit :=
  let* old := page_of f_int in
  let n := num_keys old in
  let idx := first_not_less (S (Z.to_nat n)) old n k 0 in
  let temp_keys := merge_temp (Z.to_nat n) 0 (key_at old) idx k
                   ++ (if decide (idx = n) then [k] else []) in
  let total_keys := Z.of_nat (length temp_keys) in
  let temp_children := merge_temp (Z.to_nat (n + 1)) 0 (child_at old) (idx + 1) right_child_id
                       ++ (if decide (idx + 1 = n + 1) then [right_child_id] else []) in
  let split := total_keys / 2 in
  let middle_key := arr_get 0 temp_keys split in
  let* o := pool NewPage in
  let* r := deref o in
  let '(f_new, new_internal_id) := r in
  let* _ := write_page f_int (set_num_keys split) in
  let* _ := write_page f_int (fun d =>
              set_children (copy_loop 0 (Z.to_nat split) 0 0 temp_children (children d))
                (set_keys (copy_loop 0 (Z.to_nat split) 0 0 temp_keys (keys d)) d)) in
  let* _ := write_page f_int (fun d =>
              set_children (arr_set 0 (children d) split (arr_get 0 temp_children split)) d) in
  let new_num_keys := total_keys - split - 1 in
  let* _ := write_page f_new (set_page_type PT_INTERNAL) in
  let* _ := write_page f_new (set_num_keys new_num_keys) in
  let* od := page_of f_int in
  let* _ := write_page f_new (set_parent_page_id (parent_page_id od)) in
  let* _ := write_page f_new (fun d =>
              set_children (copy_loop 0 (Z.to_nat (total_keys - split - 1)) (split + 1) (split + 1)
                              temp_children (children d))
                (set_keys (copy_loop 0 (Z.to_nat (total_keys - split - 1)) (split + 1) (split + 1)
                             temp_keys (keys d)) d)) in
  let* _ := write_page f_new (fun d =>
              set_children (arr_set 0 (children d) new_num_keys
                              (arr_get 0 temp_children total_keys)) d) in
  let* _ := for_loop (Z.to_nat (new_num_keys + 1)) 0 (fun i =>
              let* nd := page_of f_new in
              let child_id := child_at nd i in
              let* oc := pool (FetchPage child_id) in
              let* c := deref oc in
              let* _ := write_page c (set_parent_page_id new_internal_id) in
              let* _ := pool (UnpinPage child_id true) in
              ret tt) in
  let* _ := iip f_int middle_key f_new in
  let* _ := pool (UnpinPage new_internal_id true) in
  ret tt.

(** [InsertIntoParent], together with the [SplitInternal] it calls;
    [fuel] bounds the walk up the parent chain. *)
Fixpoint InsertIntoParent (fuel : nat) (f_left : nat) (k : Z) (f_right : nat) : M t unit :=
  match fuel with
  | O => throw OutOfFuel
  | S n =>
      let* ld := page_of f_left in
      if decide (parent_page_id ld = INVALID_PAGE_ID) then CreateNewRoot f_left k f_right
      else
        let* o := pool (FetchPage (parent_page_id ld)) in
        let* f_par := deref o in
        let* par_id := pid_of f_par in
        let* _ := write_page f_right (set_parent_page_id par_id) in
        let* pd := page_of f_par in
        let* right_id := pid_of f_right in
        if decide (num_keys pd < INTERNAL_MAX_KEYS) then
          let* _ := InternalInsert f_par k right_id in
          let* _ := pool (UnpinPage par_id true) in
          ret tt
        else
          let* _ := SplitInternal (InsertIntoParent n) f_par k right_id in
          let* _ := pool (UnpinPage par_id true) in
          ret tt
  end.

Definition Insert (fuel : nat) (k : Z) (v : string) : M t bool :=
  let* tr := get in
  if decide (root_page_id_ tr = INVALID_PAGE_ID) then
    let* om := pool NewPage in
    let* _ := match om with
              | Some (f, meta_id) =>
                  let* _ := write_page f (fun _ => zero_page) in
                  let* _ := pool (UnpinPage meta_id true) in
                  ret tt
              | None => ret tt
              end in
    let* o := pool NewPage in
    let* r := deref o in
    let '(f_root, root_id) := r in
    let* _ := modify (set_root root_id) in
    let* _ := write_page f_root (set_page_type PT_LEAF) in
    let* _ := write_page f_root (set_num_keys 0) in
    let* _ := write_page f_root (set_parent_page_id INVALID_PAGE_ID) in
    let* _ := write_page f_root (set_next_page_id INVALID_PAGE_ID) in
    let* _ := LeafInsert f_root k v in
    let* _ := UpdateMetaPage in
    let* tr := get in
    let* _ := pool (UnpinPage (root_page_id_ tr) true) in
    ret true
  else
    let* o := FindLeafPage fuel k in
    match o with
    | None => ret false
    | Some f =>
        let* d := page_of f in
        let* _ := (if decide (num_keys d < LEAF_MAX_ENTRIES) then
                     let* _ := LeafInsert f k v in
                     let* pid := pid_of f in
                     pool (UnpinPage pid true)
                   else
                     let* _ := SplitLeaf (InsertIntoParent fuel) f k v in
                     let* pid := pid_of f in
                     pool (UnpinPage pid true)) in
        ret true
    end.

(** *** Remove (lazy) *)

Definition Remove (fuel : nat) (k : Z) : M t bool :=
  let* tr := get in
  if decide (root_page_id_ tr = INVALID_PAGE_ID) then ret false
  else
    let* o := FindLeafPage fuel k in
    match o with
    | None => ret false
    | Some f =>
        let* d := page_of f in
        let idx := LeafFindKey d k in
        let* pid := pid_of f in
        if decide (idx >= num_keys d \/ key (entry_at d idx) <> k) then
          let* _ := pool (UnpinPage pid false) in
          ret false
        else
          let* _ := write_page f (fun d =>
                      set_entries (arr_set zero_entry (entries d) idx
                                     (mkLeafEntry (key (entry_at d idx)) zero_value)) d) in
          let* _ := pool (UnpinPage pid true) in
          ret true
    end.

(** *** Range scan *)

(** How the inner [for] loop of [Scan] ends: [return results] from
    inside the loop, or falling through to the next leaf. *)
Inductive scan_exit := ScanReturn (r : list (Z * string)) | ScanNext (r : list (Z * string)).

(** [for (int i = start_idx; i < num_keys; ++i) { ... }] *)
Fixpoint scan_leaf (cnt : nat) (d : PageData) (i a b : Z) (results : list (Z * string))
    : scan_exit :=
  match cnt with
  | O => ScanNext results
  | S c =>
      let e := entry_at d i in
      if decide (key e > b) then ScanReturn results
      else
        let results' :=
          if bool_decide (key e >= a) && negb (Ascii.eqb (first_byte (value e)) zero)
          then results ++ [(key e, value_string (value e))] else results in
        scan_leaf c d (i + 1) a b results'
  end.

(** The [while (leaf)] loop of [Scan]. *)
Fixpoint scan_loop (fuel : nat) (a b : Z) (f : nat) (results : list (Z * string))
    : M t (list (Z * string)) :=
  match fuel with
  | O => throw OutOfFuel
  | S n =>
      let* d := page_of f in
      let start_idx := match results with [] => LeafFindKey d a | _ => 0 end in
      match scan_leaf (Z.to_nat (num_keys d - start_idx)) d start_idx a b results with
      | ScanReturn r =>
          let* pid := pid_of f in
          let* _ := pool (UnpinPage pid false) in
          ret r
      | ScanNext r =>
          let next := next_page_id d in
          let* pid := pid_of f in
          let* _ := pool (UnpinPage pid false) in
          if decide (next = INVALID_PAGE_ID) then ret r
          else
            let* o := pool (FetchPage next) in
            match o with
            | None => ret r
            | Some f' => scan_loop n a b f' r
            end
      end
  end.

Definition Scan (fuel : nat) (a b : Z) : M t (list (Z * string)) :=
  let* tr := get in
  if decide (root_page_id_ tr = INVALID_PAGE_ID) then ret []
  else
    let* o := FindLeafPage fuel a in
    match o with
    | None => ret []
    | Some f => scan_loop fuel a b f []
    end.

Definition IsEmpty (tr : t) : bool := bool_decide (root_page_id_ tr = INVALID_PAGE_ID).

(** *** Construction, destruction and sessions *)

(** [BPlusTree(buffer_pool_manager)]. *)
Definition create (b : BufferPoolManager.t) : outcome t unit :=
  LoadMetaPage (mk b INVALID_PAGE_ID).

(** [~BPlusTree()] followed by [~BufferPoolManager()]. *)
Definition Destroy : M t unit :=
  let* _ := pool (FlushPage META_PAGE_ID) in
  pool FlushAllPages.

(** Open a store on a file: disk manager, buffer pool of [pool_size]
    frames, tree. *)
Definition open_store (pool_size : nat) (f : DiskManager.file) : outcome t unit :=
  create (BufferPoolManager.create pool_size (DiskManager.Open f)).

(** The file left behind by a store. *)
Definition file_of (tr : t) : DiskManager.file := DiskManager.file_ (disk_manager_ (bpm tr)).


Inductive op := OpInsert (k : Z) (v : string) | OpRemove (k : Z) | OpSearch (k : Z) | OpScan (a b : Z).
Inductive result := RBool (b : bool) | RValue (v : option string) | RPairs (l : list (Z * string)).

Definition run_op (fuel : nat) (o : op) : M t result :=
  match o with
  | OpInsert k v => let* r := Insert fuel k v in ret (RBool r)
  | OpRemove k => let* r := Remove fuel k in ret (RBool r)
  | OpSearch k => let* r := Search fuel k in ret (RValue r)
  | OpScan a b => let* r := Scan fuel a b in ret (RPairs r)
  end.

Fixpoint run_ops (fuel : nat) (l : list op) : M t (list result) :=
  match l with
  | [] => ret []
  | o :: l' => let* r := run_op fuel o in let* rs := run_ops fuel l' in ret (r :: rs)
  end.

(** Run [ops] on a store freshly opened on [f]. *)
Definition session (pool_size : nat) (fuel : nat) (f : DiskManager.file) (ops : list op)
    : outcome t (list result) :=
  match open_store pool_size f with
  | Ok _ tr => run_ops fuel ops tr
  | Err e => Err e
  end.

End BPlusTree.

(* ================================================================== *)
(** ** Observations on stores *)

Module Observe.

Import BufferPoolManager BPlusTree.

(** The logical contents of page [p]: the frame holding it if it is
    resident, the file otherwise. *)
Definition view_page (b : BufferPoolManager.t) (p : Z) : PageData :=
  match page_table_ b !! p with
  | Some f => data (frame b f)
  | None => DiskManager.file_page (DiskManager.file_ (disk_manager_ b)) p
  end.

(** The live keys of a leaf page ([entries[0 .. num_keys)]). *)
Definition leaf_keys (d : PageData) : list Z :=
  map key (firstn (Z.to_nat (num_keys d)) (entries d)).

Fixpoint strictly_increasing (l : list Z) : bool :=
  match l with
  | x :: ((y :: _) as l') => bool_decide (x < y) && strictly_increasing l'
  | _ => true
  end.

(** Results of a session, forgetting the final state. *)
Definition results_of {A} (o : outcome BPlusTree.t A) : option A :=
  match o with Ok r _ => Some r | Err _ => None end.


(** [Insert(i, v)] for [i = 0 .. n-1]. *)
Definition inserts_upto (n : nat) (v : string) : list op :=
  map (fun i => OpInsert (Z.of_nat i) v) (seq 0 n).


End Observe.

(* ================================================================== *)
(** ** Buffer pool invariants *)

Module PoolInv.

Import BufferPoolManager.

Definition np (b : BufferPoolManager.t) : Z := DiskManager.num_pages_ (disk_manager_ b).
Definition dfile (b : BufferPoolManager.t) : DiskManager.file := DiskManager.file_ (disk_manager_ b).

(** Frame [f] holds a page: it is in the image of the page table. *)
Definition resident (b : BufferPoolManager.t) (f : nat) : Prop :=
  f ∈ (map_img (page_table_ b) : gset nat).

#[global] Instance resident_dec b f : Decision (resident b f).
Proof. unfold resident. apply _. Defined.

(** The well-formedness of a buffer pool.  Frames [0 .. pool_size_)
    exist; the page table maps allocated pages to distinct frames that
    record the page id; the free list holds exactly the frames that hold
    no page (each marked with page id -1); the LRU list holds exactly
    the resident frames with pin count 0, each once. *)
Record bpm_wf (b : BufferPoolManager.t) : Prop := {
  wf_length : length (pages_ b) = pool_size_ b;
  wf_table : map_Forall (fun p f => (f < pool_size_ b)%nat /\ page_id (frame b f) = p /\
               0 <= p < np b /\ 0 <= pin_count (frame b f) /\
               (pin_count (frame b f) = 0 -> f ∈ lru_list_ b)) (page_table_ b);
  wf_free_nodup : NoDup (free_list_ b);
  wf_free : Forall (fun f => (f < pool_size_ b)%nat /\ ~ resident b f /\
                             page_id (frame b f) = -1) (free_list_ b);
  wf_cover : Forall (fun f => f ∈ free_list_ b \/ resident b f) (seq 0 (pool_size_ b));
  wf_lru_nodup : NoDup (lru_list_ b);
  wf_lru : Forall (fun f => resident b f /\ pin_count (frame b f) = 0) (lru_list_ b);
  wf_np : 0 <= np b;
  wf_file : map_Forall (fun p _ => 0 <= p < np b) (dfile b)
}.

(** [bpm_wf] with frame [g] taken out of every list and of the page
    table: the state between the choice of a victim and its reuse. *)
Record detached (b : BufferPoolManager.t) (g : nat) : Prop := {
  dt_length : length (pages_ b) = pool_size_ b;
  dt_victim : (g < pool_size_ b)%nat;
  dt_table : map_Forall (fun p f => (f < pool_size_ b)%nat /\ f <> g /\
               page_id (frame b f) = p /\ 0 <= p < np b /\ 0 <= pin_count (frame b f) /\
               (pin_count (frame b f) = 0 -> f ∈ lru_list_ b)) (page_table_ b);
  dt_free_nodup : NoDup (free_list_ b);
  dt_free : Forall (fun f => (f < pool_size_ b)%nat /\ f <> g /\ ~ resident b f /\
                             page_id (frame b f) = -1) (free_list_ b);
  dt_cover : Forall (fun f => f = g \/ f ∈ free_list_ b \/ resident b f) (seq 0 (pool_size_ b));
  dt_lru_nodup : NoDup (lru_list_ b);
  dt_lru : Forall (fun f => f <> g /\ resident b f /\ pin_count (frame b f) = 0) (lru_list_ b);
  dt_np : 0 <= np b;
  dt_file : map_Forall (fun p _ => 0 <= p < np b) (dfile b)
}.

(** The disk after the victim [g] is written back (if dirty). *)
Definition evicted_disk (b : BufferPoolManager.t) (g : nat) : DiskManager.t :=
  let pg := frame b g in
  if is_dirty pg then DiskManager.mk (<[page_id pg := data pg]> (dfile b)) (np b)
  else disk_manager_ b.

(** [FindVictimPage] followed by the write-back block, on a well-formed
    pool: the front of the free list, or the back of the LRU list. *)
Inductive victim_step (b : BufferPoolManager.t) : nat -> BufferPoolManager.t -> Prop :=
| vs_free g rest :
    free_list_ b = g :: rest -> victim_step b g (set_free_list rest b)
| vs_lru l g :
    free_list_ b = [] -> lru_list_ b = l ++ [g] ->
    victim_step b g (set_page_table (delete (page_id (frame b g)) (page_table_ b))
                       (set_disk_manager (evicted_disk b g) (set_lru_list l b))).

(** Frame [g] now holds page [p] with bytes [d], pinned once, clean. *)
Definition install (p : Z) (d : PageData) (g : nat) (b : BufferPoolManager.t) : BufferPoolManager.t :=
  set_page_table (<[p := g]> (page_table_ b)) (update_frame g (fun _ => mkPage p d false 1) b).

(** The pin count of page [p] (0 when it is not resident). *)
Definition pin_of (b : BufferPoolManager.t) (p : Z) : Z :=
  match page_table_ b !! p with Some f => pin_count (frame b f) | None => 0 end.

(** The two calls that need a frame: [FetchPage(p)] ([Some p]) and
    [NewPage] ([None]), each returning the frame it used. *)
Definition allocating_call (c : option Z) : M BufferPoolManager.t (option nat) :=
  match c with
  | Some p => FetchPage p
  | None => let* r := NewPage in ret (option_map fst r)
  end.

(** What the specification says of the frame such a call obtains. *)
Definition victim_contract (b : BufferPoolManager.t) (r : option nat) (b' : BufferPoolManager.t) : Prop :=
  (r = None <-> free_list_ b = [] /\ forall f, resident b f -> pin_count (frame b f) <> 0) /\
  forall g, r = Some g ->
    match free_list_ b with
    | h :: rest => g = h /\ free_list_ b' = rest
    | [] => exists l, lru_list_ b = l ++ [g] /\ pin_count (frame b g) = 0 /\ lru_list_ b' = l
    end /\
    forall q, page_table_ b !! q = Some g ->
      (is_dirty (frame b g) = true -> dfile b' !! q = Some (data (frame b g))) /\
      page_table_ b' !! q = None.

(** The public buffer pool operations, their results dropped. *)
Inductive pool_op :=
| PFetch (p : Z) | PUnpin (p : Z) (dirty : bool) | PNew | PFlush (p : Z) | PDelete (p : Z).

Definition run_pool_op (o : pool_op) : M BufferPoolManager.t unit :=
  match o with
  | PFetch p => let* _ := FetchPage p in ret tt
  | PUnpin p dirty => let* _ := UnpinPage p dirty in ret tt
  | PNew => let* _ := NewPage in ret tt
  | PFlush p => let* _ := FlushPage p in ret tt
  | PDelete p => let* _ := DeletePage p in ret tt
  end.

(** [FetchPage(p)] asks for a resident page or one the disk manager has
    allocated. *)
Definition fetch_in_range (b : BufferPoolManager.t) (o : pool_op) : Prop :=
  match o with
  | PFetch p => page_table_ b !! p <> None \/ 0 <= p < np b
  | _ => True
  end.

(** The two frame invariants in the specification's words. *)
Definition frames_consistent (b : BufferPoolManager.t) : Prop :=
  forall f, (f < pool_size_ b)%nat ->
    (f ∈ free_list_ b <-> ~ resident b f) /\
    (resident b f -> (f ∈ lru_list_ b <-> pin_count (frame b f) = 0)).

End PoolInv.

(* ================================================================== *)
(** ** Weakest preconditions (partial correctness) *)

Module Wp.

(** [wp m Q s]: if [m] run on [s] returns, its result and final state
    satisfy [Q]; a run that raises satisfies every [wp]. *)
Definition wp {S A} (m : M S A) (Q : A -> S -> Prop) (s : S) : Prop :=
  match m s with Ok a s' => Q a s' | Err _ => True end.

Section Rules.
Context {S : Type}.

Lemma wp_mono {A} (m : M S A) (Q Q' : A -> S -> Prop) s :
  (forall a s', Q a s' -> Q' a s') -> wp m Q s -> wp m Q' s.
Proof. unfold wp. destruct (m s); auto. Qed.

Lemma wp_bind {A B} (m : M S A) (k : A -> M S B) Q s :
  wp m (fun a s' => wp (k a) Q s') s -> wp (bind m k) Q s.
Proof. unfold wp, bind. destruct (m s); auto. Qed.

Lemma wp_ret {A} (a : A) (Q : A -> S -> Prop) s : Q a s -> wp (ret a) Q s.
Proof. exact id. Qed.

Lemma wp_get (Q : S -> S -> Prop) s : Q s s -> wp get Q s.
Proof. exact id. Qed.

Lemma wp_modify f (Q : unit -> S -> Prop) s : Q tt (f s) -> wp (modify f) Q s.
Proof. exact id. Qed.

Lemma wp_throw {A} e (Q : A -> S -> Prop) s : wp (throw e) Q s.
Proof. exact I. Qed.

Lemma wp_zoom {T A} (prj : S -> T) upd (m : M T A) (Q : A -> S -> Prop) s :
  wp m (fun a t => Q a (upd t s)) (prj s) -> wp (zoom prj upd m) Q s.
Proof. unfold wp, zoom. destruct (m (prj s)); auto. Qed.

Lemma wp_run {A} (m : M S A) Q s a s' : wp m Q s -> m s = Ok a s' -> Q a s'.
Proof. unfold wp. intros H E. rewrite E in H. exact H. Qed.

Lemma wp_for_loop (I : S -> Prop) n lo (body : Z -> M S unit) s :
  (forall i s, I s -> wp (body i) (fun _ s' => I s') s) ->
  I s -> wp (for_loop n lo body) (fun _ s' => I s') s.
Proof.
  intros Hb. revert lo s. induction n as [|n IH]; intros lo s Hs; simpl.
  - exact Hs.
  - apply wp_bind. eapply wp_mono; [|apply Hb, Hs]. intros ? s' Hs'. apply IH, Hs'.
Qed.

End Rules.

End Wp.

(* ================================================================== *)
(** ** Buffer pool proofs

    Characterisations of the buffer pool operations as state updates, and
    the preservation of [bpm_wf] by them. *)

Module PoolProofs.

Import BufferPoolManager Wp PoolInv.
Local Open Scope Z_scope.

Arguments frame : simpl never.
Arguments update_frame : simpl never.

Create Rewrite HintDb bpm.

Lemma frame_update_frame b f u h : (f < length (pages_ b))%nat ->
  frame (update_frame f u b) h = if decide (h = f) then u (frame b f) else frame b h.
Proof.
  intros Hl. unfold frame, update_frame, set_pages; cbn [pages_].
  case_decide; subst.
  - apply list_lookup_total_insert_eq; done.
  - apply list_lookup_total_insert_ne; done.
Qed.

Lemma update_frame_twice b f u1 u2 : (f < length (pages_ b))%nat ->
  update_frame f u2 (update_frame f u1 b) = update_frame f (fun pg => u2 (u1 pg)) b.
Proof.
  intros Hl. unfold update_frame at 1. rewrite frame_update_frame, decide_True by done.
  unfold update_frame, set_pages; cbn [pages_]. rewrite list_insert_insert_eq. reflexivity.
Qed.

Section Simp.
Context (b : BufferPoolManager.t).
Lemma frame_set_free_list l : frame (set_free_list l b) = frame b. Proof. reflexivity. Qed.
Lemma frame_set_lru_list l : frame (set_lru_list l b) = frame b. Proof. reflexivity. Qed.
Lemma frame_set_page_table m : frame (set_page_table m b) = frame b. Proof. reflexivity. Qed.
Lemma frame_set_disk_manager d : frame (set_disk_manager d b) = frame b. Proof. reflexivity. Qed.
Lemma pool_size_update_frame f u : pool_size_ (update_frame f u b) = pool_size_ b. Proof. reflexivity. Qed.
Lemma disk_manager_update_frame f u : disk_manager_ (update_frame f u b) = disk_manager_ b. Proof. reflexivity. Qed.
Lemma page_table_update_frame f u : page_table_ (update_frame f u b) = page_table_ b. Proof. reflexivity. Qed.
Lemma free_list_update_frame f u : free_list_ (update_frame f u b) = free_list_ b. Proof. reflexivity. Qed.
Lemma lru_list_update_frame f u : lru_list_ (update_frame f u b) = lru_list_ b. Proof. reflexivity. Qed.
Lemma length_update_frame f u : length (pages_ (update_frame f u b)) = length (pages_ b).
Proof. apply length_insert. Qed.
Lemma set_disk_manager_same : set_disk_manager (disk_manager_ b) b = b.
Proof. destruct b; reflexivity. Qed.
Lemma set_lru_list_same : set_lru_list (lru_list_ b) b = b.
Proof. destruct b; reflexivity. Qed.
Lemma update_frame_set_disk_manager f u d :
  update_frame f u (set_disk_manager d b) = set_disk_manager d (update_frame f u b).
Proof. reflexivity. Qed.
Lemma np_update_frame f u : np (update_frame f u b) = np b. Proof. reflexivity. Qed.
Lemma dfile_update_frame f u : dfile (update_frame f u b) = dfile b. Proof. reflexivity. Qed.
End Simp.

#[local] Hint Rewrite frame_set_free_list frame_set_lru_list frame_set_page_table frame_set_disk_manager
  pool_size_update_frame disk_manager_update_frame page_table_update_frame free_list_update_frame
  lru_list_update_frame length_update_frame set_disk_manager_same update_frame_set_disk_manager
  np_update_frame dfile_update_frame : bpm.

Lemma resident_spec b f : resident b f <-> exists p, page_table_ b !! p = Some f.
Proof. unfold resident. apply elem_of_map_img. Qed.

Section WF.
Context (b : BufferPoolManager.t) (Hwf : bpm_wf b).

Lemma wf_lookup p f : page_table_ b !! p = Some f ->
  (f < pool_size_ b)%nat /\ page_id (frame b f) = p /\ 0 <= p < np b /\
  0 <= pin_count (frame b f) /\ (pin_count (frame b f) = 0 -> f ∈ lru_list_ b).
Proof. intros H. exact (map_Forall_lookup_1 _ _ _ _ (wf_table b Hwf) H). Qed.

Lemma wf_inj p1 p2 f : page_table_ b !! p1 = Some f -> page_table_ b !! p2 = Some f -> p1 = p2.
Proof.
  intros H1 H2. destruct (wf_lookup _ _ H1) as (_ & E1 & _). destruct (wf_lookup _ _ H2) as (_ & E2 & _).
  congruence.
Qed.

Lemma wf_free_elem f : f ∈ free_list_ b ->
  (f < pool_size_ b)%nat /\ ~ resident b f /\ page_id (frame b f) = -1.
Proof. intros H. exact (proj1 (Forall_forall _ _) (wf_free b Hwf) f H). Qed.

Lemma wf_lru_elem f : f ∈ lru_list_ b -> resident b f /\ pin_count (frame b f) = 0.
Proof. intros H. exact (proj1 (Forall_forall _ _) (wf_lru b Hwf) f H). Qed.

Lemma wf_cover_elem f : (f < pool_size_ b)%nat -> f ∈ free_list_ b \/ resident b f.
Proof.
  intros H. refine (proj1 (Forall_forall _ _) (wf_cover b Hwf) f _).
  apply elem_of_seq. lia.
Qed.

Lemma wf_frame_length f : (f < pool_size_ b)%nat -> (f < length (pages_ b))%nat.
Proof. rewrite (wf_length b Hwf). done. Qed.

Lemma wf_FindVictimPage :
  FindVictimPage b =
    match free_list_ b with
    | g :: rest => Ok g (set_free_list rest b)
    | [] => match rev (lru_list_ b) with
            | [] => Ok (pool_size_ b) b
            | g :: rest => Ok g (set_lru_list (rev rest) b)
            end
    end.
Proof.
  unfold FindVictimPage. destruct (free_list_ b) as [|g rest]; [|reflexivity].
  destruct (rev (lru_list_ b)) as [|g rest] eqn:E; simpl.
  - assert (lru_list_ b = []) as El.
    { rewrite <- (rev_involutive (lru_list_ b)), E. reflexivity. }
    rewrite <- El, set_lru_list_same. reflexivity.
  - assert (g ∈ lru_list_ b) as Hg.
    { apply list_elem_of_In, in_rev. rewrite E. left. reflexivity. }
    destruct (wf_lru_elem g Hg) as [_ Hp]. unfold frame in Hp.
    rewrite decide_True by exact Hp. reflexivity.
Qed.

End WF.
Lemma wp_victim {A} (K : nat -> M BufferPoolManager.t (option A)) Q b : bpm_wf b ->
  (free_list_ b = [] -> lru_list_ b = [] -> Q None b) ->
  (forall g b1, victim_step b g b1 -> (g < pool_size_ b)%nat -> wp (K g) Q b1) ->
  wp (let* f := FindVictimPage in let* b := get in
      if decide (f = pool_size_ b) then ret None else let* _ := evict_victim f in K f) Q b.
Proof.
  intros Hwf Hnone Hsome. apply wp_bind. unfold wp at 1. rewrite (wf_FindVictimPage b Hwf).
  destruct (free_list_ b) as [|g rest] eqn:Ef.
  - destruct (rev (lru_list_ b)) as [|g rest] eqn:E; cbv beta iota.
    + assert (lru_list_ b = []) as El.
      { rewrite <- (rev_involutive (lru_list_ b)), E. reflexivity. }
      apply wp_bind, wp_get. rewrite decide_True by reflexivity. apply wp_ret, Hnone; done.
    + assert (lru_list_ b = rev rest ++ [g]) as El.
      { rewrite <- (rev_involutive (lru_list_ b)), E. reflexivity. }
      assert (g ∈ lru_list_ b) as Hg by (rewrite El; set_solver).
      destruct (wf_lru_elem b Hwf g Hg) as [Hres Hpin].
      apply resident_spec in Hres as [q Hq].
      destruct (wf_lookup b Hwf q g Hq) as (Hlt & Hid & Hqr & _).
      apply wp_bind, wp_get. cbn [pool_size_ set_lru_list]. rewrite decide_False by lia.
      apply wp_bind. unfold evict_victim. apply wp_bind, wp_get.
      autorewrite with bpm. rewrite Hid, decide_True by lia.
      pose proof (vs_lru b (rev rest) g Ef El) as Hv.
      unfold evicted_disk in Hv. rewrite Hid in Hv.
      apply wp_bind. destruct (is_dirty (frame b g)) eqn:Ed.
      * unfold disk. apply wp_zoom. unfold wp at 1, DiskManager.WritePage.
        rewrite decide_False by lia. cbv beta iota.
        apply wp_modify. exact (Hsome _ _ Hv Hlt).
      * apply wp_ret, wp_modify. exact (Hsome _ _ Hv Hlt).
  - cbv beta iota.
    assert (g ∈ free_list_ b) as Hg by (rewrite Ef; set_solver).
    destruct (wf_free_elem b Hwf g Hg) as (Hlt & _ & Hid).
    apply wp_bind, wp_get. cbn [pool_size_ set_free_list]. rewrite decide_False by lia.
    apply wp_bind. unfold evict_victim. apply wp_bind, wp_get.
    autorewrite with bpm. rewrite Hid, decide_False by lia.
    apply wp_ret. exact (Hsome _ _ (vs_free b g rest Ef) Hlt).
Qed.

Lemma np_evicted b g l :
  np (set_page_table (delete (page_id (frame b g)) (page_table_ b))
        (set_disk_manager (evicted_disk b g) (set_lru_list l b))) = np b.
Proof. unfold np, evicted_disk. simpl. destruct (is_dirty (frame b g)); reflexivity. Qed.

Lemma victim_step_frame b g b1 : victim_step b g b1 -> frame b1 = frame b /\ pool_size_ b1 = pool_size_ b /\
  pages_ b1 = pages_ b /\ np b1 = np b.
Proof. intros []; [repeat split; reflexivity|]. rewrite np_evicted. repeat split; reflexivity. Qed.

Lemma victim_detached b g b1 : bpm_wf b -> victim_step b g b1 -> detached b1 g.
Proof.
  intros Hwf Hv. destruct Hv as [g rest Ef | l g Ef El].
  - assert (g ∈ free_list_ b) as Hg by (rewrite Ef; set_solver).
    destruct (wf_free_elem b Hwf g Hg) as (Hlt & Hng & Hid).
    pose proof (wf_free_nodup b Hwf) as Hnd. rewrite Ef in Hnd. apply NoDup_cons in Hnd as [Hgr Hnd].
    constructor; cbn [pool_size_ pages_ page_table_ free_list_ lru_list_ set_free_list].
    + exact (wf_length b Hwf).
    + exact Hlt.
    + apply map_Forall_lookup_2. intros p f Hp.
      destruct (wf_lookup b Hwf p f Hp) as (? & ? & ? & ? & ?).
      assert (f <> g). { intros ->. apply Hng, resident_spec. eauto. }
      repeat split; try solve [auto]; unfold np in *; cbn in *; lia.
    + exact Hnd.
    + apply Forall_forall. intros f Hf.
      assert (f ∈ free_list_ b) as Hf' by (rewrite Ef; set_solver).
      destruct (wf_free_elem b Hwf f Hf') as (? & ? & ?).
      repeat split; auto. intros ->. contradiction.
    + apply Forall_forall. intros f Hf. apply elem_of_seq in Hf.
      destruct (wf_cover_elem b Hwf f ltac:(lia)) as [Hf'|Hf']; [|auto].
      rewrite Ef in Hf'. apply elem_of_cons in Hf' as [->|]; auto.
    + exact (wf_lru_nodup b Hwf).
    + apply Forall_forall. intros f Hf. destruct (wf_lru_elem b Hwf f Hf) as [Hr Hp].
      repeat split; auto. intros ->. contradiction.
    + exact (wf_np b Hwf).
    + exact (wf_file b Hwf).
  - assert (g ∈ lru_list_ b) as Hg by (rewrite El; set_solver).
    destruct (wf_lru_elem b Hwf g Hg) as [Hres Hpin].
    apply resident_spec in Hres as [q Hq].
    destruct (wf_lookup b Hwf q g Hq) as (Hlt & Hid & Hqr & _).
    pose proof (wf_lru_nodup b Hwf) as Hnd. rewrite El in Hnd.
    apply NoDup_app in Hnd as (Hndl & Hdisj & _).
    assert (g ∉ l) as Hgl. { intros Hgl. apply (Hdisj g Hgl). set_solver. }
    constructor; rewrite ?np_evicted; cbn [pool_size_ pages_ page_table_ free_list_ lru_list_
                                      set_free_list set_lru_list set_disk_manager set_page_table].
    + exact (wf_length b Hwf).
    + exact Hlt.
    + apply map_Forall_lookup_2. intros p f Hp. rewrite Hid in Hp.
      apply lookup_delete_Some in Hp as [Hpq Hp].
      destruct (wf_lookup b Hwf p f Hp) as (? & ? & ? & ? & Hl).
      assert (f <> g). { intros ->. apply Hpq. congruence. }
      repeat split; try solve [auto]; try (unfold np in *; cbn in *; lia).
      intros Hz. specialize (Hl Hz). rewrite El in Hl.
      apply elem_of_app in Hl as [?|Hl]; [done|]. set_solver.
    + rewrite Ef; constructor.
    + rewrite Ef; constructor.
    + apply Forall_forall. intros f Hf. apply elem_of_seq in Hf.
      destruct (wf_cover_elem b Hwf f ltac:(lia)) as [Hf'|Hf'].
      * rewrite Ef in Hf'. set_solver.
      * apply resident_spec in Hf' as [p Hp].
        destruct (decide (f = g)) as [->|Hne]; [left; reflexivity|].
        right; right. apply resident_spec. exists p. cbn. rewrite Hid.
        apply lookup_delete_Some. split; [|exact Hp]. intros ->. congruence.
    + exact Hndl.
    + apply Forall_forall. intros f Hf.
      assert (f ∈ lru_list_ b) as Hf' by (rewrite El; set_solver).
      destruct (wf_lru_elem b Hwf f Hf') as [Hr Hp].
      assert (f <> g) as Hne by (intros ->; contradiction).
      repeat split; auto. apply resident_spec in Hr as [p Hp'].
      apply resident_spec. exists p. cbn. rewrite Hid.
      apply lookup_delete_Some. split; [|exact Hp']. intros ->. congruence.
    + rewrite <- (np_evicted b g l). unfold np. simpl. unfold evicted_disk. destruct (is_dirty (frame b g)); exact (wf_np b Hwf).
    + pose proof (wf_file b Hwf) as Hf. pose proof (wf_np b Hwf).
      unfold dfile, np in *. simpl. unfold evicted_disk. destruct (is_dirty (frame b g)); simpl.
      * apply map_Forall_insert_2; [rewrite Hid; exact Hqr|exact Hf].
      * exact Hf.
Qed.

Lemma detached_frame_length b g : detached b g -> (g < length (pages_ b))%nat.
Proof. intros Hd. rewrite (dt_length b g Hd). exact (dt_victim b g Hd). Qed.

Lemma frame_install p d g b h : (g < length (pages_ b))%nat ->
  frame (install p d g b) h = if decide (h = g) then mkPage p d false 1 else frame b h.
Proof. intros Hl. unfold install. rewrite frame_set_page_table, frame_update_frame by exact Hl. reflexivity. Qed.

Lemma resident_install p d g b h : page_table_ b !! p = None ->
  resident (install p d g b) h <-> h = g \/ resident b h.
Proof.
  intros Hp. rewrite !resident_spec. unfold install. cbn.
  split.
  - intros [p' Hp']. apply lookup_insert_Some in Hp' as [[-> ->]|[_ Hp']]; eauto.
  - intros [->|[p' Hp']].
    + exists p. apply lookup_insert_eq.
    + exists p'. rewrite lookup_insert_ne; [exact Hp'|]. intros ->. congruence.
Qed.

Section InstallProj.
Context (p : Z) (d : PageData) (g : nat) (b : BufferPoolManager.t).
Lemma pool_size_install : pool_size_ (install p d g b) = pool_size_ b. Proof. reflexivity. Qed.
Lemma np_install : np (install p d g b) = np b. Proof. reflexivity. Qed.
Lemma dfile_install : dfile (install p d g b) = dfile b. Proof. reflexivity. Qed.
Lemma free_list_install : free_list_ (install p d g b) = free_list_ b. Proof. reflexivity. Qed.
Lemma lru_list_install : lru_list_ (install p d g b) = lru_list_ b. Proof. reflexivity. Qed.
Lemma page_table_install : page_table_ (install p d g b) = <[p := g]> (page_table_ b). Proof. reflexivity. Qed.
Lemma length_install : length (pages_ (install p d g b)) = length (pages_ b). Proof. apply length_insert. Qed.
End InstallProj.

#[local] Hint Rewrite pool_size_install np_install dfile_install free_list_install lru_list_install
  page_table_install length_install : bpm.

Lemma install_wf p d g b : detached b g -> page_table_ b !! p = None -> 0 <= p < np b ->
  bpm_wf (install p d g b).
Proof.
  intros Hd Hp Hpr. pose proof (detached_frame_length b g Hd) as Hl.
  assert (forall h, h <> g -> frame (install p d g b) h = frame b h) as Hfr.
  { intros h Hh. rewrite frame_install by exact Hl. rewrite decide_False by exact Hh. reflexivity. }
  pose proof (dt_victim b g Hd) as Hg.
  constructor; autorewrite with bpm.
  - exact (dt_length b g Hd).
  - apply map_Forall_insert_2.
    + rewrite frame_install, decide_True by (auto). cbn.
      repeat split; try lia; intros Hz; discriminate.
    + apply (map_Forall_impl _ _ _ (dt_table b g Hd)). intros p' f (? & Hne & ? & ? & ? & ?).
      rewrite Hfr by exact Hne. repeat split; auto; lia.
  - exact (dt_free_nodup b g Hd).
  - apply (Forall_impl _ _ _ (dt_free b g Hd)). intros f (? & Hne & Hnr & ?).
    rewrite Hfr, resident_install by auto. repeat split; auto. intros [?|?]; auto.
  - apply (Forall_impl _ _ _ (dt_cover b g Hd)). intros f [->|[?|?]].
    + right. apply resident_install; auto.
    + left. auto.
    + right. apply resident_install; auto.
  - exact (dt_lru_nodup b g Hd).
  - apply (Forall_impl _ _ _ (dt_lru b g Hd)). intros f (Hne & ? & ?).
    rewrite Hfr, resident_install by auto. auto.
  - exact (dt_np b g Hd).
  - exact (dt_file b g Hd).
Qed.

(** The tail of [FetchPage] after the write-back block. *)
Lemma fetch_tail p g b : (g < length (pages_ b))%nat -> 0 <= p ->
  (let* _ := modify (update_frame g (fun pg => mkPage p (data pg) false 1)) in
   let* d := disk (DiskManager.ReadPage p) in
   let* _ := modify (update_frame g (set_data d)) in
   let* _ := modify (fun b => set_page_table (<[p := g]> (page_table_ b)) b) in
   ret (Some g)) b
  = Ok (Some g) (install p (DiskManager.file_page (dfile b) p) g b).
Proof.
  intros Hl Hp. unfold bind, modify, disk, zoom, ret, DiskManager.ReadPage. cbn.
  rewrite decide_False by lia. autorewrite with bpm.
  rewrite update_frame_twice by exact Hl. reflexivity.
Qed.

(** The tail of [NewPage] after the write-back block. *)
Lemma new_tail g b : (g < length (pages_ b))%nat ->
  (let* pid := disk DiskManager.AllocatePage in
   let* _ := modify (update_frame g (fun _ => mkPage pid zero_page false 1)) in
   let* _ := modify (fun b => set_page_table (<[pid := g]> (page_table_ b)) b) in
   ret (Some (g, pid))) b
  = Ok (Some (g, np b))
       (install (np b) zero_page g (set_disk_manager (DiskManager.mk (dfile b) (np b + 1)) b)).
Proof. intros Hl. reflexivity. Qed.

Lemma detached_alloc b g : detached b g ->
  detached (set_disk_manager (DiskManager.mk (dfile b) (np b + 1)) b) g.
Proof.
  intros Hd. destruct Hd. constructor; cbn [pool_size_ pages_ page_table_ free_list_ lru_list_ set_disk_manager]; auto.
  - apply (map_Forall_impl _ _ _ dt_table0). intros p f (? & ? & ? & ? & ? & ?).
    repeat split; auto; unfold np in *; cbn in *; lia.
  - unfold np in *; cbn in *; lia.
  - apply (map_Forall_impl _ _ _ dt_file0). intros p _ ?. unfold np, dfile in *; cbn in *; lia.
Qed.

Lemma lru_erase_spec f l : NoDup l ->
  NoDup (lru_erase f l) /\ (forall x, x ∈ lru_erase f l <-> x ∈ l /\ x <> f).
Proof.
  induction l as [|y l IH]; intros Hnd; simpl.
  - split; [constructor|]. intros x. split; [intros Hx; inversion Hx|intros [Hx _]; inversion Hx].
  - apply NoDup_cons in Hnd as [Hy Hnd]. destruct (IH Hnd) as [IHnd IHx].
    case_decide as Hyf.
    + subst y. split; [exact Hnd|]. intros x. rewrite elem_of_cons. split.
      * intros Hx. split; [right; exact Hx|]. intros ->. contradiction.
      * intros [[->|Hx] Hne]; [contradiction|exact Hx].
    + split.
      * apply NoDup_cons. split; [|exact IHnd]. rewrite IHx. intros [? _]. contradiction.
      * intros x. rewrite !elem_of_cons, IHx. split.
        -- intros [->|[Hx Hne]]; [split; [left; reflexivity|exact Hyf]|split; [right; exact Hx|exact Hne]].
        -- intros [[->|Hx] Hne]; [left; reflexivity|right; split; assumption].
Qed.

(** [FetchPage] of a resident page. *)
Definition hit_state (f : nat) (b : BufferPoolManager.t) : BufferPoolManager.t :=
  let b1 := update_frame f (fun pg => set_pin_count (pin_count pg + 1) pg) b in
  if decide (f ∈ lru_list_ b1) then set_lru_list (lru_erase f (lru_list_ b1)) b1 else b1.

Lemma FetchPage_hit p f b : page_table_ b !! p = Some f ->
  FetchPage p b = Ok (Some f) (hit_state f b).
Proof. intros Hp. unfold FetchPage, bind, get, modify, ret. rewrite Hp. reflexivity. Qed.

Lemma FetchPage_miss_wp p b Q : bpm_wf b -> page_table_ b !! p = None ->
  (free_list_ b = [] -> lru_list_ b = [] -> Q None b) ->
  (forall g b1, victim_step b g b1 -> (g < pool_size_ b)%nat -> 0 <= p ->
     Q (Some g) (install p (DiskManager.file_page (dfile b1) p) g b1)) ->
  wp (FetchPage p) Q b.
Proof.
  intros Hwf Hp Hnone Hsome. unfold FetchPage. apply wp_bind, wp_get. rewrite Hp.
  apply (wp_victim _ Q b Hwf Hnone). intros g b1 Hv Hg.
  pose proof (victim_detached b g b1 Hwf Hv) as Hd.
  pose proof (detached_frame_length b1 g Hd) as Hl.
  destruct (decide (0 <= p)) as [Hp0|Hp0].
  - unfold wp. rewrite fetch_tail by auto. apply Hsome; auto.
  - unfold wp, bind, modify, disk, zoom, DiskManager.ReadPage. cbn.
    rewrite decide_True by lia. exact I.
Qed.

Lemma NewPage_wp b Q : bpm_wf b ->
  (free_list_ b = [] -> lru_list_ b = [] -> Q None b) ->
  (forall g b1, victim_step b g b1 -> (g < pool_size_ b)%nat ->
     Q (Some (g, np b1)) (install (np b1) zero_page g
                           (set_disk_manager (DiskManager.mk (dfile b1) (np b1 + 1)) b1))) ->
  wp NewPage Q b.
Proof.
  intros Hwf Hnone Hsome. unfold NewPage.
  apply (wp_victim _ Q b Hwf Hnone). intros g b1 Hv Hg.
  pose proof (victim_detached b g b1 Hwf Hv) as Hd.
  pose proof (detached_frame_length b1 g Hd) as Hl.
  unfold wp. rewrite new_tail by auto. apply Hsome; auto.
Qed.

(** [UnpinPage] of a resident page with a positive pin count. *)
Definition unpin_state (f : nat) (dirty : bool) (b : BufferPoolManager.t) : BufferPoolManager.t :=
  let pg := frame b f in
  let b1 := update_frame f (fun pg => mkPage (page_id pg) (data pg) (is_dirty pg || dirty)
                                         (pin_count (frame b f) - 1)) b in
  if decide (pin_count pg - 1 = 0) then set_lru_list (f :: lru_list_ b1) b1 else b1.

Lemma UnpinPage_eq p dirty b :
  UnpinPage p dirty b =
    match page_table_ b !! p with
    | None => Ok false b
    | Some f => if decide (pin_count (frame b f) <= 0) then Ok false b
                else Ok true (unpin_state f dirty b)
    end.
Proof.
  unfold UnpinPage, unpin_state, bind, get, modify, ret.
  destruct (page_table_ b !! p) as [f|]; [|reflexivity].
  case_decide; [reflexivity|]. case_decide; reflexivity.
Qed.

(** [FlushPage] of a resident page. *)
Definition flush_state (f : nat) (b : BufferPoolManager.t) : BufferPoolManager.t :=
  update_frame f (set_is_dirty false)
    (set_disk_manager (DiskManager.mk (<[page_id (frame b f) := data (frame b f)]> (dfile b)) (np b)) b).

Lemma FlushPage_eq p b f : page_table_ b !! p = Some f -> 0 <= page_id (frame b f) ->
  FlushPage p b = Ok true (flush_state f b).
Proof.
  intros Hp Hid. unfold FlushPage, flush_state, bind, get, modify, ret, disk, zoom, DiskManager.WritePage.
  rewrite Hp. cbn. rewrite decide_False by lia. reflexivity.
Qed.

(** [DeletePage] of a resident unpinned page. *)
Definition delete_state (p : Z) (f : nat) (b : BufferPoolManager.t) : BufferPoolManager.t :=
  let b1 := if decide (f ∈ lru_list_ b) then set_lru_list (lru_erase f (lru_list_ b)) b else b in
  let b2 := set_page_table (delete p (page_table_ b1)) b1 in
  let b3 := update_frame f (fun pg => mkPage (-1) (data pg) false 0) b2 in
  set_free_list (free_list_ b3 ++ [f]) b3.

Lemma DeletePage_eq p b :
  DeletePage p b =
    match page_table_ b !! p with
    | None => Ok true b
    | Some f => if decide (pin_count (frame b f) > 0) then Ok false b
                else Ok true (delete_state p f b)
    end.
Proof.
  unfold DeletePage, delete_state, bind, get, modify, ret.
  destruct (page_table_ b !! p) as [f|]; [|reflexivity].
  case_decide; reflexivity.
Qed.

Lemma victim_contract_none b : bpm_wf b -> free_list_ b = [] -> lru_list_ b = [] ->
  victim_contract b None b.
Proof.
  intros Hwf Ef El. split.
  - split; [|reflexivity]. intros _. split; [exact Ef|]. intros f Hr Hpin.
    apply resident_spec in Hr as [p Hp]. destruct (wf_lookup b Hwf p f Hp) as (_ & _ & _ & _ & Hl).
    specialize (Hl Hpin). rewrite El in Hl. inversion Hl.
  - intros g Hg. discriminate.
Qed.

Lemma victim_contract_some b g b1 b' p : bpm_wf b -> victim_step b g b1 -> page_table_ b !! p = None ->
  free_list_ b' = free_list_ b1 -> lru_list_ b' = lru_list_ b1 -> dfile b' = dfile b1 ->
  page_table_ b' = <[p := g]> (page_table_ b1) -> victim_contract b (Some g) b'.
Proof.
  intros Hwf Hv Hp Ef' El' Ed' Et'. split.
  - split; [discriminate|]. intros [Ef Hno]. exfalso. destruct Hv as [g rest Ef0 | l g Ef0 El0].
    + congruence.
    + assert (g ∈ lru_list_ b) as Hg by (rewrite El0; set_solver).
      destruct (wf_lru_elem b Hwf g Hg) as [Hr Hpin]. exact (Hno g Hr Hpin).
  - intros g' Hg'. injection Hg' as <-. destruct Hv as [g rest Ef0 | l g Ef0 El0].
    + rewrite Ef0. split; [split; [reflexivity|exact Ef']|].
      intros q Hq. exfalso.
      assert (g ∈ free_list_ b) as Hg by (rewrite Ef0; set_solver).
      destruct (wf_free_elem b Hwf g Hg) as (_ & Hnr & _). apply Hnr, resident_spec. eauto.
    + rewrite Ef0. assert (g ∈ lru_list_ b) as Hg by (rewrite El0; set_solver).
      destruct (wf_lru_elem b Hwf g Hg) as [Hr Hpin].
      split; [exists l; split; [exact El0|split; [exact Hpin|exact El']]|].
      intros q Hq. destruct (wf_lookup b Hwf q g Hq) as (_ & Hid & _).
      assert (p <> q) as Hpq by (intros ->; congruence).
      split.
      * intros Hdirty. rewrite Ed'. unfold dfile, evicted_disk. cbn. rewrite Hdirty. cbn.
        rewrite Hid. apply lookup_insert_eq.
      * rewrite Et'. cbn. rewrite lookup_insert_ne by exact Hpq. rewrite Hid. apply lookup_delete_eq.
Qed.

Lemma wf_table_bound b p f : bpm_wf b -> page_table_ b !! p = Some f -> 0 <= p < np b.
Proof. intros Hwf Hp. apply (wf_lookup b Hwf p f Hp). Qed.

Lemma wf_np_free b : bpm_wf b -> page_table_ b !! np b = None.
Proof.
  intros Hwf. destruct (page_table_ b !! np b) as [f|] eqn:E; [|reflexivity].
  apply wf_table_bound in E; [lia|exact Hwf].
Qed.

(** C7.  From a well-formed pool, a [FetchPage] of a page that is not
    resident, or a [NewPage], takes its frame from the front of the free list
    when that list is not empty, and otherwise from the back of the LRU list,
    whose frames all have pin count 0.  The evicted page is written to the
    file when dirty and leaves the page table, and the call yields no frame
    exactly when the free list is empty and every resident frame is pinned. *)
Theorem victim_selection b c r b' :
  bpm_wf b -> (forall p, c = Some p -> page_table_ b !! p = None) ->
  allocating_call c b = Ok r b' -> victim_contract b r b'.
Proof.
  intros Hwf Hc Hrun. revert Hrun. apply wp_run. destruct c as [p|]; cbn [allocating_call].
  - specialize (Hc p eq_refl). apply FetchPage_miss_wp; auto.
    + apply victim_contract_none; auto.
    + intros g b1 Hv Hg Hp0. eapply victim_contract_some; eauto.
  - apply wp_bind, NewPage_wp; auto.
    + intros Ef El. apply wp_ret. apply victim_contract_none; auto.
    + intros g b1 Hv Hg. apply wp_ret. cbn.
      destruct (victim_step_frame b g b1 Hv) as (_ & _ & _ & Hnp).
      eapply (victim_contract_some b g b1 _ (np b1)); eauto.
      rewrite Hnp. apply wf_np_free, Hwf.
Qed.

Lemma lru_erase_notin f l : f ∉ l -> lru_erase f l = l.
Proof.
  induction l as [|g l IH]; intros Hf; simpl; [reflexivity|].
  rewrite decide_False by (intros ->; apply Hf; left).
  rewrite IH by (intros H; apply Hf; right; exact H). reflexivity.
Qed.

Lemma lru_erase_elem f l x : NoDup l -> x ∈ lru_erase f l <-> x ∈ l /\ x <> f.
Proof. intros Hnd. exact (proj2 (lru_erase_spec f l Hnd) x). Qed.

Section Hit.
Context (b : BufferPoolManager.t) (p : Z) (f : nat) (Hwf : bpm_wf b) (Hp : page_table_ b !! p = Some f).

Lemma hit_lru : lru_list_ (hit_state f b) = lru_erase f (lru_list_ b).
Proof.
  unfold hit_state. autorewrite with bpm. case_decide as Hin; [reflexivity|].
  rewrite lru_erase_notin by exact Hin. reflexivity.
Qed.

Lemma hit_frame h : frame (hit_state f b) h =
  if decide (h = f) then set_pin_count (pin_count (frame b f) + 1) (frame b f) else frame b h.
Proof.
  destruct (wf_lookup b Hwf p f Hp) as (Hf & _).
  unfold hit_state. case_decide; autorewrite with bpm;
  (rewrite frame_update_frame by (apply wf_frame_length; assumption); reflexivity).
Qed.

Lemma hit_proj : pool_size_ (hit_state f b) = pool_size_ b /\ page_table_ (hit_state f b) = page_table_ b /\
  free_list_ (hit_state f b) = free_list_ b /\ disk_manager_ (hit_state f b) = disk_manager_ b /\
  length (pages_ (hit_state f b)) = length (pages_ b).
Proof.
  unfold hit_state. case_decide; cbn [set_lru_list pool_size_ page_table_ free_list_ disk_manager_ pages_];
  autorewrite with bpm; repeat split; reflexivity.
Qed.

Lemma hit_state_wf : bpm_wf (hit_state f b).
Proof.
  destruct hit_proj as (Hps & Hpt & Hfl & Hdm & Hlen).
  pose proof (wf_lru_nodup b Hwf) as Hnd.
  destruct (wf_lookup b Hwf p f Hp) as (Hf & Hid & _ & Hpin0 & _).
  assert (Hres : forall h, resident (hit_state f b) h <-> resident b h) by (intros h; unfold resident; rewrite Hpt; reflexivity).
  assert (Hfr : forall h, h <> f -> frame (hit_state f b) h = frame b h).
  { intros h Hh. rewrite hit_frame, decide_False by exact Hh. reflexivity. }
  assert (Hnf : f ∉ free_list_ b).
  { intros Hin. destruct (wf_free_elem b Hwf f Hin) as (_ & Hnr & _). apply Hnr, resident_spec. eauto. }
  constructor; unfold np, dfile in *; rewrite ?Hps, ?Hpt, ?Hfl, ?Hdm, ?Hlen, ?hit_lru.
  - apply (wf_length b Hwf).
  - apply map_Forall_lookup_2. intros q h Hq.
    destruct (wf_lookup b Hwf q h Hq) as (Hh & Hidq & Hqr & Hpq & Hlq).
    destruct (decide (h = f)) as [->|Hne].
    + rewrite hit_frame, decide_True by reflexivity. cbn. unfold np in *. repeat split; auto; try lia.
    + rewrite Hfr by exact Hne. unfold np in *. repeat split; auto; try lia.
      intros Hz. apply lru_erase_elem; auto.
  - apply (wf_free_nodup b Hwf).
  - apply (Forall_impl _ _ _ (wf_free b Hwf)). intros h (Hh & Hnr & Hidh).
    assert (h <> f) by (intros ->; apply Hnr, resident_spec; eauto).
    rewrite Hres, Hfr by assumption. auto.
  - apply (Forall_impl _ _ _ (wf_cover b Hwf)). intros h Hh. rewrite Hres. exact Hh.
  - apply lru_erase_spec, Hnd.
  - apply Forall_forall. intros h Hh. apply lru_erase_elem in Hh as [Hh Hne]; [|exact Hnd].
    rewrite Hres, Hfr by exact Hne. apply (wf_lru_elem b Hwf h Hh).
  - apply (wf_np b Hwf).
  - apply (wf_file b Hwf).
Qed.

End Hit.
Section Unpin.
Context (b : BufferPoolManager.t) (p : Z) (f : nat) (dirty : bool) (Hwf : bpm_wf b)
  (Hp : page_table_ b !! p = Some f) (Hpos : 0 < pin_count (frame b f)).

Lemma unpin_proj : pool_size_ (unpin_state f dirty b) = pool_size_ b /\
  page_table_ (unpin_state f dirty b) = page_table_ b /\
  free_list_ (unpin_state f dirty b) = free_list_ b /\ disk_manager_ (unpin_state f dirty b) = disk_manager_ b /\
  length (pages_ (unpin_state f dirty b)) = length (pages_ b) /\
  lru_list_ (unpin_state f dirty b) =
    if decide (pin_count (frame b f) - 1 = 0) then f :: lru_list_ b else lru_list_ b.
Proof.
  unfold unpin_state. case_decide; cbn [set_lru_list pool_size_ page_table_ free_list_ disk_manager_ pages_ lru_list_];
  autorewrite with bpm; repeat split; reflexivity.
Qed.

Lemma unpin_frame h : frame (unpin_state f dirty b) h =
  if decide (h = f) then mkPage (page_id (frame b f)) (data (frame b f)) (is_dirty (frame b f) || dirty)
                              (pin_count (frame b f) - 1)
  else frame b h.
Proof.
  destruct (wf_lookup b Hwf p f Hp) as (Hf & _).
  unfold unpin_state. case_decide; autorewrite with bpm;
  (rewrite frame_update_frame by (apply wf_frame_length; assumption); reflexivity).
Qed.

Lemma unpin_state_wf : bpm_wf (unpin_state f dirty b).
Proof.
  destruct unpin_proj as (Hps & Hpt & Hfl & Hdm & Hlen & Hlru).
  pose proof (wf_lru_nodup b Hwf) as Hnd.
  destruct (wf_lookup b Hwf p f Hp) as (Hf & Hid & _ & Hpin0 & _).
  assert (Hres : forall h, resident (unpin_state f dirty b) h <-> resident b h)
    by (intros h; unfold resident; rewrite Hpt; reflexivity).
  assert (Hfr : forall h, h <> f -> frame (unpin_state f dirty b) h = frame b h).
  { intros h Hh. rewrite unpin_frame, decide_False by exact Hh. reflexivity. }
  assert (Hnl : f ∉ lru_list_ b).
  { intros Hin. destruct (wf_lru_elem b Hwf f Hin) as [_ Hz]. lia. }
  assert (Hsub : forall h, h ∈ lru_list_ b -> h ∈ lru_list_ (unpin_state f dirty b)).
  { intros h Hh. rewrite Hlru. case_decide; [right|]; exact Hh. }
  constructor; unfold np, dfile in *; rewrite ?Hps, ?Hpt, ?Hfl, ?Hdm, ?Hlen.
  - apply (wf_length b Hwf).
  - apply map_Forall_lookup_2. intros q h Hq.
    destruct (wf_lookup b Hwf q h Hq) as (Hh & Hidq & Hqr & Hpq & Hlq).
    destruct (decide (h = f)) as [->|Hne].
    + rewrite unpin_frame, decide_True by reflexivity. cbn. unfold np in *.
      repeat split; auto; try lia.
      intros Hz. rewrite Hlru, decide_True by exact Hz. left.
    + rewrite Hfr by exact Hne. unfold np in *. repeat split; auto; try lia.
  - apply (wf_free_nodup b Hwf).
  - apply (Forall_impl _ _ _ (wf_free b Hwf)). intros h (Hh & Hnr & Hidh).
    assert (h <> f) by (intros ->; apply Hnr, resident_spec; eauto).
    rewrite Hres, Hfr by assumption. auto.
  - apply (Forall_impl _ _ _ (wf_cover b Hwf)). intros h Hh. rewrite Hres. exact Hh.
  - rewrite Hlru. case_decide; [constructor; assumption|exact Hnd].
  - apply Forall_forall. intros h Hh. rewrite Hlru in Hh. rewrite Hres.
    case_decide as Hz.
    + apply elem_of_cons in Hh as [->|Hh].
      * rewrite unpin_frame, decide_True by reflexivity. cbn. split; [apply resident_spec; eauto|exact Hz].
      * assert (h <> f) by (intros ->; contradiction). rewrite Hfr by assumption.
        apply (wf_lru_elem b Hwf h Hh).
    + assert (h <> f) by (intros ->; contradiction). rewrite Hfr by assumption.
      apply (wf_lru_elem b Hwf h Hh).
  - apply (wf_np b Hwf).
  - apply (wf_file b Hwf).
Qed.

End Unpin.

Section Flush.
Context (b : BufferPoolManager.t) (p : Z) (f : nat) (Hwf : bpm_wf b) (Hp : page_table_ b !! p = Some f).

Lemma flush_frame h : frame (flush_state f b) h =
  if decide (h = f) then set_is_dirty false (frame b f) else frame b h.
Proof.
  destruct (wf_lookup b Hwf p f Hp) as (Hf & _).
  unfold flush_state. autorewrite with bpm.
  rewrite frame_update_frame; [|cbn; apply wf_frame_length; assumption].
  autorewrite with bpm. reflexivity.
Qed.

Lemma flush_state_wf : bpm_wf (flush_state f b).
Proof.
  destruct (wf_lookup b Hwf p f Hp) as (Hf & Hid & Hpr & Hpin0 & _).
  assert (Hres : forall h, resident (flush_state f b) h <-> resident b h) by reflexivity.
  assert (Hfr : forall h, h <> f -> frame (flush_state f b) h = frame b h).
  { intros h Hh. rewrite flush_frame, decide_False by exact Hh. reflexivity. }
  assert (Hfpid : forall h, page_id (frame (flush_state f b) h) = page_id (frame b h) /\
                           pin_count (frame (flush_state f b) h) = pin_count (frame b h)).
  { intros h. rewrite flush_frame. case_decide; subst; split; reflexivity. }
  assert (Hproj : pool_size_ (flush_state f b) = pool_size_ b /\ page_table_ (flush_state f b) = page_table_ b /\
    free_list_ (flush_state f b) = free_list_ b /\ lru_list_ (flush_state f b) = lru_list_ b /\
    length (pages_ (flush_state f b)) = length (pages_ b) /\ np (flush_state f b) = np b /\
    dfile (flush_state f b) = <[page_id (frame b f) := data (frame b f)]> (dfile b)).
  { unfold flush_state, np, dfile. autorewrite with bpm.
    cbn [set_disk_manager pool_size_ page_table_ free_list_ lru_list_ pages_ disk_manager_
         DiskManager.num_pages_ DiskManager.file_].
    autorewrite with bpm. repeat split; reflexivity. }
  destruct Hproj as (Hps & Hpt & Hfl & Hll & Hlen & Hnp & Hdf).
  constructor; rewrite ?Hps, ?Hpt, ?Hfl, ?Hll, ?Hlen, ?Hnp, ?Hdf.
  - apply (wf_length b Hwf).
  - apply (map_Forall_impl _ _ _ (wf_table b Hwf)). intros q h Hq.
    destruct (Hfpid h) as [-> ->]. exact Hq.
  - apply (wf_free_nodup b Hwf).
  - apply (Forall_impl _ _ _ (wf_free b Hwf)). intros h Hh. rewrite Hres. destruct (Hfpid h) as [-> _]. exact Hh.
  - apply (wf_cover b Hwf).
  - apply (wf_lru_nodup b Hwf).
  - apply (Forall_impl _ _ _ (wf_lru b Hwf)). intros h Hh. destruct (Hfpid h) as [_ ->]. exact Hh.
  - apply (wf_np b Hwf).
  - apply map_Forall_insert_2; [rewrite Hid; exact Hpr|apply (wf_file b Hwf)].
Qed.

End Flush.
Section Delete.
Context (b : BufferPoolManager.t) (p : Z) (f : nat) (Hwf : bpm_wf b)
  (Hp : page_table_ b !! p = Some f) (Hz : pin_count (frame b f) <= 0).

Lemma delete_proj : pool_size_ (delete_state p f b) = pool_size_ b /\
  page_table_ (delete_state p f b) = delete p (page_table_ b) /\
  free_list_ (delete_state p f b) = free_list_ b ++ [f] /\ disk_manager_ (delete_state p f b) = disk_manager_ b /\
  length (pages_ (delete_state p f b)) = length (pages_ b) /\
  lru_list_ (delete_state p f b) = lru_erase f (lru_list_ b).
Proof.
  unfold delete_state. case_decide as Hin;
  cbn [set_lru_list set_free_list set_page_table pool_size_ page_table_ free_list_ disk_manager_ pages_ lru_list_];
  autorewrite with bpm; cbn [set_lru_list set_free_list set_page_table pool_size_ page_table_ free_list_ disk_manager_ pages_ lru_list_];
  repeat split; try reflexivity.
  rewrite lru_erase_notin by exact Hin. reflexivity.
Qed.

Lemma delete_frame h : frame (delete_state p f b) h =
  if decide (h = f) then mkPage (-1) (data (frame b f)) false 0 else frame b h.
Proof.
  destruct (wf_lookup b Hwf p f Hp) as (Hf & _).
  unfold delete_state. case_decide; autorewrite with bpm;
  (rewrite frame_update_frame; [autorewrite with bpm; reflexivity|];
   cbn [set_lru_list set_page_table pages_]; apply wf_frame_length; assumption).
Qed.

Lemma delete_state_wf : bpm_wf (delete_state p f b).
Proof.
  destruct delete_proj as (Hps & Hpt & Hfl & Hdm & Hlen & Hlru).
  pose proof (wf_lru_nodup b Hwf) as Hnd.
  destruct (wf_lookup b Hwf p f Hp) as (Hf & Hid & _ & Hpin0 & Hlf).
  assert (Hres : forall h, resident (delete_state p f b) h <-> resident b h /\ h <> f).
  { intros h. rewrite !resident_spec. setoid_rewrite Hpt. split.
    - intros [q Hq]. apply lookup_delete_Some in Hq as [Hqp Hq]. split; [eauto|].
      intros ->. apply Hqp. symmetry. exact (wf_inj b Hwf q p f Hq Hp).
    - intros [[q Hq] Hne]. exists q. apply lookup_delete_Some. split; [|exact Hq].
      intros ->. congruence. }
  assert (Hfr : forall h, h <> f -> frame (delete_state p f b) h = frame b h).
  { intros h Hh. rewrite delete_frame, decide_False by exact Hh. reflexivity. }
  assert (Hnf : f ∉ free_list_ b).
  { intros Hin. destruct (wf_free_elem b Hwf f Hin) as (_ & Hnr & _). apply Hnr, resident_spec. eauto. }
  constructor; unfold np, dfile in *; rewrite ?Hps, ?Hpt, ?Hfl, ?Hdm, ?Hlen, ?Hlru.
  - apply (wf_length b Hwf).
  - apply map_Forall_lookup_2. intros q h Hq. apply lookup_delete_Some in Hq as [Hqp Hq].
    destruct (wf_lookup b Hwf q h Hq) as (Hh & Hidq & Hqr & Hpq & Hlq).
    assert (h <> f) as Hne by (intros ->; apply Hqp; symmetry; exact (wf_inj b Hwf q p f Hq Hp)).
    rewrite Hfr by exact Hne. unfold np in *. repeat split; auto; try lia.
    intros Hz'. apply lru_erase_elem; auto.
  - apply NoDup_app. split; [apply (wf_free_nodup b Hwf)|]. split; [|apply NoDup_singleton].
    intros x Hx Hx'. apply list_elem_of_singleton in Hx' as ->. contradiction.
  - apply Forall_app. split.
    + apply (Forall_impl _ _ _ (wf_free b Hwf)). intros h (Hh & Hnr & Hidh).
      assert (h <> f) by (intros ->; apply Hnr, resident_spec; eauto).
      rewrite Hres, Hfr by assumption. split; [exact Hh|split; [tauto|exact Hidh]].
    + constructor; [|constructor]. rewrite Hres, delete_frame, decide_True by reflexivity.
      cbn. split; [exact Hf|split; [tauto|reflexivity]].
  - apply (Forall_impl _ _ _ (wf_cover b Hwf)). intros h Hh. rewrite Hres, elem_of_app, list_elem_of_singleton.
    destruct (decide (h = f)); tauto.
  - apply lru_erase_spec, Hnd.
  - apply Forall_forall. intros h Hh. apply lru_erase_elem in Hh as [Hh Hne]; [|exact Hnd].
    rewrite Hres, Hfr by exact Hne. destruct (wf_lru_elem b Hwf h Hh). auto.
  - apply (wf_np b Hwf).
  - apply (wf_file b Hwf).
Qed.

End Delete.
Lemma wf_frames_consistent b : bpm_wf b -> frames_consistent b.
Proof.
  intros Hwf f Hf. split.
  - split.
    + intros Hin. apply (wf_free_elem b Hwf f Hin).
    + intros Hnr. destruct (wf_cover_elem b Hwf f Hf); [assumption|contradiction].
  - intros Hr. split.
    + intros Hin. apply (wf_lru_elem b Hwf f Hin).
    + intros Hz. apply resident_spec in Hr as [p Hp]. apply (wf_lookup b Hwf p f Hp), Hz.
Qed.

Lemma FetchPage_wf b p : bpm_wf b -> (page_table_ b !! p <> None \/ 0 <= p < np b) ->
  wp (FetchPage p) (fun _ b' => bpm_wf b') b.
Proof.
  intros Hwf Hr. destruct (page_table_ b !! p) as [f|] eqn:Hp.
  - unfold wp. rewrite (FetchPage_hit p f b Hp). exact (hit_state_wf b p f Hwf Hp).
  - destruct Hr as [Hr|Hr]; [congruence|].
    apply FetchPage_miss_wp; auto.
    intros g b1 Hv Hg Hp0. apply install_wf.
    + exact (victim_detached b g b1 Hwf Hv).
    + destruct Hv; cbn; [exact Hp|]. apply lookup_delete_None. right. exact Hp.
    + destruct (victim_step_frame b g b1 Hv) as (_ & _ & _ & ->). exact Hr.
Qed.

Lemma NewPage_wf b : bpm_wf b -> wp NewPage (fun _ b' => bpm_wf b') b.
Proof.
  intros Hwf. apply NewPage_wp; auto.
  intros g b1 Hv Hg. pose proof (victim_detached b g b1 Hwf Hv) as Hd.
  apply install_wf.
  - apply detached_alloc, Hd.
  - cbn. destruct (page_table_ b1 !! np b1) as [f|] eqn:E; [|reflexivity].
    destruct (map_Forall_lookup_1 _ _ _ _ (dt_table b1 g Hd) E) as (_ & _ & _ & Hb & _). lia.
  - pose proof (dt_np b1 g Hd). unfold np in *. cbn. lia.
Qed.

Lemma pool_op_wf o b : bpm_wf b -> fetch_in_range b o -> wp (run_pool_op o) (fun _ b' => bpm_wf b') b.
Proof.
  intros Hwf Ho. destruct o as [p|p dirty| |p|p]; cbn [run_pool_op fetch_in_range] in *;
    apply wp_bind.
  - eapply wp_mono; [|apply FetchPage_wf; eauto]. intros ? b' H. apply wp_ret, H.
  - unfold wp at 1. rewrite UnpinPage_eq. destruct (page_table_ b !! p) as [f|] eqn:Hp; [|apply wp_ret, Hwf].
    case_decide; apply wp_ret; [exact Hwf|]. apply (unpin_state_wf b p f dirty Hwf Hp). lia.
  - eapply wp_mono; [|apply NewPage_wf; eauto]. intros ? b' H. apply wp_ret, H.
  - unfold wp at 1. destruct (page_table_ b !! p) as [f|] eqn:Hp.
    + destruct (wf_lookup b Hwf p f Hp) as (_ & Hid & Hpr & _).
      rewrite (FlushPage_eq p b f Hp) by lia. apply wp_ret, (flush_state_wf b p f Hwf Hp).
    + unfold FlushPage, bind, get. rewrite Hp. apply wp_ret, Hwf.
  - unfold wp at 1. rewrite DeletePage_eq. destruct (page_table_ b !! p) as [f|] eqn:Hp; [|apply wp_ret, Hwf].
    case_decide; apply wp_ret; [exact Hwf|]. apply (delete_state_wf b p f Hwf Hp).
Qed.

(** A pool operation that does not fetch an unallocated page keeps the pool
    well formed, hence the two frame invariants. *)
Theorem pool_invariants o b u b' :
  bpm_wf b -> fetch_in_range b o -> run_pool_op o b = Ok u b' ->
  bpm_wf b' /\ frames_consistent b'.
Proof.
  intros Hwf Ho Hrun. assert (bpm_wf b') as Hwf'.
  { exact (wp_run _ _ _ _ _ (pool_op_wf o b Hwf Ho) Hrun). }
  split; [exact Hwf'|apply wf_frames_consistent, Hwf'].
Qed.

End PoolProofs.

(* ================================================================== *)
(** ** The pool under the pins of a running tree procedure *)

Module PinInv.

Import BufferPoolManager Wp PoolInv PoolProofs.
Local Open Scope Z_scope.
#[local] Hint Rewrite frame_set_free_list frame_set_lru_list frame_set_page_table frame_set_disk_manager
  pool_size_update_frame disk_manager_update_frame page_table_update_frame free_list_update_frame
  lru_list_update_frame length_update_frame set_disk_manager_same update_frame_set_disk_manager
  np_update_frame dfile_update_frame : bpm.
#[local] Hint Rewrite pool_size_install np_install dfile_install free_list_install lru_list_install
  page_table_install length_install : bpm.

(** The number of times [p] occurs in [P]. *)
Fixpoint occ (P : list Z) (p : Z) : Z :=
  match P with
  | [] => 0
  | q :: P' => (if decide (q = p) then 1 else 0) + occ P' p
  end.

(** The pin counts are those of the pages in [P] (with repetition): the
    pages fetched and not yet unpinned by the running tree procedure. *)
Definition pins_are (b : BufferPoolManager.t) (P : list Z) : Prop :=
  forall p, pin_of b p = occ P p.

(** A resident page whose frame is clean holds the bytes of the file; in
    the middle of an update ([strict = false]) only the unpinned ones do. *)
Definition clean_ok (strict : bool) (b : BufferPoolManager.t) : Prop :=
  forall p f, page_table_ b !! p = Some f -> is_dirty (frame b f) = false ->
    (strict = true \/ pin_count (frame b f) = 0) ->
    data (frame b f) = DiskManager.file_page (dfile b) p.

(** Every allocated page is in the file or resident and dirty (or, in the
    middle of an update, pinned). *)
Definition alloc_ok (strict : bool) (b : BufferPoolManager.t) : Prop :=
  forall q, 0 <= q < np b -> is_Some (dfile b !! q) \/
    exists f, page_table_ b !! q = Some f /\
      (is_dirty (frame b f) = true \/ (strict = false /\ 0 < pin_count (frame b f))).

(** The page ids stored in a page are below [n]. *)
Definition refs_below (n : Z) (d : PageData) : Prop :=
  next_page_id d < n /\ parent_page_id d < n /\ Forall (fun c => c < n) (children d).

(** Every page id stored in a page names an allocated page (page 0 when
    nothing was allocated yet), or is negative. *)
Definition refs_ok (b : BufferPoolManager.t) : Prop :=
  forall q, refs_below (Z.max (np b) 1) (Observe.view_page b q).

Record pool_ok (strict : bool) (b : BufferPoolManager.t) (P : list Z) : Prop := {
  po_wf : bpm_wf b;
  po_pins : pins_are b P;
  po_clean : clean_ok strict b;
  po_alloc : alloc_ok strict b;
  po_refs : refs_ok b
}.

(** Frame [f] holds page [p]. *)
Definition holds (b : BufferPoolManager.t) (f : nat) (p : Z) : Prop := page_table_ b !! p = Some f.

(** The pages of [P] stay in their frames. *)
Definition stable (b b' : BufferPoolManager.t) (P : list Z) : Prop :=
  forall q f, q ∈ P -> holds b f q -> holds b' f q.

Lemma occ_pos P p : 0 <= occ P p.
Proof. induction P as [|q P IH]; simpl; [lia|case_decide; lia]. Qed.

Lemma occ_elem P p : 0 < occ P p <-> p ∈ P.
Proof.
  induction P as [|q P IH]; simpl.
  - split; [lia|intros H; inversion H].
  - rewrite elem_of_cons. pose proof (occ_pos P p). case_decide; subst; split; intros; try lia; auto.
    + right. apply IH. lia.
    + destruct H1; [congruence|]. apply IH in H1. lia.
Qed.

Lemma pin_of_holds b f p : holds b f p -> pin_of b p = pin_count (frame b f).
Proof. unfold pin_of, holds. intros ->. reflexivity. Qed.

Lemma view_holds b f p : holds b f p -> Observe.view_page b p = data (frame b f).
Proof. unfold Observe.view_page, holds. intros ->. reflexivity. Qed.

Lemma view_free b p : page_table_ b !! p = None -> Observe.view_page b p = DiskManager.file_page (dfile b) p.
Proof. unfold Observe.view_page. intros ->. reflexivity. Qed.

Lemma pinned_holds b P p : bpm_wf b -> pins_are b P -> p ∈ P ->
  exists f, holds b f p /\ 0 < pin_count (frame b f) /\ 0 <= p < np b.
Proof.
  intros Hwf Hp Hin. apply occ_elem in Hin. rewrite <- Hp in Hin. unfold pin_of in Hin.
  destruct (page_table_ b !! p) as [f|] eqn:E; [|lia].
  exists f. split; [exact E|]. split; [exact Hin|]. apply (wf_lookup b Hwf p f E).
Qed.

Lemma refs_below_mono n n' d : n <= n' -> refs_below n d -> refs_below n' d.
Proof.
  intros Hn (H1 & H2 & H3). split; [lia|split; [lia|]].
  apply (Forall_impl _ _ _ H3). intros; lia.
Qed.

(** What the choice of a victim [g] does, seen page by page. *)
Section Victim.
Context (s : bool) (b : BufferPoolManager.t) (P : list Z) (g : nat) (b1 : BufferPoolManager.t).
Context (Hok : pool_ok s b P) (Hv : victim_step b g b1).

Lemma victim_table q : page_table_ b1 !! q =
  match page_table_ b !! q with Some h => if decide (h = g) then None else Some h | None => None end.
Proof.
  pose proof (po_wf _ _ _ Hok) as Hwf. destruct Hv as [g' rest Ef | l g' Ef El].
  - cbn. destruct (page_table_ b !! q) as [h|] eqn:E; [|reflexivity].
    case_decide; [subst|reflexivity]. exfalso.
    assert (g' ∈ free_list_ b) as Hg by (rewrite Ef; left).
    destruct (wf_free_elem b Hwf g' Hg) as (_ & Hnr & _). apply Hnr, resident_spec. eauto.
  - cbn. destruct (page_table_ b !! q) as [h|] eqn:E.
    + destruct (wf_lookup b Hwf q h E) as (_ & Hid & _).
      case_decide; subst.
      * apply lookup_delete_eq.
      * rewrite lookup_delete_ne; [exact E|]. intros Heq.
        assert (g' ∈ lru_list_ b) as Hg by (rewrite El; set_solver).
        destruct (wf_lru_elem b Hwf g' Hg) as [Hr _]. apply resident_spec in Hr as [q' Hq'].
        destruct (wf_lookup b Hwf q' g' Hq') as (_ & Hid' & _).
        rewrite Heq, Hid' in *. congruence.
    + rewrite lookup_delete_None. right. exact E.
Qed.

Lemma victim_unpinned q : page_table_ b !! q = Some g -> pin_count (frame b g) = 0.
Proof.
  pose proof (po_wf _ _ _ Hok) as Hwf. intros Hq. destruct Hv as [g' rest Ef | l g' Ef El].
  - exfalso. assert (g' ∈ free_list_ b) as Hg by (rewrite Ef; left).
    destruct (wf_free_elem b Hwf g' Hg) as (_ & Hnr & _). apply Hnr, resident_spec. eauto.
  - assert (g' ∈ lru_list_ b) as Hg by (rewrite El; set_solver).
    apply (wf_lru_elem b Hwf g' Hg).
Qed.

Lemma victim_file_other q : page_table_ b !! q <> Some g -> dfile b1 !! q = dfile b !! q.
Proof.
  pose proof (po_wf _ _ _ Hok) as Hwf. intros Hq. destruct Hv as [g' rest Ef | l g' Ef El]; [reflexivity|].
  unfold evicted_disk. cbn. destruct (is_dirty (frame b g')); [|reflexivity]. unfold dfile; cbn.
  apply lookup_insert_ne. intros Heq.
  assert (g' ∈ lru_list_ b) as Hg by (rewrite El; set_solver).
  destruct (wf_lru_elem b Hwf g' Hg) as [Hr _]. apply resident_spec in Hr as [q' Hq'].
  destruct (wf_lookup b Hwf q' g' Hq') as (_ & Hid' & _). subst. congruence.
Qed.

Lemma victim_file_victim q : page_table_ b !! q = Some g ->
  dfile b1 !! q = Some (data (frame b g)).
Proof.
  pose proof (po_wf _ _ _ Hok) as Hwf. intros Hq. pose proof (victim_unpinned q Hq) as Hpin.
  destruct Hv as [g' rest Ef | l g' Ef El].
  - exfalso. assert (g' ∈ free_list_ b) as Hg by (rewrite Ef; left).
    destruct (wf_free_elem b Hwf g' Hg) as (_ & Hnr & _). apply Hnr, resident_spec. eauto.
  - destruct (wf_lookup b Hwf q g' Hq) as (_ & Hid & Hqr & _).
    unfold evicted_disk. cbn. destruct (is_dirty (frame b g')) eqn:Hd; unfold dfile; cbn.
    + rewrite Hid. apply lookup_insert_eq.
    + pose proof (po_clean _ _ _ Hok q g' Hq Hd (or_intror Hpin)) as Hc.
      destruct (po_alloc _ _ _ Hok q Hqr) as [[d Hf]|(f' & Hf' & Hdf)].
      * change (dfile b !! q = Some (data (frame b g'))).
        unfold DiskManager.file_page in Hc. rewrite Hf in Hc |- *. congruence.
      * rewrite Hq in Hf'. injection Hf' as <-. destruct Hdf as [Hdf|[_ Hdf]]; [congruence|lia].
Qed.


Section Install.
Context (p : Z) (d : PageData) (b2 : BufferPoolManager.t) (n : Z).
Context (Hp : page_table_ b !! p = None) (Hpn : 0 <= p < n)
        (Hn : n = np b \/ (n = np b + 1 /\ p = np b))
        (Hfile : s = true -> is_Some (dfile b !! p))
        (Hdt : detached b2 g) (Hfr : frame b2 = frame b1) (Hpt : page_table_ b2 = page_table_ b1)
        (Hdf : dfile b2 = dfile b1) (Hnp : np b2 = n)
        (Hd : d = DiskManager.file_page (dfile b1) p).

Let b' := install p d g b2.

Lemma inst_frame h : frame b' h = if decide (h = g) then mkPage p d false 1 else frame b h.
Proof.
  unfold b'. rewrite frame_install by exact (detached_frame_length b2 g Hdt).
  case_decide; [reflexivity|]. rewrite Hfr. destruct (victim_step_frame b g b1 Hv) as [-> _]. reflexivity.
Qed.

Lemma inst_table q : page_table_ b' !! q =
  if decide (q = p) then Some g
  else match page_table_ b !! q with Some h => if decide (h = g) then None else Some h | None => None end.
Proof.
  unfold b'. rewrite page_table_install, Hpt. case_decide as Hq.
  - subst. apply lookup_insert_eq.
  - rewrite lookup_insert_ne by congruence. apply victim_table.
Qed.

Lemma inst_file q : page_table_ b !! q <> Some g -> dfile b' !! q = dfile b !! q.
Proof. intros Hq. unfold b'. rewrite dfile_install, Hdf. apply victim_file_other, Hq. Qed.

Lemma inst_view q : Observe.view_page b' q = Observe.view_page b q.
Proof.
  unfold Observe.view_page. rewrite inst_table. fold (dfile b').
  case_decide as Hq.
  - subst q. rewrite inst_frame, decide_True by reflexivity. cbn. rewrite Hp, Hd.
    unfold DiskManager.file_page. fold (dfile b). rewrite <- (victim_file_other p) by congruence. reflexivity.
  - destruct (page_table_ b !! q) as [h|] eqn:Eq.
    + case_decide as Hh.
      * subst h. unfold b'. rewrite dfile_install, Hdf. unfold DiskManager.file_page.
        rewrite (victim_file_victim q Eq). reflexivity.
      * rewrite inst_frame, decide_False by exact Hh. reflexivity.
    + unfold DiskManager.file_page. rewrite inst_file by congruence. reflexivity.
Qed.

Lemma inst_pool_ok : pool_ok s b' (p :: P).
Proof.
  pose proof (po_wf _ _ _ Hok) as Hwf.
  assert (np b' = n) as Hnp'. { unfold b'. rewrite np_install. exact Hnp. }
  constructor.
  - apply install_wf; [exact Hdt| |lia]. rewrite Hpt, victim_table, Hp. reflexivity.
  - intros q. unfold pin_of. rewrite inst_table. simpl occ.
    pose proof (po_pins _ _ _ Hok q) as Hq. unfold pin_of in Hq.
    case_decide as Hqp.
    + subst q. rewrite inst_frame, !decide_True by reflexivity. rewrite Hp in Hq. cbn. lia.
    + rewrite decide_False by congruence. destruct (page_table_ b !! q) as [h|] eqn:Eq.
      * case_decide as Hh.
        -- subst h. rewrite (victim_unpinned q Eq) in Hq. lia.
        -- rewrite inst_frame, decide_False by exact Hh. lia.
      * lia.
  - intros q f Hq Hcl Hpin. fold b' in Hq, Hcl, Hpin |- *.
    rewrite inst_table in Hq. case_decide as Hqp.
    + subst q. injection Hq as <-. rewrite inst_frame, decide_True by reflexivity. cbn.
      unfold b'. rewrite dfile_install, Hdf. exact Hd.
    + destruct (page_table_ b !! q) as [h|] eqn:Eq; [|discriminate].
      case_decide as Hh; [discriminate|]. injection Hq as <-.
      rewrite inst_frame, decide_False in Hcl, Hpin |- * by exact Hh.
      rewrite (po_clean _ _ _ Hok q h Eq Hcl Hpin). unfold DiskManager.file_page.
      rewrite inst_file by congruence. reflexivity.
  - intros q Hq. fold b' in Hq |- *. rewrite Hnp' in Hq.
    destruct (decide (q = p)) as [->|Hqp].
    + destruct (decide (s = true)) as [Es|Es].
      * left. rewrite inst_file by congruence. apply Hfile, Es.
      * right. exists g. rewrite inst_table, decide_True by reflexivity. split; [reflexivity|].
        rewrite inst_frame, decide_True by reflexivity. cbn. right. split; [apply not_true_is_false, Es|lia].
    + assert (0 <= q < np b) as Hqb by lia.
      destruct (page_table_ b !! q) as [h|] eqn:Eq.
      * destruct (decide (h = g)) as [->|Hh].
        -- left. unfold b'. rewrite dfile_install, Hdf, (victim_file_victim q Eq). eexists; reflexivity.
        -- destruct (po_alloc _ _ _ Hok q Hqb) as [Hf|(f & Hf & Hdirty)].
           ++ left. rewrite inst_file by congruence. exact Hf.
           ++ right. exists f. rewrite Eq in Hf. injection Hf as <-.
              rewrite inst_table, decide_False, Eq, decide_False by assumption. split; [reflexivity|].
              rewrite inst_frame, decide_False by exact Hh. exact Hdirty.
      * destruct (po_alloc _ _ _ Hok q Hqb) as [Hf|(f & Hf & _)]; [|congruence].
        left. rewrite inst_file by congruence. exact Hf.
  - intros q. fold b'. rewrite inst_view. unfold b'. rewrite np_install, Hnp.
    apply (refs_below_mono (Z.max (np b) 1)); [lia|]. apply (po_refs _ _ _ Hok).
Qed.

Lemma inst_stable : stable b b' P.
Proof.
  intros q f Hq Hh. unfold holds in *. rewrite inst_table.
  pose proof (po_wf _ _ _ Hok) as Hwf.
  destruct (pinned_holds b P q Hwf (po_pins _ _ _ Hok) Hq) as (f' & Hf' & Hpin & _).
  unfold holds in Hf'. rewrite Hh in Hf'. injection Hf' as <-.
  rewrite decide_False by congruence. rewrite Hh.
  rewrite decide_False; [reflexivity|]. intros ->. rewrite (victim_unpinned q Hh) in Hpin. lia.
Qed.

Lemma inst_holds : holds b' g p.
Proof. unfold holds. rewrite inst_table, decide_True by reflexivity. reflexivity. Qed.

End Install.
End Victim.

Lemma views_eq b b' : page_table_ b' = page_table_ b -> dfile b' = dfile b ->
  (forall h, data (frame b' h) = data (frame b h)) ->
  forall q, Observe.view_page b' q = Observe.view_page b q.
Proof.
  intros Hpt Hdf Hfr q. unfold Observe.view_page. rewrite Hpt.
  destruct (page_table_ b !! q); [apply Hfr|]. fold (dfile b') (dfile b). rewrite Hdf. reflexivity.
Qed.

Lemma pool_ok_weaken s b P : pool_ok s b P -> pool_ok false b P.
Proof.
  intros [Hwf Hp Hc Ha Hr]. constructor; auto.
  - intros q f Hq Hd [Hs|Hs]; [discriminate|]. apply (Hc q f Hq Hd). destruct s; auto.
  - intros q Hq. destruct (Ha q Hq) as [?|(f & Hf & Hd)]; [left; auto|right; exists f; split; auto].
    destruct Hd as [?|[Hs ?]]; [left; auto|]. destruct s; [|right; auto]. left.
    destruct (is_dirty (frame b f)) eqn:E; [reflexivity|]. exfalso. subst. discriminate.
Qed.

Lemma pool_ok_strict b : pool_ok false b [] -> pool_ok true b [].
Proof.
  intros [Hwf Hp Hc Ha Hr].
  assert (forall q f, page_table_ b !! q = Some f -> pin_count (frame b f) = 0) as Hz.
  { intros q f Hq. specialize (Hp q). unfold pin_of in Hp. rewrite Hq in Hp. exact Hp. }
  constructor; auto.
  - intros q f Hq Hd _. apply (Hc q f Hq Hd). right. apply (Hz q f Hq).
  - intros q Hq. destruct (Ha q Hq) as [?|(f & Hf & Hd)]; [left; auto|right; exists f; split; auto].
    destruct Hd as [?|[_ Hd]]; [left; auto|]. rewrite (Hz q f Hf) in Hd. lia.
Qed.

(** What [FetchPage(p)] does for the tree: a null pointer and no change,
    or page [p] pinned once more in a frame, with every page's contents
    and the pinned pages' frames unchanged. *)
Definition fetch_post (s : bool) (b : BufferPoolManager.t) (P : list Z) (p : Z)
    (r : option nat) (b' : BufferPoolManager.t) : Prop :=
  match r with
  | None => b' = b /\ free_list_ b = [] /\ lru_list_ b = []
  | Some f => pool_ok s b' (p :: P) /\ (forall q, Observe.view_page b' q = Observe.view_page b q) /\
              stable b b' P /\ holds b' f p /\ np b' = np b
  end.

Lemma FetchPage_ok s b P p : pool_ok s b P -> p < np b -> wp (FetchPage p) (fetch_post s b P p) b.
Proof.
  intros Hok Hpn. pose proof (po_wf _ _ _ Hok) as Hwf.
  destruct (page_table_ b !! p) as [f|] eqn:Hp.
  - unfold wp. rewrite (FetchPage_hit p f b Hp). cbn [fetch_post].
    destruct (hit_proj b f) as (Hps & Hpt & Hfl & Hdm & Hlen).
    assert (forall h, data (frame (hit_state f b) h) = data (frame b h)) as Hdat.
    { intros h. rewrite (hit_frame b p f Hwf Hp). case_decide; subst; reflexivity. }
    assert (dfile (hit_state f b) = dfile b) as Hdf by (unfold dfile; rewrite Hdm; reflexivity).
    pose proof (views_eq _ _ Hpt Hdf Hdat) as Hview.
    split; [|split; [exact Hview|split; [|split]]].
    + constructor.
      * exact (hit_state_wf b p f Hwf Hp).
      * intros q. unfold pin_of. rewrite Hpt. simpl occ. pose proof (po_pins _ _ _ Hok q) as Hq.
        unfold pin_of in Hq. destruct (page_table_ b !! q) as [h|] eqn:Eq.
        -- rewrite (hit_frame b p f Hwf Hp). case_decide as Hh.
           ++ subst h. pose proof (wf_inj b Hwf q p f Eq Hp); subst q. rewrite decide_True by reflexivity. cbn. lia.
           ++ rewrite decide_False; [lia|]. intros ->. congruence.
        -- rewrite decide_False; [lia|]. intros ->. congruence.
      * intros q h Hq Hd Hpin. rewrite Hpt in Hq. rewrite Hdf, Hdat.
        rewrite (hit_frame b p f Hwf Hp) in Hd, Hpin.
        pose proof (wf_lookup b Hwf q h Hq) as (_ & _ & _ & Hnn & _).
        apply (po_clean _ _ _ Hok q h Hq); case_decide; subst; cbn in *; auto.
        destruct Hpin as [?|Hpin]; [left; auto|]. lia.
      * intros q Hq. unfold np in Hq. rewrite Hdm in Hq. fold (np b) in Hq.
        destruct (po_alloc _ _ _ Hok q Hq) as [Hf|(h & Hh & Hd)]; [left; rewrite Hdf; exact Hf|].
        right. exists h. rewrite Hpt. split; [exact Hh|]. rewrite (hit_frame b p f Hwf Hp).
        pose proof (wf_lookup b Hwf q h Hh) as (_ & _ & _ & ? & _).
        case_decide; subst; cbn; [|exact Hd]. destruct Hd as [?|[? ?]]; [left|right; split]; auto; lia.
      * intros q. rewrite Hview. unfold np. rewrite Hdm. apply (po_refs _ _ _ Hok).
    + intros q h _ Hq. unfold holds in *. rewrite Hpt. exact Hq.
    + unfold holds. rewrite Hpt. exact Hp.
    + unfold np. rewrite Hdm. reflexivity.
  - apply (FetchPage_miss_wp p b _ Hwf Hp).
    + intros Ef El. split; [reflexivity|split; assumption].
    + intros g b1 Hv Hg Hp0. cbn [fetch_post].
      destruct (victim_step_frame b g b1 Hv) as (Hfr & _ & _ & Hnp1).
      pose proof (victim_detached b g b1 Hwf Hv) as Hdt.
      assert (Hn : np b = np b \/ (np b = np b + 1 /\ p = np b)) by (left; reflexivity).
      assert (Hfile : s = true -> is_Some (dfile b !! p)).
      { intros Hs. destruct (po_alloc _ _ _ Hok p ltac:(lia)) as [Hf|(h & Hh & _)]; [exact Hf|congruence]. }
      split; [|split; [|split; [|split]]].
      * eapply inst_pool_ok with (b2 := b1) (n := np b); eauto; reflexivity || lia.
      * eapply inst_view with (b2 := b1) (n := np b); eauto; reflexivity || lia.
      * eapply inst_stable with (b2 := b1); eauto; reflexivity || lia.
      * eapply inst_holds with (b2 := b1); eauto; reflexivity || lia.
      * rewrite np_install. exact Hnp1.
Qed.

(** What [NewPage] does for the tree: a null pointer and no change, or
    page [np b] allocated and pinned in a frame. *)
Definition new_post (b : BufferPoolManager.t) (P : list Z) (r : option (nat * Z))
    (b' : BufferPoolManager.t) : Prop :=
  match r with
  | None => b' = b
  | Some (f, id) => id = np b /\ np b' = np b + 1 /\ pool_ok false b' (id :: P) /\
                    (forall q, Observe.view_page b' q = Observe.view_page b q) /\
                    stable b b' P /\ holds b' f id
  end.

Lemma NewPage_ok b P : pool_ok false b P -> wp NewPage (new_post b P) b.
Proof.
  intros Hok. pose proof (po_wf _ _ _ Hok) as Hwf.
  apply (NewPage_wp b _ Hwf); [intros _ _; reflexivity|].
  intros g b1 Hv Hg. cbn [new_post].
  destruct (victim_step_frame b g b1 Hv) as (Hfr & _ & _ & Hnp1).
  pose proof (victim_detached b g b1 Hwf Hv) as Hdt.
  pose proof (detached_alloc b1 g Hdt) as Hdt2.
  assert (Hp : page_table_ b !! np b = None) by exact (wf_np_free b Hwf).
  assert (Hz : zero_page = DiskManager.file_page (dfile b1) (np b1)).
  { unfold DiskManager.file_page. destruct (dfile b1 !! np b1) eqn:E; [|reflexivity].
    pose proof (map_Forall_lookup_1 _ _ _ _ (dt_file b1 g Hdt) E) as H; cbv beta in H; lia. }
  rewrite Hnp1 in Hz, Hdt2 |- *.
  assert (Hfile : false = true -> is_Some (dfile b !! np b)) by discriminate.
  assert (Hn : np b + 1 = np b \/ (np b + 1 = np b + 1 /\ np b = np b)) by (right; split; reflexivity).
  pose proof (wf_np b Hwf).
  split; [reflexivity|split; [|split; [|split; [|split]]]].
  - unfold np at 1. reflexivity.
  - eapply inst_pool_ok with (n := np b + 1); eauto; try reflexivity; try lia.
  - eapply inst_view with (n := np b + 1); eauto; try reflexivity; try lia.
  - eapply inst_stable with (n := np b + 1); eauto; try reflexivity; try lia.
  - eapply inst_holds with (n := np b + 1); eauto; try reflexivity; try lia.
Qed.

Lemma UnpinPage_ok s b P p dirty : pool_ok s b (p :: P) -> (s = false -> dirty = true) ->
  wp (UnpinPage p dirty) (fun r b' => r = true /\ pool_ok s b' P /\
       (forall q, Observe.view_page b' q = Observe.view_page b q) /\
       page_table_ b' = page_table_ b /\ np b' = np b) b.
Proof.
  intros Hok Hs. pose proof (po_wf _ _ _ Hok) as Hwf.
  destruct (pinned_holds b (p :: P) p Hwf (po_pins _ _ _ Hok) ltac:(left)) as (f & Hp & Hpos & _).
  unfold holds in Hp. unfold wp. rewrite UnpinPage_eq, Hp, decide_False by lia.
  destruct (unpin_proj b f dirty) as (Hps & Hpt & Hfl & Hdm & Hlen & _).
  assert (forall h, data (frame (unpin_state f dirty b) h) = data (frame b h)) as Hdat.
  { intros h. rewrite (unpin_frame b p f dirty Hwf Hp). case_decide; subst; reflexivity. }
  assert (dfile (unpin_state f dirty b) = dfile b) as Hdf by (unfold dfile; rewrite Hdm; reflexivity).
  pose proof (views_eq _ _ Hpt Hdf Hdat) as Hview.
  assert (np (unpin_state f dirty b) = np b) as Hnp by (unfold np; rewrite Hdm; reflexivity).
  split; [reflexivity|split; [|split; [exact Hview|split; [exact Hpt|exact Hnp]]]].
  constructor.
  - exact (unpin_state_wf b p f dirty Hwf Hp Hpos).
  - intros q. unfold pin_of. rewrite Hpt. pose proof (po_pins _ _ _ Hok q) as Hq.
    unfold pin_of in Hq. simpl occ in Hq. destruct (page_table_ b !! q) as [h|] eqn:Eq.
    + rewrite (unpin_frame b p f dirty Hwf Hp). destruct (decide (h = f)) as [->|Hh].
      * pose proof (wf_inj b Hwf q p f Eq Hp); subst q. rewrite decide_True in Hq by reflexivity. cbn. lia.
      * rewrite decide_False in Hq; [lia|]. intros ->. congruence.
    + rewrite decide_False in Hq; [lia|]. intros ->. congruence.
  - intros q h Hq Hd Hpin. rewrite Hpt in Hq. rewrite Hdf, Hdat.
    rewrite (unpin_frame b p f dirty Hwf Hp) in Hd, Hpin.
    apply (po_clean _ _ _ Hok q h Hq); destruct (decide (h = f)); subst; cbn in *; auto.
    + apply orb_false_iff in Hd as [Hd1 Hd2]. exact Hd1.
    + apply orb_false_iff in Hd as [_ Hd2]. left. destruct s; [reflexivity|]. rewrite Hs in Hd2 by reflexivity. discriminate.
  - intros q Hq. rewrite Hnp in Hq.
    destruct (po_alloc _ _ _ Hok q Hq) as [Hf|(h & Hh & Hd)]; [left; rewrite Hdf; exact Hf|].
    right. exists h. rewrite Hpt. split; [exact Hh|]. rewrite (unpin_frame b p f dirty Hwf Hp).
    destruct (decide (h = f)); subst; cbn; [|exact Hd]. left. apply orb_true_iff.
    destruct Hd as [Hd|[Hs' _]]; [left; exact Hd|right; apply Hs, Hs'].
  - intros q. rewrite Hview, Hnp. apply (po_refs _ _ _ Hok).
Qed.

Lemma FetchPage_total b p : bpm_wf b -> 0 <= p -> exists r b', FetchPage p b = Ok r b'.
Proof.
  intros Hwf Hp. unfold FetchPage, bind, get.
  destruct (page_table_ b !! p) as [f|] eqn:E; [eexists _, _; reflexivity|].
  rewrite (wf_FindVictimPage b Hwf).
  assert (forall g b1, (g < pool_size_ b1)%nat -> page_id (frame b1 g) = -1 \/ 0 <= page_id (frame b1 g) ->
            exists r b', (let* _ := evict_victim g in
              let* _ := modify (update_frame g (fun pg => mkPage p (data pg) false 1)) in
              let* d := disk (DiskManager.ReadPage p) in
              let* _ := modify (update_frame g (set_data d)) in
              let* _ := modify (fun b => set_page_table (<[p := g]> (page_table_ b)) b) in
              ret (Some g)) b1 = Ok r b') as Hk.
  { intros g b1 _ Hid. unfold evict_victim, bind, get, modify, ret, disk, zoom, DiskManager.ReadPage,
      DiskManager.WritePage.
    destruct (decide (page_id (frame b1 g) <> -1)); [destruct (is_dirty (frame b1 g))|];
      cbn -[frame update_frame]; rewrite ?decide_False by lia; eexists _, _; reflexivity. }
  destruct (free_list_ b) as [|g rest] eqn:Ef.
  - destruct (rev (lru_list_ b)) as [|g rest] eqn:El.
    + cbn. rewrite decide_True by reflexivity. eexists _, _; reflexivity.
    + assert (g ∈ lru_list_ b) as Hg.
      { apply list_elem_of_In, in_rev. rewrite El. left. reflexivity. }
      destruct (wf_lru_elem b Hwf g Hg) as [Hres _]. apply resident_spec in Hres as [q Hq].
      destruct (wf_lookup b Hwf q g Hq) as (Hlt & Hid & Hqr & _).
      cbn [pool_size_ set_lru_list]. rewrite decide_False by lia.
      apply (Hk g (set_lru_list (rev rest) b)); cbn; [exact Hlt|]. right. unfold frame in *. cbn. lia.
  - assert (g ∈ free_list_ b) as Hg by (rewrite Ef; left).
    destruct (wf_free_elem b Hwf g Hg) as (Hlt & _ & Hid).
    cbn [pool_size_ set_free_list]. rewrite decide_False by lia.
    apply (Hk g (set_free_list rest b)); cbn; [exact Hlt|]. left. exact Hid.
Qed.

Lemma quiescent_victim s b : pool_ok s b [] -> (0 < pool_size_ b)%nat ->
  free_list_ b = [] -> lru_list_ b = [] -> False.
Proof.
  intros Hok Hps Ef El. pose proof (po_wf _ _ _ Hok) as Hwf.
  destruct (wf_cover_elem b Hwf 0%nat Hps) as [Hf|Hr]; [rewrite Ef in Hf; inversion Hf|].
  apply resident_spec in Hr as [q Hq].
  destruct (wf_lookup b Hwf q 0%nat Hq) as (_ & _ & _ & _ & Hl).
  pose proof (po_pins _ _ _ Hok q) as Hp. unfold pin_of in Hp. rewrite Hq in Hp.
  specialize (Hl Hp). rewrite El in Hl. inversion Hl.
Qed.

Lemma holds_pool b f p : bpm_wf b -> holds b f p -> (0 < pool_size_ b)%nat /\ 0 <= p < np b.
Proof. intros Hwf Hh. destruct (wf_lookup b Hwf p f Hh) as (? & _ & ? & _). split; [lia|auto]. Qed.

End PinInv.

(* ================================================================== *)
(** ** The tree procedures over the pool invariant *)

Module TreeProofs.

Import BufferPoolManager BPlusTree Wp PoolInv PoolProofs PinInv.
Local Open Scope Z_scope.

(** [wpe m E Q s]: if [m] run on [s] returns, its result and final state
    satisfy [Q]; if it raises, [E] holds. *)
Definition wpe {S A} (m : M S A) (E : Prop) (Q : A -> S -> Prop) (s : S) : Prop :=
  match m s with Ok a s' => Q a s' | Err _ => E end.

Definition root_ok (tr : BPlusTree.t) : Prop :=
  root_page_id_ tr = INVALID_PAGE_ID \/ 0 <= root_page_id_ tr < np (bpm tr).

(** The invariant of a store whose running procedure holds the pins [P]. *)
Definition tinv (strict : bool) (tr : BPlusTree.t) (P : list Z) : Prop :=
  pool_ok strict (bpm tr) P /\ root_ok tr.

Definition views (tr : BPlusTree.t) : Z -> PageData := Observe.view_page (bpm tr).

Definition same_views (tr tr' : BPlusTree.t) : Prop := forall q, views tr' q = views tr q.

(** The pool has a frame. *)
Definition nz (tr : BPlusTree.t) : bool := bool_decide (0 < pool_size_ (bpm tr))%nat.

(** What an update step keeps: the pinned pages [P] stay in their frames,
    pages are only allocated, the pool keeps its frames and a tree that
    has a root keeps one. *)
Definition wgrows (P : list Z) (tr tr' : BPlusTree.t) : Prop :=
  stable (bpm tr) (bpm tr') P /\ np (bpm tr) <= np (bpm tr') /\
  pool_size_ (bpm tr') = pool_size_ (bpm tr) /\
  (root_page_id_ tr <> INVALID_PAGE_ID -> root_page_id_ tr' <> INVALID_PAGE_ID).

(** The state after an update step that holds the pins [P]. *)
Definition wpost (tr : BPlusTree.t) (P : list Z) (tr' : BPlusTree.t) : Prop :=
  tinv false tr' P /\ wgrows P tr tr'.

(** *** The read-only procedures, as functions of the pages' contents *)

Fixpoint descend_v (V : Z -> PageData) (fuel : nat) (k p : Z) : option Z :=
  match fuel with
  | O => None
  | S n =>
      let d := V p in
      if decide (page_type d = PT_INTERNAL) then
        let c := InternalFindChild d k in
        if decide (c < 0) then None else descend_v V n k c
      else Some p
  end.

(** [None]: the procedure raises; [Some None]: no leaf. *)
Definition find_leaf_v (V : Z -> PageData) (has_frame : bool) (fuel : nat) (k root : Z)
    : option (option Z) :=
  if decide (root = INVALID_PAGE_ID) then Some None
  else if negb has_frame then Some None
  else if decide (root < 0) then None
  else option_map Some (descend_v V fuel k root).

Definition search_v (V : Z -> PageData) (has_frame : bool) (fuel : nat) (k root : Z)
    : option (option string) :=
  match find_leaf_v V has_frame fuel k root with
  | None => None
  | Some None => Some None
  | Some (Some p) => Some (leaf_lookup (V p) k)
  end.

Fixpoint scan_loop_v (V : Z -> PageData) (fuel : nat) (a b p : Z) (results : list (Z * string))
    : option (list (Z * string)) :=
  match fuel with
  | O => None
  | S n =>
      let d := V p in
      let start_idx := match results with [] => LeafFindKey d a | _ => 0 end in
      match scan_leaf (Z.to_nat (num_keys d - start_idx)) d start_idx a b results with
      | ScanReturn r => Some r
      | ScanNext r =>
          let next := next_page_id d in
          if decide (next = INVALID_PAGE_ID) then Some r
          else if decide (next < 0) then None
          else scan_loop_v V n a b next r
      end
  end.

Definition scan_v (V : Z -> PageData) (has_frame : bool) (fuel : nat) (a b root : Z)
    : option (list (Z * string)) :=
  if decide (root = INVALID_PAGE_ID) then Some []
  else match find_leaf_v V has_frame fuel a root with
       | None => None
       | Some None => Some []
       | Some (Some p) => scan_loop_v V fuel a b p []
       end.

(** A leaf holds an entry with key [k] among its [num_keys] first ones. *)
Definition leaf_has_key (d : PageData) (k : Z) : Prop :=
  exists i, 0 <= i < num_keys d /\ key (entry_at d i) = k.

(** A query of a session: [Search] or [Scan]. *)
Definition is_query (o : op) : bool :=
  match o with OpSearch _ | OpScan _ _ => true | _ => false end.


(** The invariant of a store between two operations of a session. *)
Definition sinv (ps : nat) (tr : BPlusTree.t) : Prop :=
  tinv true tr [] /\ pool_size_ (bpm tr) = ps /\
  (root_page_id_ tr = INVALID_PAGE_ID -> np (bpm tr) = 0).

(** The state and the value of a run that succeeded, [d] otherwise. *)
Definition ok_state {A} (o : outcome BPlusTree.t A) (d : BPlusTree.t) : BPlusTree.t :=
  match o with Ok _ s => s | Err _ => d end.
Definition ok_value {A} (o : outcome BPlusTree.t A) (d : A) : A :=
  match o with Ok a _ => a | Err _ => d end.

(** A small session: five inserts and a remove, on a pool of four frames. *)
Definition demo_ops : list op := Observe.inserts_upto 5 "v" ++ [OpRemove 2].
Definition demo_session : outcome BPlusTree.t (list result) := session 4 16 ∅ demo_ops.
Definition demo_store : BPlusTree.t :=
  ok_state demo_session (BPlusTree.mk (BufferPoolManager.create 0 (DiskManager.Open ∅)) INVALID_PAGE_ID).

Section WpeRules.
Context {S : Type}.

Lemma wpe_mono {A} (m : M S A) (E E' : Prop) (Q Q' : A -> S -> Prop) s :
  (E -> E') -> (forall a s', Q a s' -> Q' a s') -> wpe m E Q s -> wpe m E' Q' s.
Proof. unfold wpe. destruct (m s); auto. Qed.

Lemma wpe_bind {A B} (m : M S A) (k : A -> M S B) E Q s :
  wpe m E (fun a s' => wpe (k a) E Q s') s -> wpe (bind m k) E Q s.
Proof. unfold wpe, bind. cbv beta. destruct (m s); auto. Qed.

Lemma wpe_ret {A} (a : A) E (Q : A -> S -> Prop) s : Q a s -> wpe (ret a) E Q s.
Proof. exact id. Qed.

Lemma wpe_throw {A} e E (Q : A -> S -> Prop) s : E -> wpe (throw e) E Q s.
Proof. exact id. Qed.

Lemma wpe_wp {A} (m : M S A) E Q s : wpe m E Q s -> wp m Q s.
Proof. unfold wpe, wp. destruct (m s); auto. Qed.

Lemma wpe_run {A} (m : M S A) E Q s a s' : wpe m E Q s -> m s = Ok a s' -> Q a s'.
Proof. unfold wpe. intros H Hm. rewrite Hm in H. exact H. Qed.

Lemma wpe_run_err {A} (m : M S A) E Q s e : wpe m E Q s -> m s = Err e -> E.
Proof. unfold wpe. intros H Hm. rewrite Hm in H. exact H. Qed.

End WpeRules.

Lemma descend_v_ext V V' fuel k p : (forall q, V' q = V q) -> descend_v V' fuel k p = descend_v V fuel k p.
Proof.
  intros HV. revert p. induction fuel as [|n IH]; intros p; [reflexivity|].
  cbn [descend_v]. rewrite HV. repeat case_decide; auto.
Qed.

Lemma find_leaf_v_ext V V' h fuel k r : (forall q, V' q = V q) ->
  find_leaf_v V' h fuel k r = find_leaf_v V h fuel k r.
Proof. intros HV. unfold find_leaf_v. rewrite (descend_v_ext V V') by exact HV. reflexivity. Qed.

Lemma scan_loop_v_ext V V' fuel a b p r : (forall q, V' q = V q) ->
  scan_loop_v V' fuel a b p r = scan_loop_v V fuel a b p r.
Proof.
  intros HV. revert p r. induction fuel as [|n IH]; intros p r; [reflexivity|].
  cbn [scan_loop_v]. rewrite HV. destruct (scan_leaf _ _ _ _ _ _); [reflexivity|].
  repeat case_decide; auto.
Qed.

Lemma descend_v_leaf V fuel k p p' : descend_v V fuel k p = Some p' -> page_type (V p') <> PT_INTERNAL.
Proof.
  revert p. induction fuel as [|n IH]; intros p H; [discriminate|].
  cbn [descend_v] in H. case_decide as Ht.
  - case_decide; [discriminate|]. exact (IH _ H).
  - injection H as <-. exact Ht.
Qed.

(** The pool keeps its number of frames. *)
Lemma FindVictimPage_ps b : wp FindVictimPage (fun _ b' => pool_size_ b' = pool_size_ b) b.
Proof.
  unfold wp, FindVictimPage. destruct (free_list_ b); [|reflexivity].
  destruct (pop_back_victim _ _) as [[f|] rest]; reflexivity.
Qed.

Lemma evict_victim_ps f b : wp (evict_victim f) (fun _ b' => pool_size_ b' = pool_size_ b) b.
Proof.
  unfold evict_victim. apply wp_bind, wp_get. case_decide; [|apply wp_ret; reflexivity].
  apply wp_bind. destruct (is_dirty _).
  - apply wp_zoom. unfold wp at 1, DiskManager.WritePage. case_decide; [exact I|].
    apply wp_modify. reflexivity.
  - apply wp_ret, wp_modify. reflexivity.
Qed.

Lemma FetchPage_ps p b : wp (FetchPage p) (fun _ b' => pool_size_ b' = pool_size_ b) b.
Proof.
  unfold FetchPage. apply wp_bind, wp_get. destruct (page_table_ b !! p) as [f|].
  - apply wp_bind, wp_modify, wp_bind, wp_modify, wp_ret.
    case_decide; reflexivity.
  - apply wp_bind. eapply wp_mono; [|apply FindVictimPage_ps]. intros g b1 E1; cbv beta in E1.
    apply wp_bind, wp_get. case_decide; [apply wp_ret; exact E1|].
    apply wp_bind. eapply wp_mono; [|apply evict_victim_ps]. intros ? b2 E2; cbv beta in E2.
    apply wp_bind, wp_modify, wp_bind, wp_zoom. unfold wp at 1, DiskManager.ReadPage.
    case_decide; [exact I|]. apply wp_bind, wp_modify, wp_bind, wp_modify, wp_ret.
    unfold update_frame in *; cbn in *. congruence.
Qed.

Lemma NewPage_ps b : wp NewPage (fun _ b' => pool_size_ b' = pool_size_ b) b.
Proof.
  unfold NewPage. apply wp_bind.
  eapply wp_mono; [|apply FindVictimPage_ps]. intros g b1 E1; cbv beta in E1.
  apply wp_bind, wp_get. case_decide; [apply wp_ret; exact E1|].
  apply wp_bind. eapply wp_mono; [|apply evict_victim_ps]. intros ? b2 E2; cbv beta in E2.
  apply wp_bind, wp_zoom. unfold wp at 1, DiskManager.AllocatePage.
  apply wp_bind, wp_modify, wp_bind, wp_modify, wp_ret. unfold update_frame in *; cbn in *. congruence.
Qed.

Lemma UnpinPage_ps p dirty b : wp (UnpinPage p dirty) (fun _ b' => pool_size_ b' = pool_size_ b) b.
Proof.
  unfold wp. rewrite UnpinPage_eq. destruct (page_table_ b !! p); [|reflexivity].
  case_decide; [reflexivity|]. unfold unpin_state. case_decide; reflexivity.
Qed.

Lemma wp_and {S A} (m : M S A) Q1 Q2 s : wp m Q1 s -> wp m Q2 s -> wp m (fun a s' => Q1 a s' /\ Q2 a s') s.
Proof. unfold wp. destruct (m s); auto. Qed.

Lemma set_bpm_same tr : set_bpm (bpm tr) tr = tr.
Proof. destruct tr; reflexivity. Qed.

Section Steps.
Context {A B : Type}.

Lemma wpe_page_of f E (K : PageData -> M BPlusTree.t B) Q tr :
  wpe (K (data (frame (bpm tr) f))) E Q tr -> wpe (bind (page_of f) K) E Q tr.
Proof. exact id. Qed.

Lemma wpe_pid_of f E (K : Z -> M BPlusTree.t B) Q tr :
  wpe (K (page_id (frame (bpm tr) f))) E Q tr -> wpe (bind (pid_of f) K) E Q tr.
Proof. exact id. Qed.

Lemma wpe_get_bind E (K : BPlusTree.t -> M BPlusTree.t B) Q tr :
  wpe (K tr) E Q tr -> wpe (bind get K) E Q tr.
Proof. exact id. Qed.

Lemma wpe_deref_some (a : A) E (K : A -> M BPlusTree.t B) Q tr :
  wpe (K a) E Q tr -> wpe (bind (deref (Some a)) K) E Q tr.
Proof. exact id. Qed.

Lemma wpe_deref_none E (K : A -> M BPlusTree.t B) Q tr : E -> wpe (bind (deref None) K) E Q tr.
Proof. exact id. Qed.

Lemma wpe_modify_bind u E (K : unit -> M BPlusTree.t B) Q tr :
  wpe (K tt) E Q (u tr) -> wpe (bind (modify u) K) E Q tr.
Proof. exact id. Qed.

End Steps.

Lemma tinv_holds s tr P f p : tinv s tr P -> holds (bpm tr) f p ->
  page_id (frame (bpm tr) f) = p /\ 0 <= p < np (bpm tr) /\ (f < pool_size_ (bpm tr))%nat /\
  refs_below (np (bpm tr)) (data (frame (bpm tr) f)).
Proof.
  intros [Hok _] Hh. pose proof (po_wf _ _ _ Hok) as Hwf.
  destruct (wf_lookup _ Hwf p f Hh) as (Hf & Hid & Hp & _).
  split; [exact Hid|split; [exact Hp|split; [exact Hf|]]].
  rewrite <- (view_holds _ f p Hh). replace (np (bpm tr)) with (Z.max (np (bpm tr)) 1) by lia.
  apply (po_refs _ _ _ Hok).
Qed.

Lemma tinv_pinned s tr P p : tinv s tr P -> p ∈ P ->
  exists f, holds (bpm tr) f p /\ 0 < pin_count (frame (bpm tr) f) /\ 0 <= p < np (bpm tr).
Proof. intros [Hok _] Hp. exact (pinned_holds _ P p (po_wf _ _ _ Hok) (po_pins _ _ _ Hok) Hp). Qed.

Lemma wpe_fetch {B} s tr P p E (K : option nat -> M BPlusTree.t B) Q :
  tinv s tr P -> p < np (bpm tr) -> (p < 0 -> E) ->
  (free_list_ (bpm tr) = [] -> lru_list_ (bpm tr) = [] -> wpe (K None) E Q tr) ->
  (forall f tr', tinv s tr' (p :: P) -> same_views tr tr' -> stable (bpm tr) (bpm tr') P ->
     holds (bpm tr') f p -> np (bpm tr') = np (bpm tr) -> root_page_id_ tr' = root_page_id_ tr ->
     pool_size_ (bpm tr') = pool_size_ (bpm tr) -> wpe (K (Some f)) E Q tr') ->
  wpe (bind (pool (FetchPage p)) K) E Q tr.
Proof.
  intros [Hok Hroot] Hpn HE Hnone Hsome. apply wpe_bind. unfold wpe at 1, pool, zoom.
  destruct (FetchPage p (bpm tr)) as [r b'|e] eqn:E1.
  - pose proof (wp_run _ _ _ _ _ (wp_and _ _ _ _ (FetchPage_ok s (bpm tr) P p Hok Hpn) (FetchPage_ps p (bpm tr))) E1)
      as [Hpost Hps].
    destruct r as [f|]; cbn [fetch_post] in Hpost.
    + destruct Hpost as (Hok' & Hv & Hst & Hh & Hnp).
      apply (Hsome f (set_bpm b' tr)); cbn; auto.
      split; [exact Hok'|]. unfold root_ok in *. cbn. rewrite Hnp. exact Hroot.
    + destruct Hpost as (-> & Ef & El). rewrite set_bpm_same. apply Hnone; assumption.
  - apply HE. destruct (decide (p < 0)) as [Hn|Hn]; [exact Hn|].
    destruct (FetchPage_total (bpm tr) p (po_wf _ _ _ Hok)) as (r & b'' & E2); [lia|]. congruence.
Qed.

Lemma wpe_unpin {B} s tr P p dirty E (K : bool -> M BPlusTree.t B) Q :
  tinv s tr (p :: P) -> (s = false -> dirty = true) ->
  (forall tr', tinv s tr' P -> same_views tr tr' -> page_table_ (bpm tr') = page_table_ (bpm tr) ->
     np (bpm tr') = np (bpm tr) -> root_page_id_ tr' = root_page_id_ tr ->
     pool_size_ (bpm tr') = pool_size_ (bpm tr) -> wpe (K true) E Q tr') ->
  wpe (bind (pool (UnpinPage p dirty)) K) E Q tr.
Proof.
  intros [Hok Hroot] Hs HK. apply wpe_bind. unfold wpe at 1, pool, zoom.
  destruct (UnpinPage p dirty (bpm tr)) as [r b'|e] eqn:E1.
  - pose proof (wp_run _ _ _ _ _ (wp_and _ _ _ _ (UnpinPage_ok s (bpm tr) P p dirty Hok Hs) (UnpinPage_ps p dirty (bpm tr))) E1)
      as [(-> & Hok' & Hv & Hpt & Hnp) Hps].
    apply (HK (set_bpm b' tr)); cbn; auto.
    split; [exact Hok'|]. unfold root_ok in *. cbn. rewrite Hnp. exact Hroot.
  - rewrite UnpinPage_eq in E1. destruct (page_table_ (bpm tr) !! p); [case_decide|]; discriminate.
Qed.

Lemma arr_get_lt (l : list Z) n i : Forall (fun c => c < n) l -> 0 < n -> arr_get 0 l i < n.
Proof.
  intros Hl Hn. unfold arr_get. destruct (Nat.lt_ge_cases (Z.to_nat i) (length l)) as [Hi|Hi].
  - rewrite List.Forall_forall in Hl. apply Hl, nth_In, Hi.
  - rewrite nth_overflow by exact Hi. exact Hn.
Qed.

Lemma child_lt d n i : refs_below n d -> 0 < n -> child_at d i < n.
Proof. intros (_ & _ & Hc) Hn. apply arr_get_lt; assumption. Qed.

Definition desc_post fuel k p tr (r : option nat) tr' : Prop :=
  exists p' f', r = Some f' /\ descend_v (views tr) fuel k p = Some p' /\
    tinv true tr' [p'] /\ holds (bpm tr') f' p' /\ same_views tr tr' /\
    root_page_id_ tr' = root_page_id_ tr /\ np (bpm tr') = np (bpm tr) /\
    pool_size_ (bpm tr') = pool_size_ (bpm tr).

Lemma descend_e fuel k tr p f :
  tinv true tr [p] -> holds (bpm tr) f p ->
  wpe (descend fuel k f) (descend_v (views tr) fuel k p = None) (desc_post fuel k p tr) tr.
Proof.
  revert tr p f. induction fuel as [|n IH]; intros tr p f Hinv Hh; [reflexivity|].
  cbn [descend]. apply wpe_page_of.
  destruct (tinv_holds _ _ _ _ _ Hinv Hh) as (Hid & Hp & Hf & Hrefs).
  assert (Hv : views tr p = data (frame (bpm tr) f)) by apply (view_holds _ _ _ Hh).
  destruct (decide (page_type (data (frame (bpm tr) f)) = PT_INTERNAL)) as [Hi|Hi].
  - apply wpe_pid_of. rewrite Hid.
    apply (wpe_unpin true tr [] p false); [exact Hinv|discriminate|].
    intros tr1 Hinv1 Hv1 Hpt1 Hnp1 Hr1 Hps1.
    assert (Hc : InternalFindChild (data (frame (bpm tr) f)) k < np (bpm tr1)).
    { rewrite Hnp1. apply child_lt; [exact Hrefs|lia]. }
    apply (wpe_fetch true tr1 [] _); [exact Hinv1|exact Hc| |intros Ef El|intros f' tr2 Hinv2 Hv2 _ Hh2 Hnp2 Hr2 Hps2].
    + intros Hneg. cbn [descend_v]. rewrite Hv, decide_True by exact Hi. rewrite decide_True by exact Hneg. reflexivity.
    + exfalso. apply (quiescent_victim true (bpm tr1)); [apply Hinv1|rewrite Hps1; lia|exact Ef|exact El].
    + assert (Hnn : ~ InternalFindChild (data (frame (bpm tr) f)) k < 0).
      { intros Hneg. destruct (tinv_holds _ _ _ _ _ Hinv2 Hh2) as (_ & Hq & _). lia. }
      assert (Hstep : descend_v (views tr) (S n) k p = descend_v (views tr2) n k (InternalFindChild (data (frame (bpm tr) f)) k)).
      { cbn [descend_v]. rewrite Hv, decide_True by exact Hi. rewrite decide_False by exact Hnn.
        apply descend_v_ext. intros q. rewrite Hv2, Hv1. reflexivity. }
      eapply wpe_mono; [| |apply (IH tr2 _ f' Hinv2 Hh2)].
      * rewrite Hstep. exact id.
      * intros r tr3 (p' & f'' & -> & Hd & Hinv3 & Hh3 & Hv3 & Hr3 & Hnp3 & Hps3).
        exists p', f''. rewrite Hstep.
        refine (conj eq_refl (conj Hd (conj Hinv3 (conj Hh3 (conj _ (conj _ (conj _ _))))))); try congruence.
  - apply wpe_ret. exists p, f.
    refine (conj eq_refl (conj _ (conj Hinv (conj Hh (conj (fun _ => eq_refl) (conj eq_refl (conj eq_refl eq_refl))))))).
    cbn [descend_v]. rewrite Hv, decide_False by exact Hi. reflexivity.
Qed.

Definition rd (tr tr' : BPlusTree.t) : Prop :=
  same_views tr tr' /\ root_page_id_ tr' = root_page_id_ tr /\ np (bpm tr') = np (bpm tr) /\
  pool_size_ (bpm tr') = pool_size_ (bpm tr).

Lemma rd_refl tr : rd tr tr.
Proof. repeat split. Qed.

Lemma rd_trans tr1 tr2 tr3 : rd tr1 tr2 -> rd tr2 tr3 -> rd tr1 tr3.
Proof.
  intros (H1 & H2 & H3 & H4) (G1 & G2 & G3 & G4). refine (conj _ (conj _ (conj _ _))); try congruence.
Qed.

Lemma nz_true tr : (0 < pool_size_ (bpm tr))%nat -> nz tr = true.
Proof. intros H. unfold nz. apply bool_decide_eq_true. exact H. Qed.

Lemma nz_false s tr : tinv s tr [] -> free_list_ (bpm tr) = [] -> lru_list_ (bpm tr) = [] -> nz tr = false.
Proof.
  intros Hinv Ef El. unfold nz. apply bool_decide_eq_false. intros Hp.
  exact (quiescent_victim s (bpm tr) (proj1 Hinv) Hp Ef El).
Qed.

Definition fl_post fuel k tr (r : option nat) tr' : Prop :=
  rd tr tr' /\
  match r with
  | None => find_leaf_v (views tr) (nz tr) fuel k (root_page_id_ tr) = Some None /\ tinv true tr' []
  | Some f => exists p, find_leaf_v (views tr) (nz tr) fuel k (root_page_id_ tr) = Some (Some p) /\
               tinv true tr' [p] /\ holds (bpm tr') f p
  end.

Lemma FindLeafPage_e fuel k tr : tinv true tr [] ->
  wpe (FindLeafPage fuel k) (find_leaf_v (views tr) (nz tr) fuel k (root_page_id_ tr) = None)
    (fl_post fuel k tr) tr.
Proof.
  intros Hinv. unfold FindLeafPage. apply wpe_get_bind.
  destruct (decide (root_page_id_ tr = INVALID_PAGE_ID)) as [Hr|Hr].
  - apply wpe_ret. split; [apply rd_refl|]. unfold find_leaf_v. rewrite decide_True by exact Hr.
    split; [reflexivity|exact Hinv].
  - assert (Hroot : 0 <= root_page_id_ tr < np (bpm tr)) by (destruct (proj2 Hinv); [contradiction|assumption]).
    apply (wpe_fetch true tr [] _); [exact Hinv|lia|intros; lia|intros Ef El|intros f tr' Hinv' Hv' _ Hh' Hnp' Hr' Hps'].
    + apply wpe_ret. split; [apply rd_refl|]. unfold find_leaf_v.
      rewrite decide_False by exact Hr. rewrite (nz_false true tr Hinv Ef El). split; [reflexivity|exact Hinv].
    + assert (Hnz : nz tr = true).
      { apply nz_true. rewrite <- Hps'. apply (holds_pool _ f (root_page_id_ tr) (po_wf _ _ _ (proj1 Hinv')) Hh'). }
      assert (Hfl : forall o, descend_v (views tr') fuel k (root_page_id_ tr) = o ->
                find_leaf_v (views tr) (nz tr) fuel k (root_page_id_ tr) = option_map Some o).
      { intros o Ho. unfold find_leaf_v. rewrite decide_False by exact Hr. rewrite Hnz. cbn [negb].
        rewrite decide_False by lia. rewrite <- Ho. rewrite (descend_v_ext (views tr) (views tr')) by exact Hv'.
        reflexivity. }
      eapply wpe_mono; [| |apply (descend_e fuel k tr' _ f Hinv' Hh')].
      * intros Hd. exact (Hfl None Hd).
      * intros r tr2 (p' & f' & -> & Hd & Hinv2 & Hh2 & Hv2 & Hr2 & Hnp2 & Hps2).
        split; [|exists p'; split; [exact (Hfl _ Hd)|split; assumption]].
        refine (rd_trans _ tr' _ (conj Hv' (conj Hr' (conj Hnp' Hps'))) (conj Hv2 (conj Hr2 (conj Hnp2 Hps2)))).
Qed.

Lemma Search_e fuel k tr : tinv true tr [] ->
  wpe (Search fuel k) (search_v (views tr) (nz tr) fuel k (root_page_id_ tr) = None)
    (fun r tr' => search_v (views tr) (nz tr) fuel k (root_page_id_ tr) = Some r /\ tinv true tr' [] /\ rd tr tr') tr.
Proof.
  intros Hinv. unfold Search. apply wpe_bind.
  eapply wpe_mono; [| |apply (FindLeafPage_e fuel k tr Hinv)].
  { unfold search_v. intros ->. reflexivity. }
  intros [f|] tr1 [Hrd1 Hr].
  - destruct Hr as (p & Hfl & Hinv1 & Hh1). apply wpe_page_of, wpe_pid_of.
    destruct (tinv_holds _ _ _ _ _ Hinv1 Hh1) as (Hid & _). rewrite Hid.
    apply (wpe_unpin true tr1 [] p false); [exact Hinv1|discriminate|].
    intros tr2 Hinv2 Hv2 _ Hnp2 Hr2 Hps2. apply wpe_ret.
    split; [|split; [exact Hinv2|exact (rd_trans _ _ _ Hrd1 (conj Hv2 (conj Hr2 (conj Hnp2 Hps2))))]].
    unfold search_v. rewrite Hfl. f_equal. rewrite <- (view_holds _ _ _ Hh1).
    destruct Hrd1 as (Hv1 & _). rewrite <- (Hv1 p). reflexivity.
  - destruct Hr as (Hfl & Hinv1). apply wpe_ret. unfold search_v. rewrite Hfl. split; [reflexivity|].
    split; [exact Hinv1|exact Hrd1].
Qed.

Lemma scan_loop_e fuel a b tr p f results : tinv true tr [p] -> holds (bpm tr) f p ->
  wpe (scan_loop fuel a b f results) (scan_loop_v (views tr) fuel a b p results = None)
    (fun r tr' => scan_loop_v (views tr) fuel a b p results = Some r /\ tinv true tr' [] /\ rd tr tr') tr.
Proof.
  revert tr p f results. induction fuel as [|n IH]; intros tr p f results Hinv Hh; [reflexivity|].
  cbn [scan_loop]. apply wpe_page_of.
  destruct (tinv_holds _ _ _ _ _ Hinv Hh) as (Hid & Hp & Hf & Hrefs).
  assert (Hv : views tr p = data (frame (bpm tr) f)) by apply (view_holds _ _ _ Hh).
  assert (Hstep : scan_loop_v (views tr) (S n) a b p results =
     match scan_leaf (Z.to_nat (num_keys (data (frame (bpm tr) f)) -
                        match results with [] => LeafFindKey (data (frame (bpm tr) f)) a | _ => 0 end))
             (data (frame (bpm tr) f))
             (match results with [] => LeafFindKey (data (frame (bpm tr) f)) a | _ => 0 end) a b results with
     | ScanReturn r => Some r
     | ScanNext r =>
         if decide (next_page_id (data (frame (bpm tr) f)) = INVALID_PAGE_ID) then Some r
         else if decide (next_page_id (data (frame (bpm tr) f)) < 0) then None
         else scan_loop_v (views tr) n a b (next_page_id (data (frame (bpm tr) f))) r
     end) by (cbn [scan_loop_v]; rewrite Hv; reflexivity).
  rewrite Hstep.
  destruct (scan_leaf _ _ _ _ _ _) as [r|r].
  - apply wpe_pid_of. rewrite Hid.
    apply (wpe_unpin true tr [] p false); [exact Hinv|discriminate|].
    intros tr1 Hinv1 Hv1 _ Hnp1 Hr1 Hps1. apply wpe_ret.
    split; [reflexivity|split; [exact Hinv1|exact (conj Hv1 (conj Hr1 (conj Hnp1 Hps1)))]].
  - apply wpe_pid_of. rewrite Hid.
    apply (wpe_unpin true tr [] p false); [exact Hinv|discriminate|].
    intros tr1 Hinv1 Hv1 _ Hnp1 Hr1 Hps1.
    destruct (decide (next_page_id (data (frame (bpm tr) f)) = INVALID_PAGE_ID)) as [Hn|Hn].
    + apply wpe_ret. split; [reflexivity|split; [exact Hinv1|exact (conj Hv1 (conj Hr1 (conj Hnp1 Hps1)))]].
    + assert (Hlt : next_page_id (data (frame (bpm tr) f)) < np (bpm tr1)) by (rewrite Hnp1; apply Hrefs).
      apply (wpe_fetch true tr1 [] _); [exact Hinv1|exact Hlt|intros Hneg; rewrite decide_True by exact Hneg; reflexivity
        |intros Ef El|intros f' tr2 Hinv2 Hv2 _ Hh2 Hnp2 Hr2 Hps2].
      * exfalso. apply (quiescent_victim true (bpm tr1)); [apply Hinv1|rewrite Hps1; lia|exact Ef|exact El].
      * assert (Hnn : ~ next_page_id (data (frame (bpm tr) f)) < 0).
        { intros Hneg. destruct (tinv_holds _ _ _ _ _ Hinv2 Hh2) as (_ & Hq & _). lia. }
        rewrite decide_False by exact Hnn.
        assert (HV : forall q, views tr2 q = views tr q) by (intros q; rewrite Hv2, Hv1; reflexivity).
        rewrite <- (scan_loop_v_ext (views tr) (views tr2)) by exact HV.
        eapply wpe_mono; [exact id| |apply (IH tr2 _ f' r Hinv2 Hh2)].
        intros r' tr3 (Hs & Hinv3 & Hrd3). split; [exact Hs|split; [exact Hinv3|]].
        refine (rd_trans _ tr2 _ _ Hrd3).
        refine (conj HV (conj _ (conj _ _))); congruence.
Qed.

Lemma Scan_e fuel a b tr : tinv true tr [] ->
  wpe (Scan fuel a b) (scan_v (views tr) (nz tr) fuel a b (root_page_id_ tr) = None)
    (fun r tr' => scan_v (views tr) (nz tr) fuel a b (root_page_id_ tr) = Some r /\ tinv true tr' [] /\ rd tr tr') tr.
Proof.
  intros Hinv. unfold Scan. apply wpe_get_bind. unfold scan_v.
  destruct (decide (root_page_id_ tr = INVALID_PAGE_ID)) as [Hr|Hr].
  - apply wpe_ret. split; [reflexivity|split; [exact Hinv|apply rd_refl]].
  - apply wpe_bind. eapply wpe_mono; [| |apply (FindLeafPage_e fuel a tr Hinv)].
    { intros ->. reflexivity. }
    intros [f|] tr1 [Hrd1 Hfl].
    + destruct Hfl as (p & Hfl & Hinv1 & Hh1). rewrite Hfl.
      destruct Hrd1 as (Hv1 & Hr1 & Hnp1 & Hps1).
      rewrite <- (scan_loop_v_ext (views tr) (views tr1)) by exact Hv1.
      eapply wpe_mono; [exact id| |apply (scan_loop_e fuel a b tr1 p f [] Hinv1 Hh1)].
      intros r tr2 (Hs & Hinv2 & Hrd2). split; [exact Hs|split; [exact Hinv2|]].
      exact (rd_trans _ tr1 _ (conj Hv1 (conj Hr1 (conj Hnp1 Hps1))) Hrd2).
    + destruct Hfl as (Hfl & Hinv1). rewrite Hfl. apply wpe_ret.
      split; [reflexivity|split; [exact Hinv1|exact Hrd1]].
Qed.

(** ** Writing a pinned page *)

Definition wstate (f : nat) (upd : PageData -> PageData) (tr : BPlusTree.t) : BPlusTree.t :=
  set_bpm (update_frame f (fun pg => set_data (upd (data pg)) pg) (bpm tr)) tr.

Lemma write_page_eq f upd tr : write_page f upd tr = Ok tt (wstate f upd tr).
Proof. reflexivity. Qed.

Section Write.
Variables (tr : BPlusTree.t) (P : list Z) (f : nat) (p : Z) (upd : PageData -> PageData).
Hypotheses (Hinv : tinv false tr P) (Hh : holds (bpm tr) f p) (HP : p ∈ P).
Let b := bpm tr.
Let b' := bpm (wstate f upd tr).

Lemma write_frame h : frame b' h = if decide (h = f) then set_data (upd (data (frame b f))) (frame b f) else frame b h.
Proof.
  pose proof (po_wf _ _ _ (proj1 Hinv)) as Hwf.
  destruct (tinv_holds _ _ _ _ _ Hinv Hh) as (_ & _ & Hf & _).
  unfold b'. cbn [wstate bpm set_bpm]. rewrite frame_update_frame; [reflexivity|]. rewrite (wf_length _ Hwf). exact Hf.
Qed.

Lemma write_fields h : page_id (frame b' h) = page_id (frame b h) /\ pin_count (frame b' h) = pin_count (frame b h) /\
  is_dirty (frame b' h) = is_dirty (frame b h).
Proof. rewrite write_frame. case_decide; subst; repeat split. Qed.

Lemma write_pt : page_table_ b' = page_table_ b. Proof. reflexivity. Qed.
Lemma write_dm : disk_manager_ b' = disk_manager_ b. Proof. reflexivity. Qed.

Lemma write_wf : bpm_wf b'.
Proof.
  pose proof (po_wf _ _ _ (proj1 Hinv)) as Hwf.
  assert (Hres : forall h, resident b' h <-> resident b h) by (intros h; unfold resident; rewrite write_pt; reflexivity).
  destruct Hwf as [Hl Ht Hfn Hfr Hc Hln Hlr Hnp Hfl].
  constructor; unfold np, dfile in *; rewrite ?write_dm, ?write_pt.
  - unfold b'. cbn [wstate bpm set_bpm]. rewrite length_update_frame. exact Hl.
  - apply map_Forall_lookup_2. intros q h Hq. pose proof (map_Forall_lookup_1 _ _ _ _ Ht Hq) as Hx.
    cbv beta in Hx. destruct (write_fields h) as (-> & -> & _). exact Hx.
  - exact Hfn.
  - apply (Forall_impl _ _ _ Hfr). intros h (H1 & H2 & H3). rewrite Hres. destruct (write_fields h) as (-> & _). auto.
  - apply (Forall_impl _ _ _ Hc). intros h H. rewrite Hres. exact H.
  - exact Hln.
  - apply (Forall_impl _ _ _ Hlr). intros h (H1 & H2). rewrite Hres. destruct (write_fields h) as (_ & -> & _). auto.
  - exact Hnp.
  - exact Hfl.
Qed.

Lemma write_view q : Observe.view_page b' q = if decide (q = p) then upd (Observe.view_page b p) else Observe.view_page b q.
Proof.
  pose proof (po_wf _ _ _ (proj1 Hinv)) as Hwf.
  unfold Observe.view_page. rewrite write_pt. unfold holds in Hh. fold b in Hh.
  destruct (decide (q = p)) as [->|Hq].
  - rewrite Hh, write_frame, decide_True by reflexivity. reflexivity.
  - destruct (page_table_ b !! q) as [h|] eqn:E.
    + rewrite write_frame, decide_False; [reflexivity|]. intros ->. apply Hq. exact (wf_inj b Hwf q p f E Hh).
    + rewrite write_dm. reflexivity.
Qed.

Lemma write_pinned : 0 < pin_count (frame b f).
Proof.
  destruct (tinv_pinned _ _ _ _ Hinv HP) as (f' & Hh' & Hpos & _).
  unfold holds in Hh, Hh'. fold b in Hh, Hh'. rewrite Hh in Hh'. injection Hh' as <-. exact Hpos.
Qed.

Lemma write_tinv : refs_below (Z.max (np b) 1) (upd (data (frame b f))) -> tinv false (wstate f upd tr) P.
Proof.
  intros Hr. destruct Hinv as [Hok Hroot]. split; [|exact Hroot].
  pose proof (po_wf _ _ _ Hok) as Hwf.
  assert (Hfr : forall h, h <> f -> frame b' h = frame b h) by (intros h Hne; rewrite write_frame, decide_False by exact Hne; reflexivity).
  constructor.
  - exact write_wf.
  - intros q. unfold pin_of. fold b'. rewrite write_pt. pose proof (po_pins _ _ _ Hok q) as Hq. unfold pin_of in Hq. fold b in Hq.
    destruct (page_table_ b !! q) as [h|]; [|exact Hq]. destruct (write_fields h) as (_ & -> & _). exact Hq.
  - intros q h Hq Hd [Hs|Hs]; [discriminate|]. fold b' in Hq, Hd, Hs |- *. rewrite write_pt in Hq.
    assert (h <> f) as Hne.
    { intros ->. pose proof write_pinned. destruct (write_fields f) as (_ & Hp & _). lia. }
    rewrite Hfr in Hd, Hs |- * by exact Hne. unfold dfile. rewrite write_dm.
    apply (po_clean _ _ _ Hok q h Hq Hd). right. exact Hs.
  - intros q Hq. fold b' in Hq |- *. unfold np in Hq. rewrite write_dm in Hq.
    destruct (po_alloc _ _ _ Hok q Hq) as [Hf|(h & Hh' & Hd)]; [left; unfold dfile; rewrite write_dm; exact Hf|].
    right. exists h. rewrite write_pt. split; [exact Hh'|]. destruct (write_fields h) as (_ & -> & ->). exact Hd.
  - intros q. fold b'. rewrite write_view. unfold np. rewrite write_dm. fold (np b).
    case_decide; [|apply (po_refs _ _ _ Hok)]. pose proof (view_holds _ _ _ Hh) as Hvh. fold b in Hvh. rewrite Hvh. exact Hr.
Qed.

End Write.

(** ** The update steps *)

Lemma wgrows_refl P tr : wgrows P tr tr.
Proof. split; [intros q f _ H; exact H|split; [lia|split; [reflexivity|auto]]]. Qed.

Lemma wgrows_trans P tr1 tr2 tr3 : wgrows P tr1 tr2 -> wgrows P tr2 tr3 -> wgrows P tr1 tr3.
Proof.
  intros (S1 & N1 & Z1 & R1) (S2 & N2 & Z2 & R2).
  split; [intros q f Hq H; apply S2, S1; assumption|split; [lia|split; [congruence|auto]]].
Qed.

Lemma wgrows_cons x P tr tr' : wgrows (x :: P) tr tr' -> wgrows P tr tr'.
Proof. intros (S1 & H). split; [|exact H]. intros q f Hq. apply S1. right. exact Hq. Qed.

Lemma wgrows_holds P tr tr' f q : wgrows P tr tr' -> q ∈ P -> holds (bpm tr) f q -> holds (bpm tr') f q.
Proof. intros (S1 & _) Hq H. exact (S1 q f Hq H). Qed.

Lemma wgrows_pt P tr tr' : page_table_ (bpm tr') = page_table_ (bpm tr) -> np (bpm tr') = np (bpm tr) ->
  pool_size_ (bpm tr') = pool_size_ (bpm tr) -> root_page_id_ tr' = root_page_id_ tr -> wgrows P tr tr'.
Proof.
  intros Hpt Hnp Hps Hr. split; [intros q f _ H; unfold holds in *; rewrite Hpt; exact H|].
  split; [lia|split; [exact Hps|rewrite Hr; auto]].
Qed.

Lemma wpost_refl tr P : tinv false tr P -> wpost tr P tr.
Proof. intros H. split; [exact H|apply wgrows_refl]. Qed.

Lemma wpost_trans tr1 tr2 tr3 P : wpost tr1 P tr2 -> wpost tr2 P tr3 -> wpost tr1 P tr3.
Proof. intros [_ G1] [I2 G2]. split; [exact I2|exact (wgrows_trans _ _ _ _ G1 G2)]. Qed.

Lemma frame_refs s tr P f p : tinv s tr P -> holds (bpm tr) f p ->
  refs_below (Z.max (np (bpm tr)) 1) (data (frame (bpm tr) f)).
Proof.
  intros Hinv Hh. rewrite <- (view_holds _ _ _ Hh). apply (po_refs _ _ _ (proj1 Hinv)).
Qed.

Lemma wpe_write {B} tr P f p upd (K : unit -> M BPlusTree.t B) Q :
  tinv false tr P -> holds (bpm tr) f p -> p ∈ P ->
  refs_below (Z.max (np (bpm tr)) 1) (upd (data (frame (bpm tr) f))) ->
  (tinv false (wstate f upd tr) P -> wpe (K tt) True Q (wstate f upd tr)) ->
  wpe (bind (write_page f upd) K) True Q tr.
Proof. intros Hinv Hh HP Hr HK. apply HK, (write_tinv tr P f p upd Hinv Hh HP Hr). Qed.

Lemma wpe_write_last tr P f p upd (Q : unit -> BPlusTree.t -> Prop) :
  tinv false tr P -> holds (bpm tr) f p -> p ∈ P ->
  refs_below (Z.max (np (bpm tr)) 1) (upd (data (frame (bpm tr) f))) ->
  (tinv false (wstate f upd tr) P -> Q tt (wstate f upd tr)) ->
  wpe (write_page f upd) True Q tr.
Proof. intros Hinv Hh HP Hr HK. apply HK, (write_tinv tr P f p upd Hinv Hh HP Hr). Qed.

Lemma wstate_grows P f upd tr : wgrows P tr (wstate f upd tr).
Proof. apply wgrows_pt; reflexivity. Qed.

Lemma wpe_new {B} tr P (K : option (nat * Z) -> M BPlusTree.t B) Q :
  tinv false tr P -> wpe (K None) True Q tr ->
  (forall f id tr', tinv false tr' (id :: P) -> wgrows P tr tr' -> holds (bpm tr') f id ->
     id = np (bpm tr) -> np (bpm tr') = np (bpm tr) + 1 -> root_page_id_ tr' = root_page_id_ tr ->
     wpe (K (Some (f, id))) True Q tr') ->
  wpe (bind (pool NewPage) K) True Q tr.
Proof.
  intros [Hok Hroot] Hnone Hsome. apply wpe_bind. unfold wpe at 1, pool, zoom.
  destruct (NewPage (bpm tr)) as [r b'|e] eqn:E1; [|exact I].
  pose proof (wp_run _ _ _ _ _ (wp_and _ _ _ _ (NewPage_ok (bpm tr) P Hok) (NewPage_ps (bpm tr))) E1)
    as [Hpost Hps].
  destruct r as [[f id]|]; cbn [new_post] in Hpost.
  - destruct Hpost as (Hid & Hnp & Hok' & Hv & Hst & Hh).
    apply (Hsome f id (set_bpm b' tr)); cbn; auto.
    + split; [exact Hok'|]. unfold root_ok in *. cbn. rewrite Hnp. destruct Hroot; [left|right]; lia.
    + split; [exact Hst|split; [cbn; lia|split; [exact Hps|auto]]].
  - subst b'. rewrite set_bpm_same. exact Hnone.
Qed.

Lemma wpe_unpin_w {B} tr P p (K : bool -> M BPlusTree.t B) Q :
  tinv false tr (p :: P) ->
  (forall tr', tinv false tr' P -> wgrows P tr tr' -> root_page_id_ tr' = root_page_id_ tr ->
     wpe (K true) True Q tr') ->
  wpe (bind (pool (UnpinPage p true)) K) True Q tr.
Proof.
  intros Hinv HK. apply (wpe_unpin false tr P p true); [exact Hinv|reflexivity|].
  intros tr' Hinv' _ Hpt Hnp Hr Hps. apply HK; [exact Hinv'|apply wgrows_pt; assumption|exact Hr].
Qed.

Lemma wpe_fetch_w {B} tr P p (K : option nat -> M BPlusTree.t B) Q :
  tinv false tr P -> p < np (bpm tr) ->
  wpe (K None) True Q tr ->
  (forall f tr', tinv false tr' (p :: P) -> wgrows P tr tr' -> holds (bpm tr') f p ->
     root_page_id_ tr' = root_page_id_ tr -> wpe (K (Some f)) True Q tr') ->
  wpe (bind (pool (FetchPage p)) K) True Q tr.
Proof.
  intros Hinv Hp Hnone Hsome. apply (wpe_fetch false tr P p); [exact Hinv|exact Hp|intros; exact I|intros; exact Hnone|].
  intros f tr' Hinv' _ Hst Hh Hnp Hr Hps. apply Hsome; [exact Hinv'| |exact Hh|exact Hr].
  split; [exact Hst|split; [lia|split; [exact Hps|rewrite Hr; auto]]].
Qed.

(** ** Page updates keep page references in range *)

Lemma Forall_repeat' {A} (P : A -> Prop) x n : P x -> Forall P (repeat x n).
Proof. intros Hx. induction n as [|n IH]; constructor; auto. Qed.

Lemma Forall_arr_set {A} (P : A -> Prop) d l i x : Forall P l -> P d -> P x -> Forall P (arr_set d l i x).
Proof.
  intros Hl Hd Hx. unfold arr_set. case_decide.
  - apply Forall_insert; assumption.
  - apply Forall_app; split; [exact Hl|]. apply Forall_app; split; [apply Forall_repeat', Hd|constructor; auto].
Qed.

Lemma arr_get_P {A} (P : A -> Prop) d l i : Forall P l -> P d -> P (arr_get d l i).
Proof.
  intros Hl Hd. unfold arr_get. destruct (Nat.lt_ge_cases (Z.to_nat i) (length l)) as [Hi|Hi].
  - rewrite List.Forall_forall in Hl. apply Hl, nth_In, Hi.
  - rewrite nth_overflow by exact Hi. exact Hd.
Qed.

Lemma Forall_copy_loop {A} (P : A -> Prop) d cnt i off src dst :
  Forall P src -> Forall P dst -> P d -> Forall P (copy_loop d cnt i off src dst).
Proof.
  revert i dst. induction cnt as [|c IH]; intros i dst Hs Hd Hdd; [exact Hd|].
  cbn [copy_loop]. apply IH; [exact Hs| |exact Hdd]. apply Forall_arr_set; [exact Hd|exact Hdd|].
  apply arr_get_P; assumption.
Qed.

Lemma Forall_merge_temp {A} (P : A -> Prop) cnt i at_ idx x :
  (forall j, P (at_ j)) -> P x -> Forall P (merge_temp cnt i at_ idx x).
Proof.
  revert i. induction cnt as [|c IH]; intros i Ha Hx; [constructor|].
  cbn [merge_temp]. apply Forall_app; split; [case_decide; repeat constructor; auto|].
  constructor; [apply Ha|apply IH; assumption].
Qed.

Lemma refs_same n d d' : next_page_id d' = next_page_id d -> parent_page_id d' = parent_page_id d ->
  children d' = children d -> refs_below n d -> refs_below n d'.
Proof. intros H1 H2 H3 (R1 & R2 & R3). unfold refs_below. rewrite H1, H2, H3. split; [|split]; assumption. Qed.

Lemma refs_parent n v d : v < n -> refs_below n d -> refs_below n (set_parent_page_id v d).
Proof. intros Hv (R1 & R2 & R3). split; [exact R1|split; [exact Hv|exact R3]]. Qed.

Lemma refs_next n v d : v < n -> refs_below n d -> refs_below n (set_next_page_id v d).
Proof. intros Hv (R1 & R2 & R3). split; [exact Hv|split; [exact R2|exact R3]]. Qed.

Lemma refs_children n l d : Forall (fun c => c < n) l -> refs_below n d -> refs_below n (set_children l d).
Proof. intros Hl (R1 & R2 & R3). split; [exact R1|split; [exact R2|exact Hl]]. Qed.

Lemma refs_children_of n d : refs_below n d -> Forall (fun c => c < n) (children d).
Proof. intros (_ & _ & R3). exact R3. Qed.

Lemma refs_zero n : 0 < n -> refs_below n zero_page.
Proof. intros Hn. split; [cbn; lia|split; [cbn; lia|constructor]]. Qed.

Lemma refs_shift_internal n cnt i d : 0 < n -> refs_below n d -> refs_below n (shift_internal cnt i d).
Proof.
  revert i d. induction cnt as [|c IH]; intros i d Hn Hd; [exact Hd|].
  cbn [shift_internal]. apply IH; [exact Hn|]. unfold child_at. apply refs_children.
  - cbn [set_keys children]. apply Forall_arr_set; [apply (refs_children_of _ _ Hd)|cbn; lia|].
    apply arr_get_P; [apply (refs_children_of _ _ Hd)|cbn; lia].
  - apply (refs_same n d); [reflexivity..|exact Hd].
Qed.

Lemma refs_max_mono n n' d : n <= n' -> refs_below (Z.max n 1) d -> refs_below (Z.max n' 1) d.
Proof. intros H. apply refs_below_mono. lia. Qed.

Lemma np_wstate f u tr : np (bpm (wstate f u tr)) = np (bpm tr). Proof. reflexivity. Qed.
Lemma root_wstate f u tr : root_page_id_ (wstate f u tr) = root_page_id_ tr. Proof. reflexivity. Qed.
Lemma holds_wstate f u tr g q : holds (bpm (wstate f u tr)) g q <-> holds (bpm tr) g q. Proof. reflexivity. Qed.

(** The current contents of a pinned frame keep their references in range. *)
Ltac refs_keep :=
  cbv beta;
  match goal with
  | |- refs_below _ (?u (data (frame ?b ?f))) =>
      apply (refs_same _ (data (frame b f))); [reflexivity..|eapply frame_refs; eassumption]
  end.

Definition wkeep (tr : BPlusTree.t) (P : list Z) (tr' : BPlusTree.t) : Prop :=
  wpost tr P tr' /\ root_page_id_ tr' = root_page_id_ tr.

Lemma wkeep_wstate tr P f u : tinv false (wstate f u tr) P -> wkeep tr P (wstate f u tr).
Proof. intros H. split; [split; [exact H|apply wstate_grows]|reflexivity]. Qed.

Lemma wkeep_trans tr1 tr2 tr3 P : wkeep tr1 P tr2 -> wkeep tr2 P tr3 -> wkeep tr1 P tr3.
Proof. intros [W1 R1] [W2 R2]. split; [exact (wpost_trans _ _ _ _ W1 W2)|congruence]. Qed.

Lemma LeafInsert_ok tr P f p k v : tinv false tr P -> holds (bpm tr) f p -> p ∈ P ->
  wpe (LeafInsert f k v) True (fun r tr' => r = true /\ wkeep tr P tr') tr.
Proof.
  intros Hinv Hh HP. unfold LeafInsert. apply wpe_page_of. case_decide.
  - apply (wpe_write tr P f p); [assumption..|refs_keep|]. intros Hinv1.
    apply wpe_ret. split; [reflexivity|apply wkeep_wstate, Hinv1].
  - apply (wpe_write tr P f p); [assumption..|refs_keep|]. intros Hinv1.
    apply (wpe_write _ P f p); [assumption..|refs_keep|]. intros Hinv2.
    apply (wpe_write _ P f p); [assumption..|refs_keep|]. intros Hinv3.
    apply wpe_ret. split; [reflexivity|].
    refine (wkeep_trans _ _ _ _ (wkeep_wstate _ _ _ _ Hinv1) (wkeep_trans _ _ _ _ (wkeep_wstate _ _ _ _ Hinv2) (wkeep_wstate _ _ _ _ Hinv3))).
Qed.

Lemma InternalInsert_ok tr P f p k rc : tinv false tr P -> holds (bpm tr) f p -> p ∈ P ->
  rc < Z.max (np (bpm tr)) 1 ->
  wpe (InternalInsert f k rc) True (fun _ tr' => wkeep tr P tr') tr.
Proof.
  intros Hinv Hh HP Hrc. unfold InternalInsert. apply wpe_page_of.
  apply (wpe_write tr P f p); [assumption..| |].
  { apply refs_shift_internal; [lia|eapply frame_refs; eassumption]. }
  intros Hinv1. apply (wpe_write _ P f p); [assumption..|refs_keep|]. intros Hinv2.
  apply (wpe_write _ P f p); [assumption..| |].
  { cbv beta. pose proof (frame_refs _ _ _ _ _ Hinv2 Hh) as Hr. apply refs_children; [|exact Hr].
    apply Forall_arr_set; [apply refs_children_of, Hr|lia|exact Hrc]. }
  intros Hinv3. apply (wpe_write_last _ P f p); [assumption..|refs_keep|]. intros Hinv4.
  refine (wkeep_trans _ _ _ _ (wkeep_wstate _ _ _ _ Hinv1) (wkeep_trans _ _ _ _ (wkeep_wstate _ _ _ _ Hinv2)
    (wkeep_trans _ _ _ _ (wkeep_wstate _ _ _ _ Hinv3) (wkeep_wstate _ _ _ _ Hinv4)))).
Qed.

Lemma wkeep_grows tr tr' P : tinv false tr' P -> wgrows P tr tr' -> root_page_id_ tr' = root_page_id_ tr -> wkeep tr P tr'.
Proof. intros H G R. split; [split; assumption|exact R]. Qed.

Lemma UpdateMetaPage_ok tr P : tinv false tr P -> 0 < np (bpm tr) ->
  wpe UpdateMetaPage True (fun _ tr' => wkeep tr P tr') tr.
Proof.
  intros Hinv Hnp. unfold UpdateMetaPage.
  apply (wpe_fetch_w tr P META_PAGE_ID); [exact Hinv|exact Hnp| |intros f tr1 Hinv1 G1 Hh1 R1].
  { apply wpe_ret. apply wkeep_grows; [exact Hinv|apply wgrows_refl|reflexivity]. }
  apply wpe_get_bind. apply (wpe_write tr1 (META_PAGE_ID :: P) f META_PAGE_ID); [assumption|assumption|left|refs_keep|].
  intros Hinv2. apply (wpe_unpin_w _ P META_PAGE_ID); [exact Hinv2|]. intros tr3 Hinv3 G3 R3.
  apply wpe_ret. apply wkeep_grows; [exact Hinv3| |rewrite R3, root_wstate; exact R1].
  exact (wgrows_trans _ _ _ _ G1 (wgrows_trans _ _ _ _ (wstate_grows _ _ _ _) G3)).
Qed.

Lemma wpe_write_g {B} tr0 P0 tr P f p upd (K : unit -> M BPlusTree.t B) Q :
  wgrows P0 tr0 tr -> tinv false tr P -> holds (bpm tr) f p -> p ∈ P ->
  refs_below (Z.max (np (bpm tr)) 1) (upd (data (frame (bpm tr) f))) ->
  (tinv false (wstate f upd tr) P -> wgrows P0 tr0 (wstate f upd tr) -> wpe (K tt) True Q (wstate f upd tr)) ->
  wpe (bind (write_page f upd) K) True Q tr.
Proof.
  intros G Hinv Hh HP Hr HK. apply (wpe_write tr P f p); [assumption..|]. intros Hinv'.
  apply HK; [exact Hinv'|exact (wgrows_trans _ _ _ _ G (wstate_grows _ _ _ _))].
Qed.

Lemma wgrows_set_root P tr v : 0 <= v -> wgrows P tr (set_root v tr).
Proof. intros Hv. split; [intros q f _ H; exact H|split; [apply Z.le_refl|split; [reflexivity|cbn; unfold INVALID_PAGE_ID; lia]]]. Qed.

Lemma tinv_set_root s tr P v : tinv s tr P -> 0 <= v < np (bpm tr) -> tinv s (set_root v tr) P.
Proof. intros [Hok _] Hv. split; [exact Hok|right; exact Hv]. Qed.

Lemma pid_holds s tr P f p : tinv s tr P -> holds (bpm tr) f p -> page_id (frame (bpm tr) f) = p.
Proof. intros Hinv Hh. exact (proj1 (tinv_holds _ _ _ _ _ Hinv Hh)). Qed.

Lemma page_lt s tr P f p : tinv s tr P -> holds (bpm tr) f p -> 0 <= p < np (bpm tr).
Proof. intros Hinv Hh. exact (proj1 (proj2 (tinv_holds _ _ _ _ _ Hinv Hh))). Qed.

Lemma np_nonneg s tr P : tinv s tr P -> 0 <= np (bpm tr).
Proof. intros Hinv. exact (wf_np _ (po_wf _ _ _ (proj1 Hinv))). Qed.

Lemma CreateNewRoot_ok tr P fl pl k fr pr :
  tinv false tr P -> holds (bpm tr) fl pl -> holds (bpm tr) fr pr -> pl ∈ P -> pr ∈ P ->
  wpe (CreateNewRoot fl k fr) True (fun _ tr' => wpost tr P tr') tr.
Proof.
  intros Hinv Hl Hr Hpl Hpr. unfold CreateNewRoot.
  pose proof (page_lt _ _ _ _ _ Hinv Hl) as Hlt. pose proof (page_lt _ _ _ _ _ Hinv Hr) as Hrt.
  apply (wpe_new tr P); [exact Hinv|apply wpe_deref_none; exact I|].
  intros f id tr1 Hinv1 G1 Hh1 Hid Hnp1 R1. apply wpe_deref_some. cbv beta iota.
  pose proof (wgrows_holds _ _ _ _ _ G1 Hpl Hl) as Hl1. pose proof (wgrows_holds _ _ _ _ _ G1 Hpr Hr) as Hr1.
  assert (Hin : id ∈ id :: P) by left.
  assert (Hl_in : pl ∈ id :: P) by (right; exact Hpl). assert (Hr_in : pr ∈ id :: P) by (right; exact Hpr).
  apply (wpe_write_g tr P tr1 (id :: P) f id); [exact G1|assumption..|refs_keep|]. intros Hinv2 G2.
  apply (wpe_write_g tr P _ (id :: P) f id); [exact G2|assumption..|refs_keep|]. intros Hinv3 G3.
  apply (wpe_write_g tr P _ (id :: P) f id); [exact G3|assumption..| |].
  { apply refs_parent; [unfold INVALID_PAGE_ID; lia|eapply frame_refs; eassumption]. }
  intros Hinv4 G4. apply wpe_pid_of. rewrite (pid_holds _ _ _ _ _ Hinv4 Hl1).
  apply (wpe_write_g tr P _ (id :: P) f id); [exact G4|assumption..| |].
  { cbv beta. pose proof (frame_refs _ _ _ _ _ Hinv4 Hh1) as Hf. apply refs_children; [|exact Hf].
    apply Forall_arr_set; [apply refs_children_of, Hf|lia|rewrite !np_wstate; lia]. }
  intros Hinv5 G5. apply wpe_pid_of. rewrite (pid_holds _ _ _ _ _ Hinv5 Hr1).
  apply (wpe_write_g tr P _ (id :: P) f id); [exact G5|assumption..| |].
  { cbv beta. pose proof (frame_refs _ _ _ _ _ Hinv5 Hh1) as Hf. apply refs_children; [|exact Hf].
    apply Forall_arr_set; [apply refs_children_of, Hf|lia|rewrite !np_wstate; lia]. }
  intros Hinv6 G6. apply (wpe_write_g tr P _ (id :: P) f id); [exact G6|assumption..|refs_keep|]. intros Hinv7 G7.
  apply (wpe_write_g tr P _ (id :: P) fl pl); [exact G7|assumption..| |].
  { apply refs_parent; [rewrite !np_wstate; lia|eapply frame_refs; eassumption]. }
  intros Hinv8 G8. apply (wpe_write_g tr P _ (id :: P) fr pr); [exact G8|assumption..| |].
  { apply refs_parent; [rewrite !np_wstate; lia|eapply frame_refs; eassumption]. }
  intros Hinv9 G9. apply wpe_modify_bind.
  pose proof (np_nonneg _ _ _ Hinv) as Hnn.
  assert (Hinv10 : tinv false (set_root id (wstate fr (set_parent_page_id id) (wstate fl (set_parent_page_id id)
            (wstate f (fun d => set_keys (arr_set 0 (keys d) 0 k) d) (wstate f (fun d => set_children (arr_set 0 (children d) 1 pr) d)
            (wstate f (fun d => set_children (arr_set 0 (children d) 0 pl) d) (wstate f (set_parent_page_id INVALID_PAGE_ID)
            (wstate f (set_num_keys 1) (wstate f (set_page_type PT_INTERNAL) tr1))))))))) (id :: P)).
  { apply tinv_set_root; [exact Hinv9|rewrite !np_wstate; lia]. }
  pose proof (wgrows_trans _ _ _ _ G9 (wgrows_set_root P _ id ltac:(lia))) as G10.
  apply wpe_bind. eapply wpe_mono; [exact (fun e => e)| |apply (UpdateMetaPage_ok _ _ Hinv10); change (0 < np (bpm tr1)); lia].
  intros [] tr11 [[Hinv11 G11] _]. apply (wpe_unpin_w _ P id); [exact Hinv11|]. intros tr12 Hinv12 G12 _.
  apply wpe_ret. split; [exact Hinv12|].
  exact (wgrows_trans _ _ _ _ G10 (wgrows_trans _ _ _ _ (wgrows_cons _ _ _ _ G11) G12)).
Qed.

(** What is assumed of the [InsertIntoParent] passed to the splits. *)
Definition iip_ok (iip : nat -> Z -> nat -> M BPlusTree.t unit) : Prop :=
  forall tr P fl pl k fr pr, tinv false tr P -> holds (bpm tr) fl pl -> holds (bpm tr) fr pr ->
    pl ∈ P -> pr ∈ P -> wpe (iip fl k fr) True (fun _ tr' => wpost tr P tr') tr.

Lemma parent_lt s tr P f p : tinv s tr P -> holds (bpm tr) f p ->
  parent_page_id (data (frame (bpm tr) f)) < Z.max (np (bpm tr)) 1.
Proof. intros Hinv Hh. exact (proj1 (proj2 (frame_refs _ _ _ _ _ Hinv Hh))). Qed.

Lemma next_lt s tr P f p : tinv s tr P -> holds (bpm tr) f p ->
  next_page_id (data (frame (bpm tr) f)) < Z.max (np (bpm tr)) 1.
Proof. intros Hinv Hh. exact (proj1 (frame_refs _ _ _ _ _ Hinv Hh)). Qed.

Lemma SplitLeaf_ok iip tr P f p k v : iip_ok iip -> tinv false tr P -> holds (bpm tr) f p -> p ∈ P ->
  wpe (SplitLeaf iip f k v) True (fun _ tr' => wpost tr P tr') tr.
Proof.
  intros Hiip Hinv Hh HP. unfold SplitLeaf. apply wpe_page_of. cbv zeta.
  apply (wpe_new tr P); [exact Hinv|apply wpe_deref_none; exact I|].
  intros fn nid tr1 Hinv1 G1 Hh1 Hid Hnp1 R1. apply wpe_deref_some. cbv beta iota zeta.
  pose proof (wgrows_holds _ _ _ _ _ G1 HP Hh) as Hf1.
  assert (Hin : nid ∈ nid :: P) by left. assert (Hp_in : p ∈ nid :: P) by (right; exact HP).
  pose proof (np_nonneg _ _ _ Hinv) as Hnn.
  apply (wpe_write_g tr P tr1 (nid :: P) f p); [exact G1|assumption..|refs_keep|]. intros Hinv2 G2.
  apply (wpe_write_g tr P _ (nid :: P) f p); [exact G2|assumption..|refs_keep|]. intros Hinv3 G3.
  apply (wpe_write_g tr P _ (nid :: P) fn nid); [exact G3|assumption..|refs_keep|]. intros Hinv4 G4.
  apply (wpe_write_g tr P _ (nid :: P) fn nid); [exact G4|assumption..|refs_keep|]. intros Hinv5 G5.
  apply wpe_page_of.
  apply (wpe_write_g tr P _ (nid :: P) fn nid); [exact G5|assumption..| |].
  { apply refs_parent; [apply (parent_lt _ _ _ _ _ Hinv5 Hf1)|eapply frame_refs; eassumption]. }
  intros Hinv6 G6.
  apply (wpe_write_g tr P _ (nid :: P) fn nid); [exact G6|assumption..| |].
  { apply refs_next; [apply (next_lt _ _ _ _ _ Hinv5 Hf1)|eapply frame_refs; eassumption]. }
  intros Hinv7 G7.
  apply (wpe_write_g tr P _ (nid :: P) f p); [exact G7|assumption..| |].
  { apply refs_next; [rewrite !np_wstate; lia|eapply frame_refs; eassumption]. }
  intros Hinv8 G8.
  apply (wpe_write_g tr P _ (nid :: P) fn nid); [exact G8|assumption..|refs_keep|]. intros Hinv9 G9.
  apply wpe_page_of. apply wpe_bind.
  eapply wpe_mono; [exact (fun e => e)| |apply (Hiip _ (nid :: P) f p _ fn nid Hinv9); assumption].
  intros [] tr10 [Hinv10 G10]. apply (wpe_unpin_w _ P nid); [exact Hinv10|]. intros tr11 Hinv11 G11 _.
  apply wpe_ret. split; [exact Hinv11|].
  exact (wgrows_trans _ _ _ _ G9 (wgrows_trans _ _ _ _ (wgrows_cons _ _ _ _ G10) G11)).
Qed.

Lemma Forall_app_if {A} (Pr : A -> Prop) l x (C : Prop) `{Decision C} :
  Forall Pr l -> Pr x -> Forall Pr (l ++ if decide C then [x] else []).
Proof. intros Hl Hx. apply Forall_app; split; [exact Hl|case_decide; repeat constructor; auto]. Qed.

Lemma wpe_for_loop {S} (I : S -> Prop) n lo (body : Z -> M S unit) :
  (forall i s, I s -> wpe (body i) True (fun _ s' => I s') s) ->
  forall s, I s -> wpe (for_loop n lo body) True (fun _ s' => I s') s.
Proof.
  intros Hb. revert lo. induction n as [|n IH]; intros lo s Hs; [exact Hs|].
  cbn [for_loop]. apply wpe_bind. eapply wpe_mono; [exact (fun e => e)| |apply (Hb lo s Hs)].
  intros u s' Hs'. apply IH, Hs'.
Qed.

Lemma SplitInternal_ok iip tr P f p k rc : iip_ok iip -> tinv false tr P -> holds (bpm tr) f p -> p ∈ P ->
  rc < Z.max (np (bpm tr)) 1 ->
  wpe (SplitInternal iip f k rc) True (fun _ tr' => wpost tr P tr') tr.
Proof.
  intros Hiip Hinv Hh HP Hrc. unfold SplitInternal. apply wpe_page_of. cbv zeta.
  pose proof (frame_refs _ _ _ _ _ Hinv Hh) as Hold.
  apply (wpe_new tr P); [exact Hinv|apply wpe_deref_none; exact I|].
  intros fn nid tr1 Hinv1 G1 Hh1 Hid Hnp1 R1. apply wpe_deref_some. cbv beta iota zeta.
  pose proof (wgrows_holds _ _ _ _ _ G1 HP Hh) as Hf1.
  assert (Hin : nid ∈ nid :: P) by left. assert (Hp_in : p ∈ nid :: P) by (right; exact HP).
  pose proof (np_nonneg _ _ _ Hinv) as Hnn.
  match goal with |- context [copy_loop 0 _ 0 0 ?tc] =>
    assert (HT : Forall (fun c => c < Z.max (np (bpm tr1)) 1) tc) end.
  { apply Forall_app_if; [|lia]. apply Forall_merge_temp; [|lia]. intros j.
    assert (child_at (data (frame (bpm tr) f)) j < Z.max (np (bpm tr)) 1) by
      (unfold child_at; apply arr_get_P; [apply refs_children_of, Hold|lia]). lia. }
  apply (wpe_write_g tr P tr1 (nid :: P) f p); [exact G1|assumption..|refs_keep|]. intros Hinv2 G2.
  apply (wpe_write_g tr P _ (nid :: P) f p); [exact G2|assumption..| |].
  { cbv beta. pose proof (frame_refs _ _ _ _ _ Hinv2 Hf1) as Hr. apply refs_children.
    - rewrite !np_wstate. apply Forall_copy_loop; [exact HT|rewrite np_wstate in Hr; apply refs_children_of, Hr|lia].
    - match goal with |- refs_below _ (set_keys _ ?d) => apply (refs_same _ d) end; [reflexivity..|exact Hr]. }
  intros Hinv3 G3.
  apply (wpe_write_g tr P _ (nid :: P) f p); [exact G3|assumption..| |].
  { cbv beta. pose proof (frame_refs _ _ _ _ _ Hinv3 Hf1) as Hr. apply refs_children; [|exact Hr].
    apply Forall_arr_set; [apply refs_children_of, Hr|lia|]. rewrite !np_wstate. apply arr_get_P; [exact HT|lia]. }
  intros Hinv4 G4.
  apply (wpe_write_g tr P _ (nid :: P) fn nid); [exact G4|assumption..|refs_keep|]. intros Hinv5 G5.
  apply (wpe_write_g tr P _ (nid :: P) fn nid); [exact G5|assumption..|refs_keep|]. intros Hinv6 G6.
  apply wpe_page_of.
  apply (wpe_write_g tr P _ (nid :: P) fn nid); [exact G6|assumption..| |].
  { apply refs_parent; [apply (parent_lt _ _ _ _ _ Hinv6 Hf1)|eapply frame_refs; eassumption]. }
  intros Hinv7 G7.
  apply (wpe_write_g tr P _ (nid :: P) fn nid); [exact G7|assumption..| |].
  { cbv beta. pose proof (frame_refs _ _ _ _ _ Hinv7 Hh1) as Hr. apply refs_children.
    - rewrite !np_wstate. apply Forall_copy_loop; [exact HT|rewrite !np_wstate in Hr; apply refs_children_of, Hr|lia].
    - match goal with |- refs_below _ (set_keys _ ?d) => apply (refs_same _ d) end; [reflexivity..|exact Hr]. }
  intros Hinv8 G8.
  apply (wpe_write_g tr P _ (nid :: P) fn nid); [exact G8|assumption..| |].
  { cbv beta. pose proof (frame_refs _ _ _ _ _ Hinv8 Hh1) as Hr. apply refs_children; [|exact Hr].
    apply Forall_arr_set; [apply refs_children_of, Hr|lia|]. rewrite !np_wstate. apply arr_get_P; [exact HT|lia]. }
  intros Hinv9 G9. apply wpe_bind.
  match goal with |- wpe _ _ _ ?t9 =>
    eapply wpe_mono; [exact (fun e => e)| |apply (wpe_for_loop (fun t => tinv false t (nid :: P) /\ wgrows (nid :: P) t9 t /\
       np (bpm tr1) <= np (bpm t)))] end.
  2:{ intros i t (HinvT & GT & NT). apply wpe_page_of.
      pose proof (wgrows_holds _ _ _ _ _ GT Hin Hh1) as HhT.
      assert (Hc : child_at (data (frame (bpm t) fn)) i < np (bpm t)).
      { assert (child_at (data (frame (bpm t) fn)) i < Z.max (np (bpm t)) 1)
          by (unfold child_at; apply arr_get_P; [apply refs_children_of, (frame_refs _ _ _ _ _ HinvT HhT)|lia]). lia. }
      apply (wpe_fetch_w t (nid :: P) _); [exact HinvT|exact Hc|apply wpe_deref_none; exact I|].
      intros c tc Hinvc Gc Hhc _. apply wpe_deref_some.
      eapply (wpe_write tc _ c _); [exact Hinvc|exact Hhc|left| |].
      { apply refs_parent; [|eapply frame_refs; eassumption].
        destruct Gc as (_ & Nc & _). lia. }
      intros Hinvw. apply (wpe_unpin_w _ (nid :: P) _); [exact Hinvw|]. intros tu Hinvu Gu _.
      apply wpe_ret. split; [exact Hinvu|]. split.
      - exact (wgrows_trans _ _ _ _ GT (wgrows_trans _ _ _ _ Gc (wgrows_trans _ _ _ _ (wstate_grows _ _ _ _) Gu))).
      - destruct Gc as (_ & Nc & _). destruct Gu as (_ & Nu & _). rewrite np_wstate in Nu. lia. }
  2:{ split; [exact Hinv9|split; [apply wgrows_refl|apply Z.le_refl]]. }
  intros [] tL (HinvL & GL & NL). apply wpe_bind.
  pose proof (wgrows_holds _ _ _ _ _ GL Hp_in Hf1) as HfL. pose proof (wgrows_holds _ _ _ _ _ GL Hin Hh1) as HnL.
  eapply wpe_mono; [exact (fun e => e)| |apply (Hiip _ (nid :: P) f p _ fn nid HinvL); assumption].
  intros [] tI [HinvI GI]. apply (wpe_unpin_w _ P nid); [exact HinvI|]. intros tU HinvU GU _.
  apply wpe_ret. split; [exact HinvU|].
  exact (wgrows_trans _ _ _ _ G9 (wgrows_trans _ _ _ _ (wgrows_cons _ _ _ _ GL) (wgrows_trans _ _ _ _ (wgrows_cons _ _ _ _ GI) GU))).
Qed.

Lemma InsertIntoParent_ok fuel : iip_ok (InsertIntoParent fuel).
Proof.
  induction fuel as [|n IH]; intros tr P fl pl k fr pr Hinv Hl Hr Hpl Hpr; [exact I|].
  cbn [InsertIntoParent]. apply wpe_page_of.
  destruct (decide (parent_page_id (data (frame (bpm tr) fl)) = INVALID_PAGE_ID)) as [Hpar|Hpar].
  { apply (CreateNewRoot_ok tr P fl pl k fr pr); assumption. }
  pose proof (page_lt _ _ _ _ _ Hinv Hl) as Hlt. pose proof (page_lt _ _ _ _ _ Hinv Hr) as Hrt.
  pose proof (parent_lt _ _ _ _ _ Hinv Hl) as Hpp.
  apply (wpe_fetch_w tr P); [exact Hinv|lia|apply wpe_deref_none; exact I|].
  intros fp tr1 Hinv1 G1 Hh1 _. apply wpe_deref_some. apply wpe_pid_of.
  rewrite (pid_holds _ _ _ _ _ Hinv1 Hh1).
  pose proof (wgrows_holds _ _ _ _ _ G1 Hpr Hr) as Hr1. pose proof (wgrows_holds _ _ _ _ _ G1 Hpl Hl) as Hl1.
  assert (Hr_in : pr ∈ parent_page_id (data (frame (bpm tr) fl)) :: P) by (right; exact Hpr).
  apply (wpe_write_g tr P tr1 (parent_page_id (data (frame (bpm tr) fl)) :: P) fr pr); [exact G1|assumption..| |].
  { apply refs_parent; [destruct G1 as (_ & N1 & _); lia|eapply frame_refs; eassumption]. }
  intros Hinv2 G2. apply wpe_page_of, wpe_pid_of. rewrite (pid_holds _ _ _ _ _ Hinv2 Hr1).
  assert (Hpp_in : parent_page_id (data (frame (bpm tr) fl)) ∈ parent_page_id (data (frame (bpm tr) fl)) :: P) by left.
  case_decide.
  - apply wpe_bind. eapply wpe_mono; [exact (fun e => e)| |apply (InternalInsert_ok _ _ fp _ k pr Hinv2 Hh1 Hpp_in)].
    2:{ rewrite np_wstate. destruct G1 as (_ & N1 & _). lia. }
    intros [] t3 [[Hinv3 G3] _]. apply (wpe_unpin_w _ P _); [exact Hinv3|]. intros t4 Hinv4 G4 _.
    apply wpe_ret. split; [exact Hinv4|]. exact (wgrows_trans _ _ _ _ G2 (wgrows_trans _ _ _ _ (wgrows_cons _ _ _ _ G3) G4)).
  - apply wpe_bind. eapply wpe_mono; [exact (fun e => e)| |apply (SplitInternal_ok _ _ _ fp _ k pr IH Hinv2 Hh1 Hpp_in)].
    2:{ rewrite np_wstate. destruct G1 as (_ & N1 & _). lia. }
    intros [] t3 [Hinv3 G3]. apply (wpe_unpin_w _ P _); [exact Hinv3|]. intros t4 Hinv4 G4 _.
    apply wpe_ret. split; [exact Hinv4|]. exact (wgrows_trans _ _ _ _ G2 (wgrows_trans _ _ _ _ (wgrows_cons _ _ _ _ G3) G4)).
Qed.

Lemma wpe_ret_r {S A} (m : M S A) E Q s : wpe (bind m ret) E Q s -> wpe m E Q s.
Proof. unfold wpe, bind, ret. destruct (m s); exact id. Qed.

Lemma rd_grows tr tr' : rd tr tr' -> wgrows [] tr tr'.
Proof.
  intros (_ & Hr & Hnp & Hps). split; [|split; [lia|split; [exact Hps|rewrite Hr; auto]]].
  intros q f Hq. apply not_elem_of_nil in Hq. contradiction.
Qed.

Definition ins_post (tr : BPlusTree.t) (r : bool) (tr' : BPlusTree.t) : Prop :=
  tinv true tr' [] /\ wgrows [] tr tr' /\ root_page_id_ tr' <> INVALID_PAGE_ID.

Lemma tinv_finish tr tr' : tinv false tr' [] -> wgrows [] tr tr' -> root_page_id_ tr' <> INVALID_PAGE_ID ->
  ins_post tr true tr'.
Proof. intros [Hok Hr] G R. split; [split; [apply pool_ok_strict, Hok|exact Hr]|split; assumption]. Qed.

Lemma tinv_weaken s tr P : tinv s tr P -> tinv false tr P.
Proof. intros [Hok Hr]. split; [apply (pool_ok_weaken s _ _ Hok)|exact Hr]. Qed.

Lemma Insert_found fuel k v tr1 p f tr0 :
  tinv true tr1 [p] -> holds (bpm tr1) f p -> wgrows [] tr0 tr1 -> root_page_id_ tr1 <> INVALID_PAGE_ID ->
  wpe (let* d := page_of f in
       let* _ := (if decide (num_keys d < LEAF_MAX_ENTRIES) then
                    let* _ := LeafInsert f k v in
                    let* pid := pid_of f in
                    pool (UnpinPage pid true)
                  else
                    let* _ := SplitLeaf (InsertIntoParent fuel) f k v in
                    let* pid := pid_of f in
                    pool (UnpinPage pid true)) in
       ret true) True (ins_post tr0) tr1.
Proof.
  intros Hinv1 Hh G1 R1. pose proof (tinv_weaken _ _ _ Hinv1) as Hw. assert (Hin : p ∈ [p]) by left.
  apply wpe_page_of. apply wpe_bind. case_decide.
  - apply wpe_bind. eapply wpe_mono; [exact (fun e => e)| |apply (LeafInsert_ok _ _ f p k v Hw Hh Hin)].
    intros r t2 (_ & [Hinv2 G2] & R2). apply wpe_pid_of.
    rewrite (pid_holds _ _ _ _ _ Hinv2 (wgrows_holds _ _ _ _ _ G2 Hin Hh)).
    apply wpe_ret_r. apply (wpe_unpin_w _ [] p); [exact Hinv2|]. intros t3 Hinv3 G3 R3.
    apply wpe_ret, wpe_ret. apply tinv_finish; [exact Hinv3| |congruence].
    exact (wgrows_trans _ _ _ _ G1 (wgrows_trans _ _ _ _ (wgrows_cons _ _ _ _ G2) G3)).
  - apply wpe_bind. eapply wpe_mono; [exact (fun e => e)| |apply (SplitLeaf_ok _ _ _ f p k v (InsertIntoParent_ok fuel) Hw Hh Hin)].
    intros r t2 [Hinv2 G2]. apply wpe_pid_of.
    rewrite (pid_holds _ _ _ _ _ Hinv2 (wgrows_holds _ _ _ _ _ G2 Hin Hh)).
    apply wpe_ret_r. apply (wpe_unpin_w _ [] p); [exact Hinv2|]. intros t3 Hinv3 G3 R3.
    apply wpe_ret, wpe_ret. apply tinv_finish; [exact Hinv3| |].
    + exact (wgrows_trans _ _ _ _ G1 (wgrows_trans _ _ _ _ (wgrows_cons _ _ _ _ G2) G3)).
    + destruct G2 as (_ & _ & _ & RG). rewrite R3. apply RG, R1.
Qed.

Lemma Insert_fresh_root k v tr0 tr :
  tinv false tr [] -> wgrows [] tr0 tr ->
  wpe (let* o := pool NewPage in
       let* r := deref o in
       let '(f_root, root_id) := r in
       let* _ := modify (set_root root_id) in
       let* _ := write_page f_root (set_page_type PT_LEAF) in
       let* _ := write_page f_root (set_num_keys 0) in
       let* _ := write_page f_root (set_parent_page_id INVALID_PAGE_ID) in
       let* _ := write_page f_root (set_next_page_id INVALID_PAGE_ID) in
       let* _ := LeafInsert f_root k v in
       let* _ := UpdateMetaPage in
       let* tr := get in
       let* _ := pool (UnpinPage (root_page_id_ tr) true) in
       ret true) True (ins_post tr0) tr.
Proof.
  intros Hinv G. pose proof (np_nonneg _ _ _ Hinv) as Hnn.
  apply (wpe_new tr []); [exact Hinv|apply wpe_deref_none; exact I|].
  intros f rid tr1 Hinv1 G1 Hh1 Hid Hnp1 R1. apply wpe_deref_some. cbv beta iota.
  assert (Hin : rid ∈ [rid]) by left.
  apply wpe_modify_bind.
  assert (Hinv2 : tinv false (set_root rid tr1) [rid]) by (apply tinv_set_root; [exact Hinv1|lia]).
  pose proof (wgrows_trans _ _ _ _ G (wgrows_trans _ _ _ _ G1 (wgrows_set_root [] tr1 rid ltac:(lia)))) as G2.
  apply (wpe_write_g tr0 [] _ [rid] f rid); [exact G2|exact Hinv2|exact Hh1|exact Hin|refs_keep|]. intros Hinv3 G3.
  apply (wpe_write_g tr0 [] _ [rid] f rid); [exact G3|assumption..|refs_keep|]. intros Hinv4 G4.
  apply (wpe_write_g tr0 [] _ [rid] f rid); [exact G4|assumption..| |].
  { apply refs_parent; [unfold INVALID_PAGE_ID; lia|eapply frame_refs; eassumption]. }
  intros Hinv5 G5.
  apply (wpe_write_g tr0 [] _ [rid] f rid); [exact G5|assumption..| |].
  { apply refs_next; [unfold INVALID_PAGE_ID; lia|eapply frame_refs; eassumption]. }
  intros Hinv6 G6. apply wpe_bind.
  eapply wpe_mono; [exact (fun e => e)| |apply (LeafInsert_ok _ _ f rid k v Hinv6 Hh1 Hin)].
  intros r t7 (_ & [Hinv7 G7] & R7). apply wpe_bind.
  eapply wpe_mono; [exact (fun e => e)| |apply (UpdateMetaPage_ok _ _ Hinv7)].
  2:{ destruct G7 as (_ & N7 & _). rewrite !np_wstate in N7. cbn in N7 |- *. lia. }
  intros [] t8 [[Hinv8 G8] R8]. apply wpe_get_bind.
  assert (Hr8 : root_page_id_ t8 = rid) by (rewrite R8, R7; reflexivity).
  rewrite Hr8. apply (wpe_unpin_w _ [] rid); [exact Hinv8|]. intros t9 Hinv9 G9 R9.
  apply wpe_ret. apply tinv_finish; [exact Hinv9| |rewrite R9, Hr8; unfold INVALID_PAGE_ID; lia].
  exact (wgrows_trans _ _ _ _ G6 (wgrows_trans _ _ _ _ (wgrows_cons _ _ _ _ G7) (wgrows_trans _ _ _ _ (wgrows_cons _ _ _ _ G8) G9))).
Qed.

Lemma Insert_ok fuel k v tr : tinv true tr [] -> wpe (Insert fuel k v) True (ins_post tr) tr.
Proof.
  intros Hinv. unfold Insert. apply wpe_get_bind.
  pose proof (tinv_weaken _ _ _ Hinv) as Hw.
  case_decide as Hr.
  - apply (wpe_new tr []); [exact Hw| |].
    + apply wpe_bind, wpe_ret. exact (Insert_fresh_root k v tr tr Hw (wgrows_refl [] tr)).
    + intros f mid tr1 Hinv1 G1 Hh1 _ _ _. cbv beta iota. apply wpe_bind.
      apply (wpe_write tr1 [mid] f mid); [exact Hinv1|exact Hh1|left| |].
      { apply refs_zero. lia. }
      intros Hinv2. apply (wpe_unpin_w _ [] mid); [exact Hinv2|]. intros tr3 Hinv3 G3 _.
      apply wpe_ret. apply (Insert_fresh_root k v tr tr3 Hinv3).
      exact (wgrows_trans _ _ _ _ G1 (wgrows_trans _ _ _ _ (wstate_grows _ _ _ _) G3)).
  - apply wpe_bind. eapply wpe_mono; [intros _; exact I| |apply (FindLeafPage_e fuel k tr Hinv)].
    intros [f|] tr1 [Hrd Hfl].
    + destruct Hfl as (p & _ & Hinv1 & Hh1). apply (Insert_found fuel k v tr1 p f tr Hinv1 Hh1).
      * apply rd_grows, Hrd.
      * destruct Hrd as (_ & R & _). rewrite R. exact Hr.
    + destruct Hfl as (_ & Hinv1). apply wpe_ret. split; [exact Hinv1|split; [apply rd_grows, Hrd|]].
      destruct Hrd as (_ & R & _). rewrite R. exact Hr.
Qed.

(** ** Remove *)

Lemma leaf_bsearch_ge fuel d k lo hi : lo <= leaf_bsearch fuel d k lo hi.
Proof.
  revert lo hi. induction fuel as [|n IH]; intros lo hi; cbn [leaf_bsearch]; [lia|].
  case_decide; [|lia].
  assert (lo <= (lo + hi) / 2) by (apply Z.div_le_lower_bound; lia).
  case_decide; [specialize (IH ((lo + hi) / 2 + 1) hi); lia|apply IH].
Qed.

Lemma LeafFindKey_nonneg d k : 0 <= LeafFindKey d k.
Proof. apply leaf_bsearch_ge. Qed.

Lemma find_leaf_v_leaf V h fuel k root p :
  find_leaf_v V h fuel k root = Some (Some p) -> page_type (V p) <> PT_INTERNAL.
Proof.
  unfold find_leaf_v. repeat case_decide; try discriminate; destruct (negb h); try discriminate.
  destruct (descend_v V fuel k root) eqn:E; cbn; [|discriminate]. intros [= <-].
  exact (descend_v_leaf _ _ _ _ _ E).
Qed.

Definition rem_post (k : Z) (tr : BPlusTree.t) (r : bool) (tr' : BPlusTree.t) : Prop :=
  tinv true tr' [] /\ root_page_id_ tr' = root_page_id_ tr /\ np (bpm tr') = np (bpm tr) /\
  pool_size_ (bpm tr') = pool_size_ (bpm tr) /\
  (r = true -> exists q, page_type (views tr q) <> PT_INTERNAL /\ leaf_has_key (views tr q) k) /\
  (r = false -> same_views tr tr').

Lemma Remove_ok fuel k tr : tinv true tr [] -> wpe (Remove fuel k) True (rem_post k tr) tr.
Proof.
  intros Hinv. unfold Remove. apply wpe_get_bind. case_decide as Hr.
  { apply wpe_ret. split; [exact Hinv|split; [reflexivity|split; [reflexivity|split; [reflexivity|]]]].
    split; [discriminate|intros _ q; reflexivity]. }
  apply wpe_bind. eapply wpe_mono; [intros _; exact I| |apply (FindLeafPage_e fuel k tr Hinv)].
  intros [f|] tr1 [(Hv1 & Hr1 & Hnp1 & Hps1) Hfl].
  - destruct Hfl as (p & Hfl & Hinv1 & Hh1). apply wpe_page_of, wpe_pid_of.
    rewrite (pid_holds _ _ _ _ _ Hinv1 Hh1). case_decide as Hk.
    + apply (wpe_unpin true tr1 [] p false); [exact Hinv1|discriminate|].
      intros tr2 Hinv2 Hv2 _ Hnp2 Hr2 Hps2. apply wpe_ret.
      split; [exact Hinv2|split; [congruence|split; [congruence|split; [congruence|split; [discriminate|]]]]].
      intros _ q. rewrite Hv2, Hv1. reflexivity.
    + pose proof (tinv_weaken _ _ _ Hinv1) as Hw.
      apply (wpe_write tr1 [p] f p); [exact Hw|exact Hh1|left|refs_keep|]. intros Hinv2.
      apply (wpe_unpin false _ [] p true); [exact Hinv2|reflexivity|].
      intros tr3 [Hok3 Hroot3] _ _ Hnp3 Hr3 Hps3. apply wpe_ret.
      split; [split; [apply pool_ok_strict, Hok3|exact Hroot3]|].
      split; [rewrite Hr3; exact Hr1|split; [rewrite Hnp3; exact Hnp1|split; [rewrite Hps3; exact Hps1|split; [|discriminate]]]].
      intros _. exists p.
      assert (Hd : views tr p = data (frame (bpm tr1) f))
        by (rewrite <- (Hv1 p); exact (view_holds _ _ _ Hh1)). split.
      * exact (find_leaf_v_leaf _ _ _ _ _ _ Hfl).
      * rewrite Hd. set (d := data (frame (bpm tr1) f)) in *. pose proof (LeafFindKey_nonneg d k).
        exists (LeafFindKey d k).
        destruct (Z_lt_ge_dec (LeafFindKey d k) (num_keys d)), (Z.eq_dec (key (entry_at d (LeafFindKey d k))) k);
          try (exfalso; apply Hk; tauto).
        split; [lia|assumption].
  - destruct Hfl as (_ & Hinv1). apply wpe_ret.
    split; [exact Hinv1|split; [exact Hr1|split; [exact Hnp1|split; [exact Hps1|split; [discriminate|intros _; exact Hv1]]]]].
Qed.

(** ** Flushing *)

Lemma flush_pool_ok b p f : pool_ok true b [] -> page_table_ b !! p = Some f ->
  pool_ok true (flush_state f b) [] /\
  (forall q, Observe.view_page (flush_state f b) q = Observe.view_page b q) /\
  np (flush_state f b) = np b /\ page_table_ (flush_state f b) = page_table_ b /\
  pool_size_ (flush_state f b) = pool_size_ b /\
  is_dirty (frame (flush_state f b) f) = false /\
  (forall h, h <> f -> frame (flush_state f b) h = frame b h).
Proof.
  intros Hok Hp. pose proof (po_wf _ _ _ Hok) as Hwf.
  destruct (wf_lookup b Hwf p f Hp) as (Hf & Hid & Hpr & _).
  pose proof (flush_frame b p f Hwf Hp) as Hfr.
  assert (Hpt : page_table_ (flush_state f b) = page_table_ b) by reflexivity.
  assert (Hnp : np (flush_state f b) = np b) by reflexivity.
  assert (Hdf : dfile (flush_state f b) = <[p := data (frame b f)]> (dfile b))
    by (rewrite <- Hid; reflexivity).
  assert (Hdata : forall h, data (frame (flush_state f b) h) = data (frame b h))
    by (intros h; rewrite Hfr; case_decide; subst; reflexivity).
  assert (Hother : forall h, h <> f -> frame (flush_state f b) h = frame b h)
    by (intros h Hh; rewrite Hfr, decide_False by exact Hh; reflexivity).
  assert (Hinj : forall q g, page_table_ b !! q = Some g -> g = f -> q = p).
  { intros q g Hq ->. destruct (wf_lookup b Hwf q f Hq) as (_ & Hq' & _). congruence. }
  assert (Hview : forall q, Observe.view_page (flush_state f b) q = Observe.view_page b q).
  { intros q. unfold Observe.view_page. rewrite Hpt. destruct (page_table_ b !! q) as [g|] eqn:Hq.
    - apply Hdata.
    - change (DiskManager.file_page (dfile (flush_state f b)) q = DiskManager.file_page (dfile b) q).
      rewrite Hdf. unfold DiskManager.file_page.
      rewrite (lookup_insert_ne (M:=gmap Z) (dfile b) p q) by congruence. reflexivity. }
  split; [|split; [exact Hview|split; [exact Hnp|split; [exact Hpt|split; [reflexivity|split]]]]].
  - constructor.
    + exact (flush_state_wf b p f Hwf Hp).
    + intros q. rewrite <- (po_pins _ _ _ Hok q). unfold pin_of. rewrite Hpt.
      destruct (page_table_ b !! q) as [g|]; [|reflexivity]. rewrite Hfr. case_decide; subst; reflexivity.
    + intros q g Hq Hd _. rewrite Hpt in Hq. rewrite Hdf, Hdata. unfold DiskManager.file_page.
      destruct (decide (g = f)) as [->|Hg].
      * rewrite (Hinj q f Hq eq_refl), (lookup_insert_eq (M:=gmap Z) (dfile b) p). reflexivity.
      * rewrite (lookup_insert_ne (M:=gmap Z) (dfile b) p q) by (intros ->; congruence). rewrite Hother in Hd by exact Hg.
        apply (po_clean _ _ _ Hok q g Hq Hd (or_introl eq_refl)).
    + intros q Hq. rewrite Hnp in Hq. rewrite Hpt, Hdf.
      destruct (po_alloc _ _ _ Hok q Hq) as [Hin|(g & Hg & Hd)].
      * left. rewrite (lookup_insert_is_Some' (M:=gmap Z) (dfile b) p q). right. exact Hin.
      * destruct (decide (g = f)) as [->|Hgf].
        -- left. rewrite (Hinj q f Hg eq_refl), (lookup_insert_eq (M:=gmap Z) (dfile b) p). eauto.
        -- right. exists g. split; [exact Hg|]. rewrite Hother by exact Hgf. exact Hd.
    + intros q. rewrite Hview, Hnp. apply (po_refs _ _ _ Hok).
  - rewrite Hfr, decide_True by reflexivity. reflexivity.
  - exact Hother.
Qed.

Lemma flush_entries_cons p f l b : 0 <= page_id (frame b f) ->
  flush_entries ((p, f) :: l) b = flush_entries l (if is_dirty (frame b f) then flush_state f b else b).
Proof.
  intros Hid. cbn [flush_entries]. unfold bind, get, ret, modify, disk, zoom, DiskManager.WritePage.
  destruct (is_dirty (frame b f)); [rewrite decide_False by lia|]; reflexivity.
Qed.

Lemma flush_entries_ok l : forall b, pool_ok true b [] ->
  (forall p f, (p, f) ∈ l -> page_table_ b !! p = Some f) ->
  exists b', flush_entries l b = Ok tt b' /\ pool_ok true b' [] /\
    (forall q, Observe.view_page b' q = Observe.view_page b q) /\ np b' = np b /\
    page_table_ b' = page_table_ b /\ pool_size_ b' = pool_size_ b /\
    (forall p f, (p, f) ∈ l -> is_dirty (frame b' f) = false) /\
    (forall h, is_dirty (frame b h) = false -> is_dirty (frame b' h) = false).
Proof.
  induction l as [|[p f] l IH]; intros b Hok Hl.
  - exists b. split; [reflexivity|]. split; [exact Hok|]. repeat split; try reflexivity.
    + intros p f Hin. apply elem_of_nil in Hin as [].
    + intros h Hh. exact Hh.
  - assert (Hp : page_table_ b !! p = Some f) by (apply Hl; left).
    destruct (wf_lookup b (po_wf _ _ _ Hok) p f Hp) as (_ & Hid & Hpr & _).
    rewrite flush_entries_cons by lia.
    set (b1 := if is_dirty (frame b f) then flush_state f b else b).
    assert (H1 : pool_ok true b1 [] /\ (forall q, Observe.view_page b1 q = Observe.view_page b q) /\
      np b1 = np b /\ page_table_ b1 = page_table_ b /\ pool_size_ b1 = pool_size_ b /\
      is_dirty (frame b1 f) = false /\
      (forall h, is_dirty (frame b h) = false -> is_dirty (frame b1 h) = false)).
    { unfold b1. destruct (is_dirty (frame b f)) eqn:Ed.
      - destruct (flush_pool_ok b p f Hok Hp) as (Hok1 & Hv & Hnp & Hpt & Hps & Hd & Ho).
        refine (conj Hok1 (conj Hv (conj Hnp (conj Hpt (conj Hps (conj Hd _)))))).
        intros h Hh. destruct (decide (h = f)) as [->|Hhf]; [exact Hd|]. rewrite Ho by exact Hhf. exact Hh.
      - refine (conj Hok (conj (fun q => eq_refl) (conj eq_refl (conj eq_refl (conj eq_refl (conj Ed _)))))).
        intros h Hh. exact Hh. }
    destruct H1 as (Hok1 & Hv1 & Hnp1 & Hpt1 & Hps1 & Hd1 & Hc1).
    destruct (IH b1 Hok1) as (b' & Hrun & Hok' & Hv' & Hnp' & Hpt' & Hps' & Hd' & Hc').
    { intros p' f' Hin. rewrite Hpt1. apply Hl. right. exact Hin. }
    exists b'. split; [exact Hrun|]. split; [exact Hok'|].
    split; [intros q; rewrite Hv', Hv1; reflexivity|].
    split; [congruence|split; [congruence|split; [congruence|split]]].
    + intros p' f' Hin. apply elem_of_cons in Hin as [Heq|Hin].
      * injection Heq as -> ->. apply Hc', Hd1.
      * exact (Hd' p' f' Hin).
    + intros h Hh. apply Hc', Hc1, Hh.
Qed.

Lemma FlushPage_meta_ok b : pool_ok true b [] ->
  exists r b1, FlushPage META_PAGE_ID b = Ok r b1 /\ pool_ok true b1 [] /\
    (forall q, Observe.view_page b1 q = Observe.view_page b q) /\ np b1 = np b /\
    pool_size_ b1 = pool_size_ b.
Proof.
  intros Hok. destruct (page_table_ b !! META_PAGE_ID) as [f|] eqn:Hp.
  - destruct (wf_lookup b (po_wf _ _ _ Hok) _ f Hp) as (_ & Hid & _).
    destruct (flush_pool_ok b _ f Hok Hp) as (Hok1 & Hv & Hnp & _ & Hps & _).
    exists true, (flush_state f b). split; [apply FlushPage_eq; [exact Hp|rewrite Hid; unfold META_PAGE_ID; lia]|].
    auto.
  - exists false, b. split; [unfold FlushPage, bind, get, ret; rewrite Hp; reflexivity|]. auto.
Qed.

Lemma Destroy_ok tr : tinv true tr [] ->
  exists tr', Destroy tr = Ok tt tr' /\ pool_ok true (bpm tr') [] /\ same_views tr tr' /\
    np (bpm tr') = np (bpm tr) /\ pool_size_ (bpm tr') = pool_size_ (bpm tr) /\
    root_page_id_ tr' = root_page_id_ tr /\
    (forall q g, page_table_ (bpm tr') !! q = Some g -> is_dirty (frame (bpm tr') g) = false).
Proof.
  intros [Hok _]. destruct (FlushPage_meta_ok _ Hok) as (r & b1 & E1 & Hok1 & Hv1 & Hnp1 & Hps1).
  destruct (flush_entries_ok (map_to_list (page_table_ b1)) b1 Hok1) as
    (b' & E2 & Hok' & Hv' & Hnp' & Hpt' & Hps' & Hd' & _).
  { intros p f Hin. apply elem_of_map_to_list in Hin. exact Hin. }
  exists (set_bpm b' (set_bpm b1 tr)). split.
  { unfold Destroy, bind, pool, zoom. rewrite E1. unfold FlushAllPages, bind, get. cbn [bpm set_bpm].
    rewrite E2. reflexivity. }
  cbn [bpm set_bpm root_page_id_]. split; [exact Hok'|].
  split; [intros q; unfold views; cbn [bpm set_bpm]; rewrite Hv', Hv1; reflexivity|].
  split; [congruence|split; [congruence|split; [reflexivity|]]].
  intros q g Hq. apply (Hd' q). apply elem_of_map_to_list. rewrite <- Hpt'. exact Hq.
Qed.

Lemma clean_file b : pool_ok true b [] ->
  (forall q g, page_table_ b !! q = Some g -> is_dirty (frame b g) = false) ->
  (forall q, DiskManager.file_page (dfile b) q = Observe.view_page b q) /\
  (forall q, is_Some (dfile b !! q) <-> 0 <= q < np b).
Proof.
  intros Hok Hcl. split.
  - intros q. unfold Observe.view_page. destruct (page_table_ b !! q) as [g|] eqn:Hq; [|reflexivity].
    symmetry. exact (po_clean _ _ _ Hok q g Hq (Hcl q g Hq) (or_introl eq_refl)).
  - intros q. split.
    + intros [d Hd]. exact (map_Forall_lookup_1 _ _ _ _ (wf_file _ (po_wf _ _ _ Hok)) Hd).
    + intros Hq. destruct (po_alloc _ _ _ Hok q Hq) as [Hin|(g & Hg & [Hd|[Hf _]])];
        [exact Hin|rewrite (Hcl q g Hg) in Hd; discriminate|discriminate].
Qed.

Lemma fold_max_le (l : list Z) n : 0 <= n -> Forall (fun x => x <= n) l -> fold_right Z.max 0 l <= n.
Proof. intros Hn. induction 1; cbn; lia. Qed.

Lemma fold_max_ge (l : list Z) x : In x l -> x <= fold_right Z.max 0 l.
Proof. induction l as [|y l IH]; cbn; [tauto|]. intros [->|H]; [lia|specialize (IH H); lia]. Qed.

Lemma fold_max_nonneg (l : list Z) : 0 <= fold_right Z.max 0 l.
Proof. induction l; cbn; lia. Qed.

Lemma file_num_pages_eq (f : gmap Z PageData) n : 0 <= n ->
  (forall q, is_Some (f !! q) <-> 0 <= q < n) -> DiskManager.file_num_pages f = n.
Proof.
  intros Hn Hf. unfold DiskManager.file_num_pages. apply Z.le_antisymm.
  - apply fold_max_le; [exact Hn|]. apply List.Forall_forall. intros x Hx.
    apply in_map_iff in Hx as ([k d] & <- & Hx). cbn.
    apply list_elem_of_In, elem_of_map_to_list in Hx. cbn in Hx.
    assert (0 <= k < n) by (apply Hf; eauto). lia.
  - destruct (decide (n = 0)) as [->|Hn0]; [apply fold_max_nonneg|].
    destruct (proj2 (Hf (n - 1)) ltac:(lia)) as [d Hd].
    apply (Z.le_trans _ ((n - 1) + 1)); [lia|]. apply fold_max_ge.
    apply in_map_iff. exists (n - 1, d). split; [reflexivity|].
    apply list_elem_of_In, elem_of_map_to_list. exact Hd.
Qed.

(** ** Opening a store *)

Lemma repeat_default_frame n i : repeat default_page n !!! i = default_page.
Proof. revert i. induction n as [|n IH]; intros [|i]; cbn; try reflexivity. apply IH. Qed.

Lemma create_pool_ok ps (f : gmap Z PageData) n : 0 <= n ->
  (forall q, is_Some (f !! q) <-> 0 <= q < n) ->
  (forall q, refs_below (Z.max n 1) (DiskManager.file_page f q)) ->
  pool_ok true (BufferPoolManager.create ps (DiskManager.Open f)) [] /\
  np (BufferPoolManager.create ps (DiskManager.Open f)) = n /\
  (forall q, Observe.view_page (BufferPoolManager.create ps (DiskManager.Open f)) q = DiskManager.file_page f q).
Proof.
  intros Hn Hf Hr. set (b := BufferPoolManager.create ps (DiskManager.Open f)).
  assert (Hnp : np b = n) by exact (file_num_pages_eq f n Hn Hf).
  assert (Hpt : page_table_ b = ∅) by reflexivity.
  assert (Hfr : forall h, frame b h = default_page) by (intros h; apply repeat_default_frame).
  assert (Hres : forall h, ~ resident b h).
  { intros h Hh. unfold resident in Hh. rewrite Hpt, map_img_empty in Hh. set_solver. }
  assert (Hv : forall q, Observe.view_page b q = DiskManager.file_page f q).
  { intros q. unfold Observe.view_page. rewrite Hpt, lookup_empty. reflexivity. }
  split; [|split; [exact Hnp|exact Hv]]. constructor.
  - constructor.
    + apply repeat_length.
    + rewrite Hpt. apply map_Forall_empty.
    + apply NoDup_seq.
    + apply List.Forall_forall. intros h Hh. apply in_seq in Hh. cbn in Hh.
      split; [cbn; lia|split; [apply Hres|rewrite Hfr; reflexivity]].
    + apply List.Forall_forall. intros h Hh. left. apply list_elem_of_In. exact Hh.
    + constructor.
    + constructor.
    + rewrite Hnp. exact Hn.
    + intros q d Hd. rewrite Hnp. apply Hf. eauto.
  - intros q. unfold pin_of. rewrite Hpt, lookup_empty. reflexivity.
  - intros q g Hq. rewrite Hpt, lookup_empty in Hq. discriminate.
  - intros q Hq. left. rewrite Hnp in Hq. apply Hf, Hq.
  - intros q. rewrite Hv, Hnp. apply Hr.
Qed.


Lemma wpe_getdm {B} E (K : DiskManager.t -> M BPlusTree.t B) Q tr :
  wpe (K (disk_manager_ (bpm tr))) E Q tr -> wpe (bind (pool GetDiskManager) K) E Q tr.
Proof. intros H. unfold wpe, bind, pool, zoom, GetDiskManager. rewrite set_bpm_same. exact H. Qed.

(** What [LoadMetaPage] leaves: the root read from page 0 when the file
    has pages and the pool has a frame. *)
Definition load_post (tr : BPlusTree.t) (u : unit) (tr' : BPlusTree.t) : Prop :=
  tinv true tr' [] /\ same_views tr tr' /\ np (bpm tr') = np (bpm tr) /\
  pool_size_ (bpm tr') = pool_size_ (bpm tr) /\
  (nz tr = true -> root_page_id_ tr' =
     if decide (0 < np (bpm tr)) then page_type (views tr META_PAGE_ID) else INVALID_PAGE_ID).

Lemma LoadMetaPage_ok tr : tinv true tr [] -> root_page_id_ tr = INVALID_PAGE_ID ->
  (0 < np (bpm tr) -> page_type (views tr META_PAGE_ID) = INVALID_PAGE_ID \/
                      0 <= page_type (views tr META_PAGE_ID) < np (bpm tr)) ->
  wpe LoadMetaPage False (load_post tr) tr.
Proof.
  intros Hinv Hr Hm. unfold LoadMetaPage. apply wpe_getdm.
  change (DiskManager.num_pages_ (disk_manager_ (bpm tr))) with (np (bpm tr)). case_decide as Hn.
  - apply (wpe_fetch true tr [] META_PAGE_ID); [exact Hinv|unfold META_PAGE_ID; lia|unfold META_PAGE_ID; lia| |].
    + intros Ef El. apply wpe_ret. split; [exact Hinv|split; [intros q; reflexivity|split; [reflexivity|split; [reflexivity|]]]].
      intros Hz. rewrite (nz_false true tr Hinv Ef El) in Hz. discriminate.
    + intros f tr1 Hinv1 Hv1 _ Hh1 Hnp1 Hr1 Hps1. apply wpe_page_of, wpe_modify_bind.
      assert (Hd : data (frame (bpm tr1) f) = views tr META_PAGE_ID)
        by (rewrite <- (Hv1 META_PAGE_ID); exact (eq_sym (view_holds _ _ _ Hh1))).
      rewrite Hd. apply (wpe_unpin true _ [] META_PAGE_ID false).
      * split; [exact (proj1 Hinv1)|]. unfold root_ok. cbn [root_page_id_ set_root bpm].
        rewrite Hnp1. apply Hm. lia.
      * discriminate.
      * intros tr2 Hinv2 Hv2 _ Hnp2 Hr2 Hps2. apply wpe_ret.
        split; [exact Hinv2|split; [intros q; rewrite Hv2; apply Hv1|]].
        split; [rewrite Hnp2; exact Hnp1|split; [rewrite Hps2; exact Hps1|]].
        intros _. rewrite Hr2, decide_True by lia. reflexivity.
  - apply wpe_ret. split; [exact Hinv|split; [intros q; reflexivity|split; [reflexivity|split; [reflexivity|]]]].
    intros _. rewrite decide_False by lia. exact Hr.
Qed.

(** ** Sessions *)

Lemma search_v_ext V V' h fuel k r : (forall q, V' q = V q) ->
  search_v V' h fuel k r = search_v V h fuel k r.
Proof. intros HV. unfold search_v. rewrite (find_leaf_v_ext V V') by exact HV.
  destruct (find_leaf_v V h fuel k r) as [[p|]|]; [rewrite HV|..]; reflexivity. Qed.

Lemma scan_v_ext V V' h fuel a b r : (forall q, V' q = V q) ->
  scan_v V' h fuel a b r = scan_v V h fuel a b r.
Proof. intros HV. unfold scan_v. rewrite (find_leaf_v_ext V V') by exact HV.
  destruct (find_leaf_v V h fuel a r) as [[p|]|]; [rewrite (scan_loop_v_ext V V') by exact HV|..]; reflexivity. Qed.



Lemma open_empty_ok ps u tr : open_store ps ∅ = Ok u tr -> sinv ps tr.
Proof.
  intros E. unfold open_store, create in E.
  destruct (create_pool_ok ps ∅ 0 ltac:(lia)) as (Hok0 & Hnp0 & Hv0).
  { intros q. rewrite lookup_empty. split; [intros [? H]; discriminate|lia]. }
  { intros q. apply refs_zero. lia. }
  set (tr0 := BPlusTree.mk (BufferPoolManager.create ps (DiskManager.Open ∅)) INVALID_PAGE_ID) in E.
  assert (Hinv0 : tinv true tr0 []) by (split; [exact Hok0|left; reflexivity]).
  assert (Hz : np (bpm tr0) = 0) by exact Hnp0.
  destruct (wpe_run _ _ _ _ _ _ (LoadMetaPage_ok tr0 Hinv0 eq_refl ltac:(intros H; exfalso; lia)) E)
    as (Hinv & _ & Hnp & Hps & _).
  split; [exact Hinv|split; [rewrite Hps; reflexivity|intros _; rewrite Hnp; exact Hz]].
Qed.

Lemma run_op_ok ps fuel o tr r tr' : sinv ps tr -> run_op fuel o tr = Ok r tr' -> sinv ps tr'.
Proof.
  intros (Hinv & Hps & Hr) E. destruct o as [k v|k|k|a b]; cbn [run_op] in E; unfold bind, ret in E.
  - destruct (Insert fuel k v tr) as [r0 tr1|e] eqn:E1; [|discriminate]. injection E as _ <-.
    destruct (wpe_run _ _ _ _ _ _ (Insert_ok fuel k v tr Hinv) E1) as (Hinv1 & (_ & _ & Hps1 & _) & Hr1).
    split; [exact Hinv1|split; [congruence|intros Hc; contradiction]].
  - destruct (Remove fuel k tr) as [r0 tr1|e] eqn:E1; [|discriminate]. injection E as _ <-.
    destruct (wpe_run _ _ _ _ _ _ (Remove_ok fuel k tr Hinv) E1) as (Hinv1 & Hr1 & Hnp1 & Hps1 & _).
    split; [exact Hinv1|split; [congruence|intros Hc; rewrite Hnp1; apply Hr; congruence]].
  - destruct (Search fuel k tr) as [r0 tr1|e] eqn:E1; [|discriminate]. injection E as _ <-.
    destruct (wpe_run _ _ _ _ _ _ (Search_e fuel k tr Hinv) E1) as (_ & Hinv1 & _ & Hr1 & Hnp1 & Hps1).
    split; [exact Hinv1|split; [congruence|intros Hc; rewrite Hnp1; apply Hr; congruence]].
  - destruct (Scan fuel a b tr) as [r0 tr1|e] eqn:E1; [|discriminate]. injection E as _ <-.
    destruct (wpe_run _ _ _ _ _ _ (Scan_e fuel a b tr Hinv) E1) as (_ & Hinv1 & _ & Hr1 & Hnp1 & Hps1).
    split; [exact Hinv1|split; [congruence|intros Hc; rewrite Hnp1; apply Hr; congruence]].
Qed.

Lemma run_ops_ok ps fuel ops : forall tr rs tr', sinv ps tr -> run_ops fuel ops tr = Ok rs tr' -> sinv ps tr'.
Proof.
  induction ops as [|o ops IH]; intros tr rs tr' Hs E; cbn [run_ops] in E; unfold bind, ret in E.
  - injection E as _ <-. exact Hs.
  - destruct (run_op fuel o tr) as [r tr1|e] eqn:E1; [|discriminate].
    destruct (run_ops fuel ops tr1) as [rs1 tr2|e] eqn:E2; [|discriminate]. injection E as _ <-.
    exact (IH tr1 rs1 tr2 (run_op_ok ps fuel o tr r tr1 Hs E1) E2).
Qed.

Lemma session_ok ps fuel ops rs tr : session ps fuel ∅ ops = Ok rs tr -> sinv ps tr.
Proof.
  unfold session. destruct (open_store ps ∅) as [u tr0|e] eqn:E0; [|discriminate].
  apply (run_ops_ok ps fuel ops tr0). exact (open_empty_ok ps u tr0 E0).
Qed.



(** *** Remove, read off the pages *)

(** The leaf [d] after [Remove] overwrote the value of entry [idx] with zeros. *)
Definition tomb (d : PageData) (idx : Z) : PageData :=
  set_entries (arr_set zero_entry (entries d) idx (mkLeafEntry (key (entry_at d idx)) zero_value)) d.

Lemma nth_repeat_app {A} (d x : A) n m :
  nth m (repeat d n ++ [x]) d = if decide (m = n) then x else d.
Proof.
  revert m. induction n as [|n IH]; intros [|m]; cbn [repeat app nth].
  - rewrite decide_True by reflexivity. reflexivity.
  - rewrite decide_False by lia. destruct m; reflexivity.
  - rewrite decide_False by lia. reflexivity.
  - rewrite IH. destruct (decide (m = n)), (decide (S m = S n)); try reflexivity; exfalso; lia.
Qed.

Lemma arr_get_set {A} (d : A) l i j x :
  arr_get d (arr_set d l i x) j = if decide (Z.to_nat j = Z.to_nat i) then x else arr_get d l j.
Proof.
  unfold arr_get, arr_set. generalize (Z.to_nat i) as n. generalize (Z.to_nat j) as m. clear i j.
  induction l as [|a l IH]; intros m n.
  - cbn [length]. rewrite decide_False by lia. rewrite Nat.sub_0_r. cbn [app].
    rewrite nth_repeat_app. destruct m; reflexivity.
  - assert (Hc : (if decide (n < length (a :: l))%nat then <[n:=x]> (a :: l)
                  else (a :: l) ++ repeat d (n - length (a :: l)) ++ [x]) =
                 match n with
                 | O => x :: l
                 | S n' => a :: (if decide (n' < length l)%nat then <[n':=x]> l
                                 else l ++ repeat d (n' - length l) ++ [x])
                 end).
    { destruct n as [|n']; cbn [length]; [rewrite decide_True by lia; reflexivity|].
      destruct (decide (n' < length l)%nat); [rewrite decide_True by lia|rewrite decide_False by lia];
        reflexivity. }
    rewrite Hc. destruct n as [|n'], m as [|m']; cbn [nth].
    + rewrite decide_True by reflexivity. reflexivity.
    + rewrite decide_False by lia. reflexivity.
    + rewrite decide_False by lia. reflexivity.
    + rewrite IH. destruct (decide (m' = n')), (decide (S m' = S n')); try reflexivity; exfalso; lia.
Qed.

Lemma entry_at_tomb d idx i : entry_at (tomb d idx) i =
  if decide (Z.to_nat i = Z.to_nat idx) then mkLeafEntry (key (entry_at d idx)) zero_value else entry_at d i.
Proof. unfold entry_at at 1. unfold tomb. cbn [entries set_entries]. apply arr_get_set. Qed.

Lemma tomb_keys d idx i : key (entry_at (tomb d idx) i) = key (entry_at d i).
Proof.
  rewrite entry_at_tomb. case_decide as E; [|reflexivity].
  cbn [key]. unfold entry_at, arr_get. rewrite E. reflexivity.
Qed.

Lemma leaf_bsearch_ext fuel d d' k lo hi : (forall i, key (entry_at d' i) = key (entry_at d i)) ->
  leaf_bsearch fuel d' k lo hi = leaf_bsearch fuel d k lo hi.
Proof.
  intros H. revert lo hi. induction fuel as [|n IH]; intros lo hi; cbn [leaf_bsearch]; [reflexivity|].
  rewrite H. destruct (decide (lo < hi)); [|reflexivity]. destruct (decide _); apply IH.
Qed.

Lemma LeafFindKey_tomb d idx k' : LeafFindKey (tomb d idx) k' = LeafFindKey d k'.
Proof. unfold LeafFindKey. apply leaf_bsearch_ext, tomb_keys. Qed.

Lemma descend_v_upd V p d' fuel k r : page_type (V p) <> PT_INTERNAL -> page_type d' = page_type (V p) ->
  descend_v (fun q => if decide (q = p) then d' else V q) fuel k r = descend_v V fuel k r.
Proof.
  intros Hp Ht. revert r. induction fuel as [|n IH]; intros r; cbn [descend_v]; [reflexivity|].
  destruct (decide (r = p)) as [->|Hr].
  - rewrite Ht, !decide_False by exact Hp. reflexivity.
  - destruct (decide (page_type (V r) = PT_INTERNAL)); [|reflexivity].
    destruct (decide (InternalFindChild (V r) k < 0)); [reflexivity|]. apply IH.
Qed.

(** What [Remove(k)] answers, read off the pages: [false] on an empty
    store or when the slot [LeafFindKey] finds in the leaf reached does not
    hold key [k]; [true] when it does, whatever its value. *)
Definition remove_v (V : Z -> PageData) (has_frame : bool) (fuel : nat) (k root : Z) : option bool :=
  if decide (root = INVALID_PAGE_ID) then Some false
  else match find_leaf_v V has_frame fuel k root with
       | None => None
       | Some None => Some false
       | Some (Some p) =>
           let d := V p in
           let idx := LeafFindKey d k in
           Some (negb (bool_decide (idx >= num_keys d \/ key (entry_at d idx) <> k)))
       end.

Lemma wpe_write_e {B} tr P f p upd E (K : unit -> M BPlusTree.t B) Q :
  tinv false tr P -> holds (bpm tr) f p -> p ∈ P ->
  refs_below (Z.max (np (bpm tr)) 1) (upd (data (frame (bpm tr) f))) ->
  (tinv false (wstate f upd tr) P -> wpe (K tt) E Q (wstate f upd tr)) ->
  wpe (bind (write_page f upd) K) E Q tr.
Proof. intros Hinv Hh HP Hr HK. apply HK, (write_tinv tr P f p upd Hinv Hh HP Hr). Qed.

Lemma remove_v_ext V V' h fuel k root : (forall q, V' q = V q) ->
  remove_v V' h fuel k root = remove_v V h fuel k root.
Proof.
  intros H. unfold remove_v. rewrite (find_leaf_v_ext V V') by exact H.
  destruct (find_leaf_v V h fuel k root) as [[p|]|]; rewrite ?H; reflexivity.
Qed.

Lemma Remove_e fuel k tr : tinv true tr [] ->
  wpe (Remove fuel k) (remove_v (views tr) (nz tr) fuel k (root_page_id_ tr) = None)
    (fun r tr' => remove_v (views tr) (nz tr) fuel k (root_page_id_ tr) = Some r /\
       tinv true tr' [] /\ root_page_id_ tr' = root_page_id_ tr /\ pool_size_ (bpm tr') = pool_size_ (bpm tr) /\
       (r = true -> exists p, find_leaf_v (views tr) (nz tr) fuel k (root_page_id_ tr) = Some (Some p) /\
          forall q, views tr' q = if decide (q = p) then tomb (views tr p) (LeafFindKey (views tr p) k) else views tr q)) tr.
Proof.
  intros Hinv. unfold Remove. apply wpe_get_bind. case_decide as Hr.
  { apply wpe_ret. unfold remove_v. rewrite decide_True by exact Hr.
    split; [reflexivity|split; [exact Hinv|split; [reflexivity|split; [reflexivity|discriminate]]]]. }
  apply wpe_bind. eapply wpe_mono; [| |apply (FindLeafPage_e fuel k tr Hinv)].
  { intros Hn. unfold remove_v. rewrite decide_False by exact Hr. rewrite Hn. reflexivity. }
  intros [f|] tr1 [(Hv1 & Hr1 & Hnp1 & Hps1) Hfl].
  - destruct Hfl as (p & Hfl & Hinv1 & Hh1). apply wpe_page_of, wpe_pid_of.
    rewrite (pid_holds _ _ _ _ _ Hinv1 Hh1).
    assert (Hd : views tr p = data (frame (bpm tr1) f))
      by (rewrite <- (Hv1 p); exact (view_holds _ _ _ Hh1)).
    set (d := data (frame (bpm tr1) f)) in *.
    assert (Hrv : remove_v (views tr) (nz tr) fuel k (root_page_id_ tr) =
                  Some (negb (bool_decide (LeafFindKey d k >= num_keys d \/ key (entry_at d (LeafFindKey d k)) <> k)))).
    { unfold remove_v. rewrite decide_False by exact Hr. rewrite Hfl. cbv zeta. rewrite Hd. reflexivity. }
    destruct (decide (LeafFindKey d k >= num_keys d \/ key (entry_at d (LeafFindKey d k)) <> k)) as [Hk|Hk].
    + apply (wpe_unpin true tr1 [] p false); [exact Hinv1|discriminate|].
      intros tr2 Hinv2 Hv2 _ Hnp2 Hr2 Hps2. apply wpe_ret.
      split; [rewrite Hrv, bool_decide_true by exact Hk; reflexivity|].
      split; [exact Hinv2|split; [congruence|split; [congruence|discriminate]]].
    + pose proof (tinv_weaken _ _ _ Hinv1) as Hw.
      apply (wpe_write_e tr1 [p] f p); [exact Hw|exact Hh1|left|refs_keep|]. intros Hinv2.
      apply (wpe_unpin false _ [] p true); [exact Hinv2|reflexivity|].
      intros tr3 [Hok3 Hroot3] Hv3 _ Hnp3 Hr3 Hps3. apply wpe_ret.
      split; [rewrite Hrv, bool_decide_false by exact Hk; reflexivity|].
      split; [split; [apply pool_ok_strict, Hok3|exact Hroot3]|].
      split; [rewrite Hr3; exact Hr1|split; [rewrite Hps3; exact Hps1|]].
      intros _. exists p. rewrite Hd. split; [exact Hfl|].
      intros q. rewrite Hv3. unfold views at 1. rewrite (write_view tr1 [p] f p _ Hw Hh1 q).
      destruct (decide (q = p)) as [->|Hq].
      * rewrite (view_holds _ _ _ Hh1). reflexivity.
      * exact (Hv1 q).
  - destruct Hfl as (Hfl & Hinv1). apply wpe_ret.
    split; [unfold remove_v; rewrite decide_False by exact Hr; rewrite Hfl; reflexivity|].
    split; [exact Hinv1|split; [exact Hr1|split; [exact Hps1|discriminate]]].
Qed.

(** Zeroing the value of the entry [Remove] found keeps the key, so the
    pages still make [Remove(k)] answer [true]. *)
Lemma remove_v_tomb V h fuel k root p :
  remove_v V h fuel k root = Some true -> find_leaf_v V h fuel k root = Some (Some p) ->
  remove_v (fun q => if decide (q = p) then tomb (V p) (LeafFindKey (V p) k) else V q) h fuel k root = Some true.
Proof.
  intros H Hfl. pose proof (find_leaf_v_leaf _ _ _ _ _ _ Hfl) as Hleaf.
  unfold remove_v in *. destruct (decide (root = INVALID_PAGE_ID)); [discriminate|].
  assert (HF : find_leaf_v (fun q => if decide (q = p) then tomb (V p) (LeafFindKey (V p) k) else V q) h fuel k root =
               find_leaf_v V h fuel k root).
  { unfold find_leaf_v. rewrite descend_v_upd by (exact Hleaf || reflexivity). reflexivity. }
  rewrite HF, Hfl. rewrite Hfl in H. cbv zeta in *. rewrite decide_True by reflexivity.
  rewrite LeafFindKey_tomb, tomb_keys. change (num_keys (tomb (V p) (LeafFindKey (V p) k))) with (num_keys (V p)).
  exact H.
Qed.

(** C2 (amended).  In a store built by a session on an empty file,
    [Remove(k)] answers [true] only when some leaf page holds an entry with
    key [k], live or a tombstone (zeroed value), and the entry stays as a
    tombstone: a second [Remove(k)] on the resulting store answers [true]
    again.  When no leaf page holds an entry with key [k], it answers
    [false] and leaves the contents of every page and the root unchanged. *)
Theorem remove_absent ps fuel ops rs tr k r tr' :
  session ps fuel ∅ ops = Ok rs tr -> Remove fuel k tr = Ok r tr' ->
  (r = true -> (exists q, page_type (Observe.view_page (bpm tr) q) <> PT_INTERNAL /\
                          leaf_has_key (Observe.view_page (bpm tr) q) k) /\
               exists tr'', Remove fuel k tr' = Ok true tr'') /\
  ((forall q, page_type (Observe.view_page (bpm tr) q) <> PT_INTERNAL ->
              ~ leaf_has_key (Observe.view_page (bpm tr) q) k) ->
   r = false /\ (forall q, Observe.view_page (bpm tr') q = Observe.view_page (bpm tr) q) /\
   root_page_id_ tr' = root_page_id_ tr).
Proof.
  intros Es Er. destruct (session_ok _ _ _ _ _ Es) as (Hinv & _).
  destruct (wpe_run _ _ _ _ _ _ (Remove_ok fuel k tr Hinv) Er) as (_ & Hr & _ & _ & Ht & Hf).
  split.
  - intros ->. split; [exact (Ht eq_refl)|].
    destruct (wpe_run _ _ _ _ _ _ (Remove_e fuel k tr Hinv) Er) as (Hrv & Hinv' & Hr' & Hps' & Htb).
    destruct (Htb eq_refl) as (p & Hfl & Hv).
    assert (Hrv' : remove_v (views tr') (nz tr') fuel k (root_page_id_ tr') = Some true).
    { assert (Hnz : nz tr' = nz tr) by (unfold nz; rewrite Hps'; reflexivity).
      rewrite Hnz, Hr', (remove_v_ext _ (views tr') _ _ _ _ Hv).
      exact (remove_v_tomb _ _ _ _ _ _ Hrv Hfl). }
    destruct (Remove fuel k tr') as [r2 tr2|e] eqn:E2.
    + exists tr2. destruct (wpe_run _ _ _ _ _ _ (Remove_e fuel k tr' Hinv') E2) as (H2 & _).
      rewrite Hrv' in H2. injection H2 as <-. reflexivity.
    + exfalso. pose proof (wpe_run_err _ _ _ _ _ (Remove_e fuel k tr' Hinv') E2) as H2.
      rewrite Hrv' in H2. discriminate.
  - intros Hno. destruct r.
    + exfalso. destruct (Ht eq_refl) as (q & Hq & Hk). exact (Hno q Hq Hk).
    + split; [reflexivity|split; [exact (Hf eq_refl)|exact Hr]].
Qed.

(** Removing the tombstoned key 2 of [demo_store] answers [true], and a
    second [Remove(2)] answers [true] again. *)
Lemma remove_absent_witness :
  (exists q, page_type (Observe.view_page (bpm demo_store) q) <> PT_INTERNAL /\
             leaf_has_key (Observe.view_page (bpm demo_store) q) 2) /\
  exists tr'', Remove 16 2 (ok_state (Remove 16 2 demo_store) demo_store) = Ok true tr''.
Proof.
  apply (proj1 (remove_absent 4 16 demo_ops (ok_value demo_session []) demo_store 2 true
                  (ok_state (Remove 16 2 demo_store) demo_store)
                  ltac:(vm_compute; reflexivity) ltac:(vm_compute; reflexivity)) eq_refl).
Defined.



(** C8 (amended).  Every pool operation that does not fetch an unallocated
    page keeps the free list the complement of the page table and the LRU
    list the unpinned resident frames; and between the operations of a
    session on an empty file these invariants hold and every resident frame
    has pin count 0. *)
Theorem pool_and_pin_invariants :
  (forall o b u b', bpm_wf b -> fetch_in_range b o -> run_pool_op o b = Ok u b' ->
     bpm_wf b' /\ frames_consistent b') /\
  (forall ps fuel ops rs tr, session ps fuel ∅ ops = Ok rs tr ->
     bpm_wf (bpm tr) /\ frames_consistent (bpm tr) /\
     forall p f, page_table_ (bpm tr) !! p = Some f -> pin_count (frame (bpm tr) f) = 0).
Proof.
  split; [exact pool_invariants|].
  intros ps fuel ops rs tr E. destruct (session_ok _ _ _ _ _ E) as ([Hok _] & _).
  pose proof (po_wf _ _ _ Hok) as Hwf.
  split; [exact Hwf|split; [exact (wf_frames_consistent _ Hwf)|]].
  intros p f Hp. pose proof (po_pins _ _ _ Hok p) as Hpin. unfold pin_of in Hpin. rewrite Hp in Hpin. exact Hpin.
Qed.

(** The invariants at the end of the session of [demo_store]. *)
Lemma pool_and_pin_invariants_witness :
  bpm_wf (bpm demo_store) /\ frames_consistent (bpm demo_store) /\
  forall p f, page_table_ (bpm demo_store) !! p = Some f -> pin_count (frame (bpm demo_store) f) = 0.
Proof.
  apply (proj2 pool_and_pin_invariants 4%nat 16%nat demo_ops (ok_value demo_session []) demo_store).
  vm_compute. reflexivity.
Defined.

End TreeProofs.

(* ================================================================== *)
(** ** The page count and the root over the tree procedures *)

Module TreeMono.

Import BufferPoolManager BPlusTree Wp PoolInv.
Local Open Scope Z_scope.

(** The disk manager's page count never decreases. *)
Definition np_grows (b b' : BufferPoolManager.t) : Prop := np b <= np b'.

Lemma FindVictimPage_np b : wp FindVictimPage (fun _ b' => np b' = np b) b.
Proof.
  unfold wp, FindVictimPage. destruct (free_list_ b); [|reflexivity].
  destruct (pop_back_victim _ _) as [[f|] rest]; reflexivity.
Qed.

Lemma evict_victim_np f b : wp (evict_victim f) (fun _ b' => np b' = np b) b.
Proof.
  unfold evict_victim. apply wp_bind, wp_get. case_decide; [|apply wp_ret; reflexivity].
  apply wp_bind. destruct (is_dirty _).
  - apply wp_zoom. unfold wp at 1, DiskManager.WritePage. case_decide; [exact I|].
    apply wp_modify. reflexivity.
  - apply wp_ret, wp_modify. reflexivity.
Qed.

Lemma FetchPage_np p b : wp (FetchPage p) (fun _ b' => np b' = np b) b.
Proof.
  unfold FetchPage. apply wp_bind, wp_get. destruct (page_table_ b !! p) as [f|].
  - apply wp_bind, wp_modify, wp_bind, wp_modify, wp_ret.
    case_decide; reflexivity.
  - apply wp_bind. eapply wp_mono; [|apply FindVictimPage_np]. intros g b1 E1; cbv beta in E1.
    apply wp_bind, wp_get. case_decide; [apply wp_ret; exact E1|].
    apply wp_bind. eapply wp_mono; [|apply evict_victim_np]. intros ? b2 E2; cbv beta in E2.
    apply wp_bind, wp_modify, wp_bind, wp_zoom. unfold wp at 1, DiskManager.ReadPage.
    case_decide; [exact I|]. apply wp_bind, wp_modify, wp_bind, wp_modify, wp_ret.
    unfold np, update_frame in *; cbn in *. congruence.
Qed.

Lemma UnpinPage_np p dirty b : wp (UnpinPage p dirty) (fun _ b' => np b' = np b) b.
Proof.
  unfold wp. rewrite PoolProofs.UnpinPage_eq. destruct (page_table_ b !! p); [|reflexivity].
  case_decide; [reflexivity|]. unfold PoolProofs.unpin_state. case_decide; reflexivity.
Qed.

Lemma NewPage_np b : 0 <= np b ->
  wp NewPage (fun o b' => np b <= np b' /\ forall f p, o = Some (f, p) -> 0 <= p) b.
Proof.
  intros Hnp. unfold NewPage. apply wp_bind.
  eapply wp_mono; [|apply FindVictimPage_np]. intros g b1 E1; cbv beta in E1.
  apply wp_bind, wp_get. case_decide; [apply wp_ret; split; [lia|discriminate]|].
  apply wp_bind. eapply wp_mono; [|apply evict_victim_np]. intros ? b2 E2; cbv beta in E2.
  apply wp_bind, wp_zoom. unfold wp at 1, DiskManager.AllocatePage.
  apply wp_bind, wp_modify, wp_bind, wp_modify, wp_ret. unfold np, update_frame in *; cbn in *.
  split; [lia|]. intros f p Hfp. injection Hfp as <- <-. lia.
Qed.

(** The tree-level relation kept by every tree procedure: the page count
    does not decrease, and the root is either kept or set to a page id. *)
Definition grows (tr tr' : BPlusTree.t) : Prop :=
  np (bpm tr) <= np (bpm tr') /\
  (root_page_id_ tr' = root_page_id_ tr \/ 0 <= root_page_id_ tr').

Definition mono {A} (m : M BPlusTree.t A) : Prop :=
  forall tr, 0 <= np (bpm tr) -> wp m (fun _ tr' => grows tr tr') tr.

Lemma grows_refl tr : grows tr tr.
Proof. split; [lia|left; reflexivity]. Qed.

Lemma grows_trans tr1 tr2 tr3 : grows tr1 tr2 -> grows tr2 tr3 -> grows tr1 tr3.
Proof. intros [H1 R1] [H2 R2]. split; [lia|]. destruct R2 as [->|R2]; [exact R1|right; exact R2]. Qed.

Lemma mono_ret {A} (a : A) : mono (ret a).
Proof. intros tr _. apply wp_ret, grows_refl. Qed.

Lemma mono_throw {A} e : mono (A := A) (throw e).
Proof. intros tr _. apply wp_throw. Qed.

Lemma mono_bind {A B} (m : M BPlusTree.t A) (k : A -> M BPlusTree.t B) :
  mono m -> (forall a, mono (k a)) -> mono (bind m k).
Proof.
  intros Hm Hk tr Hnp. apply wp_bind. eapply wp_mono; [|apply Hm, Hnp].
  intros a tr1 G1. cbv beta in G1. eapply wp_mono; [|apply Hk; destruct G1 as [G1 _]; lia].
  intros b tr2 G2. cbv beta in G2. eapply grows_trans; eassumption.
Qed.

Lemma mono_bind_get {B} (k : BPlusTree.t -> M BPlusTree.t B) :
  (forall tr, mono (k tr)) -> mono (bind get k).
Proof. intros Hk. apply mono_bind; [|exact Hk]. intros tr _. apply wp_get, grows_refl. Qed.

Lemma mono_write_page f u : mono (write_page f u).
Proof. intros tr _. apply wp_modify. split; [reflexivity|left; reflexivity]. Qed.

Lemma mono_page_of f : mono (page_of f).
Proof. intros tr _. apply wp_ret, grows_refl. Qed.

Lemma mono_pid_of f : mono (pid_of f).
Proof. intros tr _. apply wp_ret, grows_refl. Qed.

Lemma mono_deref {A} (o : option A) : mono (deref o).
Proof. destruct o; [apply mono_ret|apply mono_throw]. Qed.

Lemma mono_pool {A} (m : M BufferPoolManager.t A) :
  (forall b, wp m (fun _ b' => np b' = np b) b) -> mono (pool m).
Proof.
  intros Hm tr _. apply wp_zoom. eapply wp_mono; [|apply Hm].
  intros a b' E. cbv beta in E. split; [cbn; lia|left; reflexivity].
Qed.

Lemma mono_bind_NewPage {B} (k : option (nat * Z) -> M BPlusTree.t B) :
  (forall o, (forall f p, o = Some (f, p) -> 0 <= p) -> mono (k o)) -> mono (bind (pool NewPage) k).
Proof.
  intros Hk tr Hnp. apply wp_bind, wp_zoom. eapply wp_mono; [|apply NewPage_np, Hnp].
  intros o b' Hob. destruct Hob as [Hb Ho]. eapply wp_mono; [|apply Hk; [exact Ho|cbn; lia]].
  intros r tr2 G. cbv beta in G. eapply grows_trans; [|exact G]. split; [cbn; lia|left; reflexivity].
Qed.

Lemma mono_set_root p : 0 <= p -> mono (modify (set_root p)).
Proof. intros Hp tr _. apply wp_modify. split; [reflexivity|right; exact Hp]. Qed.

Lemma mono_for_loop n lo body : (forall i, mono (body i)) -> mono (for_loop n lo body).
Proof.
  intros Hb. revert lo. induction n as [|n IH]; intros lo; simpl; [apply mono_ret|].
  apply mono_bind; [apply Hb|intros _; apply IH].
Qed.

Create HintDb mono.
#[local] Hint Resolve mono_ret mono_throw mono_write_page mono_page_of mono_pid_of mono_deref
  mono_for_loop : mono.
#[local] Hint Resolve FetchPage_np UnpinPage_np : mono.

Ltac mono_step :=
  match goal with
  | |- mono (bind get _) => apply mono_bind_get; intros ?
  | |- mono (bind (pool NewPage) _) => apply mono_bind_NewPage; intros ? ?
  | |- mono (bind _ _) => apply mono_bind; [|intros ?]
  | |- mono (pool _) => apply mono_pool; intros ?
  | |- mono (for_loop _ _ _) => apply mono_for_loop; intros ?
  | |- mono (if _ then _ else _) => case_decide
  | |- mono (match ?x with _ => _ end) => destruct x
  | |- mono (let '(_, _) := ?x in _) => destruct x
  | |- _ => solve [eauto with mono]
  end.
Lemma LeafInsert_mono f k v : mono (LeafInsert f k v).
Proof. unfold LeafInsert. repeat mono_step. Qed.

Lemma InternalInsert_mono f k c : mono (InternalInsert f k c).
Proof. unfold InternalInsert. repeat mono_step. Qed.

Lemma UpdateMetaPage_mono : mono UpdateMetaPage.
Proof. unfold UpdateMetaPage. repeat mono_step. Qed.

Lemma descend_mono fuel k f : mono (descend fuel k f).
Proof. revert f. induction fuel as [|n IH]; intros f; simpl; repeat mono_step. Qed.

Lemma FindLeafPage_mono fuel k : mono (FindLeafPage fuel k).
Proof. unfold FindLeafPage. repeat mono_step; apply descend_mono. Qed.

Lemma Search_mono fuel k : mono (Search fuel k).
Proof. unfold Search. repeat mono_step; apply FindLeafPage_mono. Qed.

Lemma bind_ret_l {S A B} (a : A) (k : A -> M S B) : bind (ret a) k = k a.
Proof. reflexivity. Qed.

Lemma mono_bind_throw {A B} e (k : A -> M BPlusTree.t B) : mono (bind (throw e) k).
Proof. intros tr _. exact I. Qed.

Lemma CreateNewRoot_mono fl k fr : mono (CreateNewRoot fl k fr).
Proof.
  unfold CreateNewRoot. apply mono_bind_NewPage. intros o Ho.
  destruct o as [[f p]|]; [|apply mono_bind_throw].
  specialize (Ho f p eq_refl). cbn [deref]. rewrite bind_ret_l.
  repeat mono_step. apply mono_set_root, Ho. apply UpdateMetaPage_mono.
Qed.
Ltac mono_new :=
  apply mono_bind_NewPage; let o := fresh "o" in let Ho := fresh "Ho" in intros o Ho;
  destruct o as [[? ?]|]; cbn [deref]; [rewrite bind_ret_l|apply mono_bind_throw].

Lemma mono_pool_NewPage : mono (pool NewPage).
Proof.
  intros tr Hnp. apply wp_zoom. eapply wp_mono; [|apply NewPage_np, Hnp].
  intros o b' Hob. destruct Hob as [Hb _]. split; [cbn; lia|left; reflexivity].
Qed.

Lemma SplitLeaf_mono iip f k v : (forall a b c, mono (iip a b c)) -> mono (SplitLeaf iip f k v).
Proof.
  intros Hiip. unfold SplitLeaf. apply mono_bind; [apply mono_page_of|intros old].
  mono_new. repeat mono_step.
Qed.

Lemma SplitInternal_mono iip f k c : (forall a b c, mono (iip a b c)) -> mono (SplitInternal iip f k c).
Proof.
  intros Hiip. unfold SplitInternal. apply mono_bind; [apply mono_page_of|intros old].
  mono_new. repeat mono_step.
Qed.

Lemma InsertIntoParent_mono fuel fl k fr : mono (InsertIntoParent fuel fl k fr).
Proof.
  revert fl k fr. induction fuel as [|n IH]; intros fl k fr; simpl; [apply mono_throw|].
  repeat mono_step.
  - apply CreateNewRoot_mono.
  - apply InternalInsert_mono.
  - apply SplitInternal_mono, IH.
Qed.
Lemma Remove_mono fuel k : mono (Remove fuel k).
Proof. unfold Remove. repeat mono_step; apply FindLeafPage_mono. Qed.

Lemma scan_loop_mono fuel a b f r : mono (scan_loop fuel a b f r).
Proof. revert f r. induction fuel as [|n IH]; intros f r; simpl; repeat mono_step. Qed.

Lemma Scan_mono fuel a b : mono (Scan fuel a b).
Proof. unfold Scan. repeat mono_step; [apply FindLeafPage_mono|apply scan_loop_mono]. Qed.

(** [grows] with a root that is set. *)
Definition mono_ne {A} (m : M BPlusTree.t A) : Prop :=
  forall tr, 0 <= np (bpm tr) ->
    wp m (fun _ tr' => grows tr tr' /\ root_page_id_ tr' <> INVALID_PAGE_ID) tr.

Lemma mono_ne_bind_l {A B} (m : M BPlusTree.t A) (k : A -> M BPlusTree.t B) :
  mono_ne m -> (forall a, mono (k a)) -> mono_ne (bind m k).
Proof.
  intros Hm Hk tr Hnp. apply wp_bind. eapply wp_mono; [|apply Hm, Hnp].
  intros a tr1 G1. cbv beta in G1. destruct G1 as [G1 Hr1].
  eapply wp_mono; [|apply Hk; destruct G1 as [G1 _]; lia].
  intros b tr2 G2. cbv beta in G2. split; [eapply grows_trans; eassumption|].
  destruct G2 as [_ [->|G2]]; [exact Hr1|unfold INVALID_PAGE_ID; lia].
Qed.

Lemma mono_ne_bind_r {A B} (m : M BPlusTree.t A) (k : A -> M BPlusTree.t B) :
  mono m -> (forall a, mono_ne (k a)) -> mono_ne (bind m k).
Proof.
  intros Hm Hk tr Hnp. apply wp_bind. eapply wp_mono; [|apply Hm, Hnp].
  intros a tr1 G1. cbv beta in G1.
  eapply wp_mono; [|apply Hk; destruct G1 as [G1 _]; lia].
  intros b tr2 G2. cbv beta in G2. destruct G2 as [G2 Hr2].
  split; [eapply grows_trans; eassumption|exact Hr2].
Qed.

Lemma mono_ne_bind_NewPage {B} (k : option (nat * Z) -> M BPlusTree.t B) :
  (forall o, (forall f p, o = Some (f, p) -> 0 <= p) -> mono_ne (k o)) ->
  mono_ne (bind (pool NewPage) k).
Proof.
  intros Hk tr Hnp. apply wp_bind, wp_zoom. eapply wp_mono; [|apply NewPage_np, Hnp].
  intros o b' Hob. destruct Hob as [Hb Ho]. eapply wp_mono; [|apply Hk; [exact Ho|cbn; lia]].
  intros r tr2 G. cbv beta in G. destruct G as [G Hr]. split; [|exact Hr].
  eapply grows_trans; [|exact G]. split; [cbn; lia|left; reflexivity].
Qed.

Lemma mono_ne_bind_throw {A B} e (k : A -> M BPlusTree.t B) : mono_ne (bind (throw e) k).
Proof. intros tr _. exact I. Qed.

Lemma mono_ne_bind_set_root {B} p (k : unit -> M BPlusTree.t B) :
  0 <= p -> (forall u, mono (k u)) -> mono_ne (bind (modify (set_root p)) k).
Proof.
  intros Hp Hk. apply mono_ne_bind_l; [|exact Hk].
  intros tr _. apply wp_modify. split; [split; [reflexivity|right; exact Hp]|].
  cbn. unfold INVALID_PAGE_ID. lia.
Qed.

Lemma Insert_sets_root fuel k v : mono_ne (Insert fuel k v).
Proof.
  intros tr Hnp. unfold Insert. apply wp_bind, wp_get. case_decide as Hr.
  - match goal with |- wp ?m _ _ => assert (mono_ne m) as Hm end; [|apply Hm, Hnp].
    apply mono_ne_bind_r; [apply mono_pool_NewPage|intros om].
    apply mono_ne_bind_r; [repeat mono_step|intros ?].
    apply mono_ne_bind_NewPage. intros o Ho.
    destruct o as [[f p]|]; cbn [deref]; [rewrite bind_ret_l|apply mono_ne_bind_throw].
    cbn iota. apply mono_ne_bind_set_root; [exact (Ho f p eq_refl)|intros ?].
    repeat mono_step; first [apply LeafInsert_mono | apply UpdateMetaPage_mono].
  - match goal with |- wp ?m _ _ => assert (mono m) as Hm end.
    { repeat mono_step; first [apply FindLeafPage_mono | apply LeafInsert_mono
                              | apply SplitLeaf_mono, InsertIntoParent_mono]. }
    eapply wp_mono; [|apply Hm, Hnp]. intros a tr' G. cbv beta in G. split; [exact G|].
    destruct G as [_ [->|G]]; [exact Hr|unfold INVALID_PAGE_ID; lia].
Qed.

Lemma mono_ne_mono {A} (m : M BPlusTree.t A) : mono_ne m -> mono m.
Proof. intros Hm tr Hnp. eapply wp_mono; [|apply Hm, Hnp]. intros a tr' G. apply G. Qed.

Lemma run_op_mono fuel o : mono (run_op fuel o).
Proof.
  destruct o; cbn [run_op]; (apply mono_bind; [|intros; apply mono_ret]).
  - apply mono_ne_mono, Insert_sets_root.
  - apply Remove_mono.
  - apply Search_mono.
  - apply Scan_mono.
Qed.

Lemma run_ops_mono fuel l : mono (run_ops fuel l).
Proof.
  induction l as [|o l IH]; cbn [run_ops]; [apply mono_ret|].
  apply mono_bind; [apply run_op_mono|intros r]. apply mono_bind; [exact IH|intros; apply mono_ret].
Qed.
Lemma file_num_pages_nonneg f : 0 <= DiskManager.file_num_pages f.
Proof.
  unfold DiskManager.file_num_pages.
  induction (map_to_list f) as [|kv l IH]; simpl; lia.
Qed.

Lemma LoadMetaPage_np tr : wp LoadMetaPage (fun _ tr' => np (bpm tr') = np (bpm tr)) tr.
Proof.
  unfold LoadMetaPage. apply wp_bind, wp_zoom. unfold wp at 1, GetDiskManager.
  case_decide; [|apply wp_ret; reflexivity].
  apply wp_bind, wp_zoom. eapply wp_mono; [|apply FetchPage_np]. intros o b1 E1. cbv beta in E1.
  destruct o as [f|]; [|apply wp_ret; exact E1].
  apply wp_bind. apply wp_ret. apply wp_bind, wp_modify, wp_bind, wp_zoom.
  eapply wp_mono; [|apply UnpinPage_np]. intros ? b2 E2. cbv beta in E2. apply wp_ret.
  cbn in *. congruence.
Qed.

Lemma open_store_np ps f u tr : open_store ps f = Ok u tr -> 0 <= np (bpm tr).
Proof.
  intros E. unfold open_store, create in E.
  pose proof (wp_run _ _ _ _ _ (LoadMetaPage_np _) E) as H. cbv beta in H. rewrite H.
  unfold np. cbn. apply file_num_pages_nonneg.
Qed.

Lemma run_ops_app fuel l1 l2 tr :
  run_ops fuel (l1 ++ l2) tr =
    (let* r1 := run_ops fuel l1 in let* r2 := run_ops fuel l2 in ret (r1 ++ r2)) tr.
Proof.
  revert tr. induction l1 as [|o l1 IH]; intros tr; cbn [app run_ops].
  - unfold bind, ret. destruct (run_ops fuel l2 tr); reflexivity.
  - unfold bind, ret. destruct (run_op fuel o tr) as [r tr1|e]; [|reflexivity].
    specialize (IH tr1). unfold bind, ret in IH. rewrite IH.
    destruct (run_ops fuel l1 tr1) as [a s|]; [|reflexivity].
    destruct (run_ops fuel l2 s); reflexivity.
Qed.

(** C10.  On a store opened on any file, once an [Insert] has been run,
    [IsEmpty()] is false after every later sequence of operations: no
    operation sets [root_page_id_] back to [INVALID_PAGE_ID]. *)
Theorem insert_never_empty ps fuel f ops1 k v ops2 rs tr :
  session ps fuel f (ops1 ++ OpInsert k v :: ops2) = Ok rs tr -> IsEmpty tr = false.
Proof.
  unfold session. destruct (open_store ps f) as [u tr0|e] eqn:E; [|discriminate].
  intros Hrun. apply open_store_np in E.
  assert (mono_ne (run_ops fuel (ops1 ++ OpInsert k v :: ops2))) as Hm.
  { intros tr1 Hnp. unfold wp. rewrite run_ops_app. fold (wp (A := list result)
      (let* r1 := run_ops fuel ops1 in let* r2 := run_ops fuel (OpInsert k v :: ops2) in ret (r1 ++ r2))
      (fun _ tr' => grows tr1 tr' /\ root_page_id_ tr' <> INVALID_PAGE_ID) tr1).
    revert tr1 Hnp. apply mono_ne_bind_r; [apply run_ops_mono|intros r1].
    apply mono_ne_bind_l; [|intros; apply mono_ret].
    cbn [run_ops]. apply mono_ne_bind_l; [|intros; apply mono_bind; [apply run_ops_mono|intros; apply mono_ret]].
    cbn [run_op]. apply mono_ne_bind_l; [apply Insert_sets_root|intros; apply mono_ret]. }
  destruct (wp_run _ _ _ _ _ (Hm tr0 E) Hrun) as [_ Hr].
  unfold IsEmpty. apply bool_decide_eq_false_2. exact Hr.
Qed.

End TreeMono.

(* ================================================================== *)
(** ** Concrete runs *)

Module Scenarios.

Import BufferPoolManager BPlusTree Observe.
Local Open Scope string_scope.
Local Open Scope list_scope.
Local Open Scope Z_scope.

(** C3 (failing run).  A leaf holding [LEAF_MAX_ENTRIES] keys [0 .. 29];
    [Insert(14, "b")] takes the split path, which stores key 14 a second
    time, and [Search(14)] still answers the old value. *)
Lemma update_in_full_leaf_search_old :
  results_of (session MAX_PAGES_IN_RAM 64 empty
                (inserts_upto 30 "a" ++ [OpInsert 14 "b"; OpSearch 14]))
  = Some (repeat (RBool true) 31 ++ [RValue (Some "a")]).
Proof. vm_compute. reflexivity. Qed.

(** C1 (failing run).  After the same update, [Scan(13, 14)] lists key 14
    twice, once with a value that is no longer current. *)
Lemma update_in_full_leaf_scan_duplicate :
  results_of (session MAX_PAGES_IN_RAM 64 empty
                (inserts_upto 30 "a" ++ [OpInsert 14 "b"; OpScan 13 14]))
  = Some (repeat (RBool true) 31 ++ [RPairs [(13, "a"); (14, "b"); (14, "a")]]).
Proof. vm_compute. reflexivity. Qed.

(** C4 (failing run).  [Insert(14, "b"); Remove(14)] on a full leaf:
    [Search(14)] answers nothing, but [Scan(13, 14)] still lists key 14. *)
Lemma remove_after_full_leaf_update_scan :
  results_of (session MAX_PAGES_IN_RAM 64 empty
                (inserts_upto 30 "a" ++
                 [OpInsert 14 "b"; OpRemove 14; OpSearch 14; OpScan 13 14]))
  = Some (repeat (RBool true) 32 ++
          [RValue None; RPairs [(13, "a"); (14, "b")]]).
Proof. vm_compute. reflexivity. Qed.

(** C6 (failing run).  [Insert(0, "b")] on a full leaf holding [0 .. 29]:
    the left half of the split (page 1) holds key 0 twice. *)
Lemma update_in_full_leaf_unsorted :
  match session MAX_PAGES_IN_RAM 64 empty (inserts_upto 30 "a" ++ [OpInsert 0 "b"]) with
  | Ok _ tr =>
      leaf_keys (view_page (bpm tr) 1) = 0 :: 0 :: map Z.of_nat (seq 1 13) /\
      strictly_increasing (leaf_keys (view_page (bpm tr) 1)) = false
  | Err _ => False
  end.
Proof. vm_compute. split; reflexivity. Qed.

(** C9 (failing run).  [Insert(14, "")] on a full leaf: the empty value
    lands in the left half while the old entry for 14 stays in the right
    half, so [Search(14)] and [Scan(14, 14)] still see the old value. *)
Lemma empty_value_in_full_leaf :
  results_of (session MAX_PAGES_IN_RAM 64 empty
                (inserts_upto 30 "a" ++ [OpInsert 14 ""; OpSearch 14; OpScan 14 14]))
  = Some (repeat (RBool true) 31 ++ [RValue (Some "a"); RPairs [(14, "a")]]).
Proof. vm_compute. reflexivity. Qed.

(** C2 (counterexample).  [Remove] of a key whose entry is already a
    tombstone answers [true]. *)
Lemma remove_tombstone_true :
  results_of (session MAX_PAGES_IN_RAM 64 empty [OpInsert 1 "x"; OpRemove 1; OpRemove 1])
  = Some [RBool true; RBool true; RBool true].
Proof. vm_compute. reflexivity. Qed.


(** C8 (counterexample).  On a fresh pool over an empty file,
    [FetchPage(0)] puts page 0 in frame 0 without allocating it; the next
    [NewPage] allocates page 0 again into frame 1, and frame 0 ends up
    neither in the free list nor in the page table. *)
Lemma fetch_unallocated_orphans_frame :
  match (let* _ := FetchPage 0 in NewPage) (BufferPoolManager.create MAX_PAGES_IN_RAM (DiskManager.Open empty)) with
  | Ok r b =>
      r = Some (1%nat, 0) /\
      bool_decide (0%nat ∈ free_list_ b) = false /\
      bool_decide (0%nat ∈ (map_img (page_table_ b) : gset nat)) = false
  | Err _ => False
  end.
Proof. vm_compute. repeat split; reflexivity. Qed.

(** A pool of two frames: page 0 was created, written and unpinned, and
    page 1 is held pinned, so the only candidate is frame 0 at the back of
    the LRU list. *)
Definition pool_demo : BufferPoolManager.t :=
  match (let* _ := NewPage in let* _ := UnpinPage 0 true in NewPage)
          (BufferPoolManager.create 2 (DiskManager.Open empty)) with
  | Ok _ b => b
  | Err _ => BufferPoolManager.create 2 (DiskManager.Open empty)
  end.

Lemma pool_demo_wf : PoolInv.bpm_wf pool_demo.
Proof. constructor; apply (bool_decide_unpack _); vm_compute; reflexivity. Qed.

(** C7 (instance).  [NewPage] on [pool_demo] evicts frame 0 and writes its
    dirty page back. *)
Lemma victim_selection_witness :
  exists (r : option nat) (b' : BufferPoolManager.t),
    PoolInv.allocating_call None pool_demo = Ok r b' /\ PoolInv.victim_contract pool_demo r b'.
Proof.
  do 2 eexists. split; [vm_compute; reflexivity|].
  apply (PoolProofs.victim_selection pool_demo None).
  - apply pool_demo_wf.
  - intros p Hp; discriminate.
  - vm_compute; reflexivity.
Defined.

(** C10 (instance).  Two inserts, then both keys removed: the store is
    still not empty. *)
Lemma insert_never_empty_witness :
  exists rs tr, session 64 64 empty ([OpInsert 1 "a"] ++ OpInsert 2 "b" :: [OpRemove 1; OpRemove 2])
                  = Ok rs tr /\ IsEmpty tr = false.
Proof.
  do 2 eexists. split; [vm_compute; reflexivity|].
  eapply (TreeMono.insert_never_empty 64 64 empty [OpInsert 1 "a"] 2 "b" [OpRemove 1; OpRemove 2]).
  vm_compute. reflexivity.
Defined.

End Scenarios.

(* ================================================================== *)
(** * Further properties of the pool, the disk manager and the tree *)

Module Extras.

Import BufferPoolManager BPlusTree Wp PoolInv PoolProofs PinInv TreeProofs.
Local Open Scope Z_scope.

(** A pool of one frame, holding page 0 pinned. *)
Definition pinned_pool : BufferPoolManager.t :=
  match NewPage (BufferPoolManager.create 1 (DiskManager.Open ∅)) with
  | Ok _ b => b
  | Err _ => BufferPoolManager.create 1 (DiskManager.Open ∅)
  end.

Lemma file_page_insert (f : DiskManager.file) p d q :
  DiskManager.file_page (<[p := d]> f) q = if decide (q = p) then d else DiskManager.file_page f q.
Proof.
  unfold DiskManager.file_page. case_decide as E.
  - subst. rewrite (lookup_insert_eq (M:=gmap Z) f p). reflexivity.
  - rewrite (lookup_insert_ne (M:=gmap Z) f p q) by congruence. reflexivity.
Qed.

(** [FetchPage] of a page already in the pool returns its frame with one
    more pin, takes the frame off the LRU list and touches no other frame,
    no table and no disk. *)
Theorem fetch_resident b p f : bpm_wf b -> page_table_ b !! p = Some f ->
  exists b', FetchPage p b = Ok (Some f) b' /\
    frame b' f = set_pin_count (pin_count (frame b f) + 1) (frame b f) /\
    (forall h, h <> f -> frame b' h = frame b h) /\
    page_table_ b' = page_table_ b /\ free_list_ b' = free_list_ b /\
    disk_manager_ b' = disk_manager_ b /\
    (forall g, g ∈ lru_list_ b' <-> g ∈ lru_list_ b /\ g <> f).
Proof.
  intros Hwf Hp. exists (hit_state f b). split; [apply FetchPage_hit, Hp|].
  destruct (hit_proj b f) as (_ & Hpt & Hfl & Hdm & _).
  split; [rewrite (hit_frame b p f Hwf Hp), decide_True by reflexivity; reflexivity|].
  split; [intros h Hh; rewrite (hit_frame b p f Hwf Hp), decide_False by exact Hh; reflexivity|].
  split; [exact Hpt|split; [exact Hfl|split; [exact Hdm|]]].
  intros g. rewrite (hit_lru b f). apply lru_erase_elem, (wf_lru_nodup b Hwf).
Qed.

Lemma fetch_resident_witness :
  exists b', FetchPage 0 Scenarios.pool_demo = Ok (Some 0%nat) b' /\
    frame b' 0 = set_pin_count (pin_count (frame Scenarios.pool_demo 0) + 1) (frame Scenarios.pool_demo 0) /\
    (forall h, h <> 0%nat -> frame b' h = frame Scenarios.pool_demo h) /\
    page_table_ b' = page_table_ Scenarios.pool_demo /\ free_list_ b' = free_list_ Scenarios.pool_demo /\
    disk_manager_ b' = disk_manager_ Scenarios.pool_demo /\
    (forall g, g ∈ lru_list_ b' <-> g ∈ lru_list_ Scenarios.pool_demo /\ g <> 0%nat).
Proof. apply (fetch_resident Scenarios.pool_demo 0 0 Scenarios.pool_demo_wf). vm_compute. reflexivity. Defined.

(** With no free frame and no unpinned frame, [FetchPage] of a page not
    in the pool and [NewPage] return [nullptr] and change nothing. *)
Theorem no_frame_null b p : free_list_ b = [] -> lru_list_ b = [] -> page_table_ b !! p = None ->
  FetchPage p b = Ok None b /\ NewPage b = Ok None b.
Proof.
  intros Ef El Hp. destruct b as [ps dm pgs pt fl lru]; cbn in Ef, El, Hp; subst.
  unfold FetchPage, NewPage, FindVictimPage, bind, get, ret. cbn. rewrite Hp. cbn.
  rewrite !decide_True by reflexivity. split; reflexivity.
Qed.

Lemma no_frame_null_witness : FetchPage 5 pinned_pool = Ok None pinned_pool /\ NewPage pinned_pool = Ok None pinned_pool.
Proof. apply no_frame_null; vm_compute; reflexivity. Defined.

(** [UnpinPage] succeeds exactly for a resident page with a positive pin
    count: it drops one pin, ORs in the dirty flag and puts the frame on the
    LRU list when the count reaches zero; otherwise it changes nothing.
    Page contents, tables and the disk are never touched. *)
Theorem unpin_effects b p dirty r b' : bpm_wf b -> UnpinPage p dirty b = Ok r b' ->
  disk_manager_ b' = disk_manager_ b /\ page_table_ b' = page_table_ b /\ free_list_ b' = free_list_ b /\
  (forall h, data (frame b' h) = data (frame b h) /\ page_id (frame b' h) = page_id (frame b h) /\
             (is_dirty (frame b h) = true -> is_dirty (frame b' h) = true)) /\
  (r = true <-> exists f, page_table_ b !! p = Some f /\ 0 < pin_count (frame b f)) /\
  (r = false -> b' = b) /\
  (forall f, page_table_ b !! p = Some f -> r = true ->
     pin_count (frame b' f) = pin_count (frame b f) - 1 /\
     is_dirty (frame b' f) = is_dirty (frame b f) || dirty /\
     (f ∈ lru_list_ b' <-> pin_count (frame b' f) = 0)) /\
  bpm_wf b'.
Proof.
  intros Hwf E. rewrite UnpinPage_eq in E.
  destruct (page_table_ b !! p) as [f|] eqn:Hp.
  2:{ injection E as <- <-. split; [reflexivity|split; [reflexivity|split; [reflexivity|]]].
      split; [intros h; split; [reflexivity|split; [reflexivity|exact id]]|].
      split; [split; [discriminate|intros (f & Hf & _); discriminate]|].
      split; [reflexivity|split; [intros f Hf; discriminate|exact Hwf]]. }
  case_decide as Hpin.
  { injection E as <- <-. split; [reflexivity|split; [reflexivity|split; [reflexivity|]]].
    split; [intros h; split; [reflexivity|split; [reflexivity|exact id]]|].
    split; [split; [discriminate|intros (f' & Hf' & Hpos); injection Hf' as <-; lia]|].
    split; [reflexivity|split; [intros f' Hf' Hr; discriminate|exact Hwf]]. }
  injection E as <- <-.
  assert (Hpos : 0 < pin_count (frame b f)) by lia.
  destruct (unpin_proj b f dirty) as (_ & Hpt & Hfl & Hdm & _ & _).
  pose proof (unpin_state_wf b p f dirty Hwf Hp Hpos) as Hwf'.
  assert (Hfr := unpin_frame b p f dirty Hwf Hp).
  split; [exact Hdm|split; [exact Hpt|split; [exact Hfl|]]].
  split.
  { intros h. rewrite Hfr. case_decide; [subst; cbn|]; split; try reflexivity; split; try reflexivity.
    intros ->. reflexivity. exact id. }
  split; [split; [intros _; exists f; split; [reflexivity|exact Hpos]|reflexivity]|].
  split; [discriminate|split; [|exact Hwf']].
  intros f' Hf' _. injection Hf' as <-. rewrite Hfr, decide_True by reflexivity. cbn.
  split; [reflexivity|split; [reflexivity|]].
  assert (Hp' : page_table_ (unpin_state f dirty b) !! p = Some f) by (rewrite Hpt; exact Hp).
  split.
  - intros Hin. pose proof (wf_lru_elem _ Hwf' f Hin) as [_ Hz]. rewrite Hfr, decide_True in Hz by reflexivity.
    exact Hz.
  - intros Hz. destruct (wf_lookup _ Hwf' p f Hp') as (_ & _ & _ & _ & Hl). apply Hl.
    rewrite Hfr, decide_True by reflexivity. exact Hz.
Qed.

Lemma unpin_effects_witness :
  exists r b', UnpinPage 1 false Scenarios.pool_demo = Ok r b' /\ r = true /\ bpm_wf b'.
Proof.
  destruct (UnpinPage 1 false Scenarios.pool_demo) as [r b'|e] eqn:E; [|vm_compute in E; discriminate].
  destruct (unpin_effects Scenarios.pool_demo 1 false r b' Scenarios.pool_demo_wf E)
    as (_ & _ & _ & _ & [_ Hr] & _ & _ & Hwf').
  exists r, b'. split; [reflexivity|split; [|exact Hwf']].
  apply Hr. exists 1%nat. split; vm_compute; reflexivity.
Defined.

(** [FetchPage(p)] followed by [UnpinPage(p, false)] on a resident page
    restores every frame and table; only the LRU list may change, the
    frame moving to its front if it was unpinned. *)
Theorem fetch_unpin_resident b p f : bpm_wf b -> page_table_ b !! p = Some f ->
  exists b1 b2, FetchPage p b = Ok (Some f) b1 /\ UnpinPage p false b1 = Ok true b2 /\
    (forall h, frame b2 h = frame b h) /\ page_table_ b2 = page_table_ b /\
    free_list_ b2 = free_list_ b /\ disk_manager_ b2 = disk_manager_ b /\
    lru_list_ b2 = if decide (pin_count (frame b f) = 0) then f :: lru_erase f (lru_list_ b)
                   else lru_list_ b.
Proof.
  intros Hwf Hp. pose proof (hit_state_wf b p f Hwf Hp) as Hwf1.
  destruct (hit_proj b f) as (_ & Hpt1 & Hfl1 & Hdm1 & _).
  assert (Hp1 : page_table_ (hit_state f b) !! p = Some f) by (rewrite Hpt1; exact Hp).
  destruct (wf_lookup b Hwf p f Hp) as (_ & _ & _ & Hpin0 & _).
  assert (Hf1 : frame (hit_state f b) f = set_pin_count (pin_count (frame b f) + 1) (frame b f))
    by (rewrite (hit_frame b p f Hwf Hp), decide_True by reflexivity; reflexivity).
  assert (Hpos : 0 < pin_count (frame (hit_state f b) f)) by (rewrite Hf1; cbn; lia).
  exists (hit_state f b), (unpin_state f false (hit_state f b)).
  split; [apply FetchPage_hit, Hp|].
  split; [rewrite UnpinPage_eq, Hp1, decide_False by lia; reflexivity|].
  destruct (unpin_proj (hit_state f b) f false) as (_ & Hpt2 & Hfl2 & Hdm2 & _ & Hlru2).
  split.
  { intros h. rewrite (unpin_frame (hit_state f b) p f false Hwf1 Hp1).
    destruct (decide (h = f)) as [->|Hh].
    - rewrite Hf1. destruct (frame b f) as [pid d dr pc]; cbn. rewrite orb_false_r.
      f_equal. lia.
    - rewrite (hit_frame b p f Hwf Hp), decide_False by exact Hh. reflexivity. }
  split; [congruence|split; [congruence|split; [congruence|]]].
  rewrite Hlru2, (hit_lru b f), Hf1. cbn [pin_count set_pin_count].
  replace (pin_count (frame b f) + 1 - 1) with (pin_count (frame b f)) by lia.
  destruct (decide (pin_count (frame b f) = 0)) as [Hz|Hz]; [reflexivity|].
  apply lru_erase_notin. intros Hin. apply Hz. exact (proj2 (wf_lru_elem b Hwf f Hin)).
Qed.

Lemma fetch_unpin_resident_witness :
  exists b1 b2, FetchPage 0 Scenarios.pool_demo = Ok (Some 0%nat) b1 /\ UnpinPage 0 false b1 = Ok true b2 /\
    lru_list_ b2 = [0%nat].
Proof.
  destruct (fetch_unpin_resident Scenarios.pool_demo 0 0 Scenarios.pool_demo_wf ltac:(vm_compute; reflexivity))
    as (b1 & b2 & E1 & E2 & _ & _ & _ & _ & Hl).
  exists b1, b2. split; [exact E1|split; [exact E2|]]. rewrite Hl. vm_compute. reflexivity.
Defined.

(** [FlushPage] of a page not in the pool returns [false] and changes
    nothing; of a resident page it writes the frame to the file, clears the
    dirty flag and keeps every page's contents and pins. *)
Theorem flush_page_effects b p : bpm_wf b ->
  (page_table_ b !! p = None -> FlushPage p b = Ok false b) /\
  forall f, page_table_ b !! p = Some f -> exists b', FlushPage p b = Ok true b' /\
    dfile b' = <[p := data (frame b f)]> (dfile b) /\ np b' = np b /\
    is_dirty (frame b' f) = false /\
    (forall h, data (frame b' h) = data (frame b h) /\ pin_count (frame b' h) = pin_count (frame b h)) /\
    page_table_ b' = page_table_ b /\
    (forall q, Observe.view_page b' q = Observe.view_page b q) /\ bpm_wf b'.
Proof.
  intros Hwf. split.
  { intros Hp. unfold FlushPage, bind, get, ret. cbv beta. rewrite Hp. reflexivity. }
  intros f Hp. destruct (wf_lookup b Hwf p f Hp) as (_ & Hid & Hpr & _).
  exists (flush_state f b). split; [apply FlushPage_eq; [exact Hp|lia]|].
  assert (Hfr := flush_frame b p f Hwf Hp).
  assert (Hdf : dfile (flush_state f b) = <[p := data (frame b f)]> (dfile b))
    by (unfold flush_state, dfile; autorewrite with bpm; cbn; rewrite Hid; reflexivity).
  assert (Hpt : page_table_ (flush_state f b) = page_table_ b)
    by (unfold flush_state; autorewrite with bpm; reflexivity).
  split; [exact Hdf|split; [unfold flush_state, np; autorewrite with bpm; reflexivity|]].
  split; [rewrite Hfr, decide_True by reflexivity; reflexivity|].
  split; [intros h; rewrite Hfr; case_decide; subst; split; reflexivity|].
  split; [exact Hpt|split; [|exact (flush_state_wf b p f Hwf Hp)]].
  intros q. unfold Observe.view_page. rewrite Hpt.
  destruct (page_table_ b !! q) as [g|] eqn:Hq.
  - rewrite Hfr. case_decide; subst; reflexivity.
  - change (DiskManager.file_page (dfile (flush_state f b)) q = DiskManager.file_page (dfile b) q).
    rewrite Hdf, file_page_insert, decide_False; [reflexivity|congruence].
Qed.

Lemma flush_page_effects_witness :
  exists b', FlushPage 0 Scenarios.pool_demo = Ok true b' /\
    dfile b' = <[0 := data (frame Scenarios.pool_demo 0)]> (dfile Scenarios.pool_demo) /\
    is_dirty (frame b' 0) = false.
Proof.
  destruct (proj2 (flush_page_effects Scenarios.pool_demo 0 Scenarios.pool_demo_wf) 0%nat
              ltac:(vm_compute; reflexivity)) as (b' & E & Hdf & _ & Hd & _).
  exists b'. split; [exact E|split; [exact Hdf|exact Hd]].
Defined.

(** [DeletePage] returns [true] without change for a page not in the
    pool, [false] without change for a pinned page, and otherwise frees the
    frame (dropping unwritten changes) and keeps every other page. *)
Theorem delete_page_effects b p : bpm_wf b ->
  (page_table_ b !! p = None -> DeletePage p b = Ok true b) /\
  (forall f, page_table_ b !! p = Some f -> 0 < pin_count (frame b f) -> DeletePage p b = Ok false b) /\
  (forall f, page_table_ b !! p = Some f -> pin_count (frame b f) = 0 ->
   exists b', DeletePage p b = Ok true b' /\ page_table_ b' !! p = None /\
     free_list_ b' = free_list_ b ++ [f] /\ (f ∉ lru_list_ b') /\
     disk_manager_ b' = disk_manager_ b /\
     Observe.view_page b' p = DiskManager.file_page (dfile b) p /\
     (forall q, q <> p -> Observe.view_page b' q = Observe.view_page b q) /\ bpm_wf b').
Proof.
  intros Hwf. split; [intros Hp; rewrite DeletePage_eq, Hp; reflexivity|].
  split; [intros f Hp Hpos; rewrite DeletePage_eq, Hp, decide_True by lia; reflexivity|].
  intros f Hp Hz.
  exists (delete_state p f b). split; [rewrite DeletePage_eq, Hp, decide_False by lia; reflexivity|].
  destruct (delete_proj b p f) as (_ & Hpt & Hfl & Hdm & _ & Hlru).
  assert (Hfr := delete_frame b p f Hwf Hp).
  split; [rewrite Hpt; apply lookup_delete_eq|].
  split; [exact Hfl|].
  split; [rewrite Hlru; intros Hin; apply lru_erase_elem in Hin as [_ Hne]; [exact (Hne eq_refl)|apply (wf_lru_nodup b Hwf)]|].
  split; [exact Hdm|].
  split; [unfold Observe.view_page; rewrite Hpt, lookup_delete_eq, Hdm; reflexivity|].
  split; [|apply (delete_state_wf b p f Hwf Hp); lia].
  intros q Hq. unfold Observe.view_page. rewrite Hpt, lookup_delete_ne by congruence.
  destruct (page_table_ b !! q) as [g|] eqn:Hg; [|rewrite Hdm; reflexivity].
  rewrite Hfr, decide_False; [reflexivity|]. intros ->. apply Hq. exact (wf_inj b Hwf q p f Hg Hp).
Qed.

Lemma delete_page_effects_witness :
  exists b', DeletePage 0 Scenarios.pool_demo = Ok true b' /\ page_table_ b' !! 0 = None /\
    Observe.view_page b' 0 = DiskManager.file_page (dfile Scenarios.pool_demo) 0.
Proof.
  destruct (proj2 (proj2 (delete_page_effects Scenarios.pool_demo 0 Scenarios.pool_demo_wf)) 0%nat
              ltac:(vm_compute; reflexivity) ltac:(vm_compute; reflexivity)) as (b' & E & Hp & _ & _ & _ & Hv & _).
  exists b'. split; [exact E|split; [exact Hp|exact Hv]].
Defined.

(** [NewPage] either returns [nullptr] with nothing changed and no frame
    available, or allocates the next page id, which was neither in the pool
    nor in the file, in a zeroed frame pinned once. *)
Theorem new_page_effects b r b' : bpm_wf b -> NewPage b = Ok r b' ->
  match r with
  | None => b' = b /\ free_list_ b = [] /\ lru_list_ b = []
  | Some (f, pid) => pid = np b /\ np b' = np b + 1 /\ page_table_ b !! pid = None /\
      dfile b !! pid = None /\ page_table_ b' !! pid = Some f /\
      frame b' f = mkPage pid zero_page false 1 /\ bpm_wf b'
  end.
Proof.
  intros Hwf E. pose proof (wp_run _ _ _ _ _ (NewPage_wf b Hwf) E) as Hwf'. cbv beta in Hwf'.
  assert (Hfresh : page_table_ b !! np b = None /\ dfile b !! np b = None).
  { split; [exact (wf_np_free b Hwf)|].
    destruct (dfile b !! np b) eqn:Ed; [|reflexivity].
    pose proof (map_Forall_lookup_1 _ _ _ _ (wf_file b Hwf) Ed) as H; cbv beta in H; lia. }
  revert Hwf'. refine (wp_run _ _ _ _ _ (NewPage_wp b (fun r b' => bpm_wf b' -> match r with
    | None => b' = b /\ free_list_ b = [] /\ lru_list_ b = []
    | Some (f, pid) => pid = np b /\ np b' = np b + 1 /\ page_table_ b !! pid = None /\
        dfile b !! pid = None /\ page_table_ b' !! pid = Some f /\
        frame b' f = mkPage pid zero_page false 1 /\ bpm_wf b'
    end) Hwf _ _) E).
  - intros Ef El _. split; [reflexivity|split; assumption].
  - intros g b1 Hv Hg Hwf'.
    destruct (victim_step_frame b g b1 Hv) as (_ & _ & _ & Hnp1).
    pose proof (detached_frame_length b1 g (victim_detached b g b1 Hwf Hv)) as Hl.
    rewrite Hnp1 in Hwf' |- *. split; [reflexivity|]. split; [reflexivity|].
    split; [exact (proj1 Hfresh)|split; [exact (proj2 Hfresh)|]].
    split; [apply (lookup_insert_eq (M:=gmap Z))|].
    split; [|exact Hwf'].
    rewrite frame_install, decide_True by (cbn; exact Hl || reflexivity); reflexivity.
Qed.

Lemma new_page_effects_witness :
  exists r b', NewPage Scenarios.pool_demo = Ok r b' /\ r = Some (0%nat, 2) /\
    frame b' 0 = mkPage 2 zero_page false 1 /\ bpm_wf b'.
Proof.
  destruct (NewPage Scenarios.pool_demo) as [r b'|e] eqn:E; [|vm_compute in E; discriminate].
  pose proof (new_page_effects Scenarios.pool_demo r b' Scenarios.pool_demo_wf E) as H.
  assert (Hr : r = Some (0%nat, 2)) by (vm_compute in E; injection E as <- _; reflexivity).
  subst r. destruct H as (_ & _ & _ & _ & _ & Hf & Hwf').
  exists (Some (0%nat, 2)), b'. split; [reflexivity|split; [reflexivity|split; assumption]].
Defined.

Lemma flush_entries_wf l : forall b, bpm_wf b ->
  (forall p f, (p, f) ∈ l -> page_table_ b !! p = Some f) -> NoDup l.*1 ->
  exists b', flush_entries l b = Ok tt b' /\ bpm_wf b' /\ page_table_ b' = page_table_ b /\ np b' = np b /\
    (forall h, data (frame b' h) = data (frame b h) /\ pin_count (frame b' h) = pin_count (frame b h)) /\
    (forall h, (forall p, (p, h) ∉ l) -> is_dirty (frame b' h) = is_dirty (frame b h)) /\
    (forall p f, (p, f) ∈ l -> is_dirty (frame b' f) = false) /\
    (forall q f, (q, f) ∈ l -> is_dirty (frame b f) = true -> dfile b' !! q = Some (data (frame b f))) /\
    (forall q, (forall f, (q, f) ∈ l -> is_dirty (frame b f) = false) -> dfile b' !! q = dfile b !! q).
Proof.
  induction l as [|[p f] l IH]; intros b Hwf Hin Hnd.
  { exists b. split; [reflexivity|]. split; [exact Hwf|split; [reflexivity|split; [reflexivity|]]].
    split; [intros h; split; reflexivity|]. split; [reflexivity|].
    split; [intros p f Hpf; apply elem_of_nil in Hpf; contradiction|].
    split; [intros q f Hqf; apply elem_of_nil in Hqf; contradiction|reflexivity]. }
  assert (Hp : page_table_ b !! p = Some f) by (apply Hin; left).
  cbn [fmap list_fmap fst] in Hnd. apply NoDup_cons in Hnd as [Hpl Hnd].
  assert (Hnp : forall g, (p, g) ∉ l).
  { intros g Hg. apply Hpl. exact (list_elem_of_fmap_2 fst l (p, g) Hg). }
  destruct (wf_lookup b Hwf p f Hp) as (_ & Hid & Hpr & _).
  set (b1 := if is_dirty (frame b f) then flush_state f b else b).
  assert (Hb1 : bpm_wf b1 /\ page_table_ b1 = page_table_ b /\ np b1 = np b /\
    (forall h, data (frame b1 h) = data (frame b h) /\ pin_count (frame b1 h) = pin_count (frame b h)) /\
    is_dirty (frame b1 f) = false /\ (forall h, h <> f -> frame b1 h = frame b h) /\
    dfile b1 = if is_dirty (frame b f) then <[p := data (frame b f)]> (dfile b) else dfile b).
  { unfold b1. destruct (is_dirty (frame b f)) eqn:Ed.
    - pose proof (flush_frame b p f Hwf Hp) as Hfr.
      split; [exact (flush_state_wf b p f Hwf Hp)|].
      split; [unfold flush_state; autorewrite with bpm; reflexivity|].
      split; [unfold flush_state, np; autorewrite with bpm; reflexivity|].
      split; [intros h; rewrite Hfr; case_decide; subst; split; reflexivity|].
      split; [rewrite Hfr, decide_True by reflexivity; reflexivity|].
      split; [intros h Hh; rewrite Hfr, decide_False by exact Hh; reflexivity|].
      unfold flush_state, dfile; autorewrite with bpm; cbn; rewrite Hid; reflexivity.
    - split; [exact Hwf|]. split; [reflexivity|]. split; [reflexivity|].
      split; [intros h; split; reflexivity|]. split; [exact Ed|].
      split; [intros h _; reflexivity|reflexivity]. }
  destruct Hb1 as (Hwf1 & Hpt1 & Hnp1 & Hdat1 & Hcl1 & Hfr1 & Hdf1).
  destruct (IH b1 Hwf1) as (b' & E & Hwf' & Hpt' & Hnp' & Hdat' & Hkeep' & Hcl' & Hw' & Hu').
  { intros q g Hqg. rewrite Hpt1. apply Hin. right. exact Hqg. }
  { exact Hnd. }
  assert (Hne : forall q g, (q, g) ∈ l -> q <> p /\ g <> f).
  { intros q g Hqg. assert (q <> p) by (intros ->; exact (Hnp g Hqg)). split; [assumption|].
    intros ->. apply H. apply (wf_inj b Hwf q p f); [apply Hin; right; exact Hqg|exact Hp]. }
  exists b'. split.
  { rewrite flush_entries_cons by lia. exact E. }
  split; [exact Hwf'|split; [congruence|split; [congruence|]]].
  split; [intros h; destruct (Hdat' h) as [A1 A2]; destruct (Hdat1 h) as [B1 B2]; split; congruence|].
  split.
  { intros h Hh. assert (h <> f) by (intros ->; exact (Hh p ltac:(left))).
    rewrite Hkeep', Hfr1 by (assumption || (intros q Hq; exact (Hh q ltac:(right; exact Hq)))). reflexivity. }
  split.
  { intros q g Hqg. apply elem_of_cons in Hqg as [Hqg|Hqg].
    - injection Hqg as -> ->.
      rewrite Hkeep'; [exact Hcl1|]. intros q' Hq'. exact (proj2 (Hne q' f Hq') eq_refl).
    - exact (Hcl' q g Hqg). }
  split.
  { intros q g Hqg Hd. apply elem_of_cons in Hqg as [Hqg|Hqg].
    - injection Hqg as -> ->. rewrite Hu' by (intros g' Hg'; contradiction (Hnp g' Hg')).
      rewrite Hdf1, Hd. apply (lookup_insert_eq (M:=gmap Z)).
    - destruct (Hne q g Hqg) as [Hq Hg]. rewrite (Hw' q g Hqg) by (rewrite Hfr1; assumption).
      rewrite Hfr1 by exact Hg. reflexivity. }
  intros q Hq. destruct (decide (q = p)) as [->|Hqp].
  - rewrite Hu' by (intros g' Hg'; contradiction (Hnp g' Hg')).
    rewrite Hdf1, (Hq f ltac:(left)). reflexivity.
  - rewrite Hu'.
    + rewrite Hdf1. destruct (is_dirty (frame b f)); [|reflexivity].
      apply (lookup_insert_ne (M:=gmap Z)). congruence.
    + intros g Hg. destruct (Hne q g Hg) as [_ Hgf]. rewrite Hfr1 by exact Hgf. apply Hq. right. exact Hg.
Qed.

(** [FlushAllPages] writes exactly the dirty resident frames to the file,
    clears every resident dirty flag and keeps contents, pins and tables. *)
Theorem flush_all_effects b : bpm_wf b ->
  exists b', FlushAllPages b = Ok tt b' /\ bpm_wf b' /\ page_table_ b' = page_table_ b /\ np b' = np b /\
    (forall h, data (frame b' h) = data (frame b h) /\ pin_count (frame b' h) = pin_count (frame b h)) /\
    (forall p f, page_table_ b !! p = Some f -> is_dirty (frame b' f) = false) /\
    (forall q, dfile b' !! q =
       match page_table_ b !! q with
       | Some f => if is_dirty (frame b f) then Some (data (frame b f)) else dfile b !! q
       | None => dfile b !! q
       end).
Proof.
  intros Hwf.
  destruct (flush_entries_wf (map_to_list (page_table_ b)) b Hwf) as
    (b' & E & Hwf' & Hpt' & Hnp' & Hdat' & _ & Hcl' & Hw' & Hu').
  { intros p f Hpf. apply elem_of_map_to_list. exact Hpf. }
  { apply NoDup_fst_map_to_list. }
  exists b'. split; [unfold FlushAllPages, bind, get; exact E|].
  split; [exact Hwf'|split; [exact Hpt'|split; [exact Hnp'|split; [exact Hdat'|]]]].
  split; [intros p f Hpf; apply (Hcl' p f), elem_of_map_to_list, Hpf|].
  intros q. destruct (page_table_ b !! q) as [f|] eqn:Hq.
  - destruct (is_dirty (frame b f)) eqn:Hd.
    + apply (Hw' q f); [apply elem_of_map_to_list, Hq|exact Hd].
    + apply Hu'. intros g Hg. apply elem_of_map_to_list in Hg. rewrite Hq in Hg. injection Hg as <-. exact Hd.
  - apply Hu'. intros g Hg. apply elem_of_map_to_list in Hg. congruence.
Qed.

Lemma flush_all_effects_witness :
  exists b', FlushAllPages Scenarios.pool_demo = Ok tt b' /\
    dfile b' !! 0 = Some (data (frame Scenarios.pool_demo 0)) /\ is_dirty (frame b' 0) = false.
Proof.
  destruct (flush_all_effects Scenarios.pool_demo Scenarios.pool_demo_wf)
    as (b' & E & _ & _ & _ & _ & Hcl & Hf).
  exists b'. split; [exact E|]. split.
  - rewrite Hf. vm_compute. reflexivity.
  - apply (Hcl 0). vm_compute. reflexivity.
Defined.

(** *** Values *)

Lemma cstr_nozero l : Forall (fun c => c <> zero) (cstr l).
Proof.
  induction l as [|c l IH]; cbn; [constructor|].
  destruct (Ascii.eqb c zero) eqn:E; [constructor|].
  constructor; [apply Ascii.eqb_neq, E|exact IH].
Qed.

Lemma Forall_firstn' {A} (P : A -> Prop) n l : Forall P l -> Forall P (firstn n l).
Proof.
  revert l. induction n as [|n IH]; intros l Hl; cbn; [constructor|].
  destruct Hl; constructor; auto.
Qed.

Lemma cstr_app_zero l r : Forall (fun c => c <> zero) l -> cstr (l ++ zero :: r) = l.
Proof.
  induction 1 as [|c l Hc _ IH]; cbn; [reflexivity|].
  rewrite (proj2 (Ascii.eqb_neq c zero) Hc), IH. reflexivity.
Qed.

Lemma cstr_nozero_id l : Forall (fun c => c <> zero) l -> cstr l = l.
Proof.
  induction 1 as [|c l Hc _ IH]; cbn; [reflexivity|].
  rewrite (proj2 (Ascii.eqb_neq c zero) Hc), IH. reflexivity.
Qed.

Lemma length_string_of_list_ascii l : String.length (string_of_list_ascii l) = length l.
Proof. induction l; cbn; auto. Qed.

Lemma length_list_ascii_of_string s : length (list_ascii_of_string s) = String.length s.
Proof. induction s; cbn; auto. Qed.

(** What [Search] returns for a value stored by [Insert]: the first
    [VALUE_SIZE - 1] characters of the string before its first NUL; a
    shorter string without NUL comes back unchanged. *)
Theorem value_roundtrip s :
  length (strncpy_value s) = Z.to_nat VALUE_SIZE /\
  value_string (strncpy_value s) = string_of_list_ascii (firstn 127 (cstr (list_ascii_of_string s))) /\
  ((String.length s <= 127)%nat -> Forall (fun c => c <> zero) (list_ascii_of_string s) ->
   value_string (strncpy_value s) = s).
Proof.
  set (src := firstn 127 (cstr (list_ascii_of_string s))).
  assert (Hlen : (length src <= 127)%nat) by (unfold src; rewrite length_firstn; lia).
  assert (Hnz : Forall (fun c => c <> zero) src) by apply Forall_firstn', cstr_nozero.
  assert (Hv : strncpy_value s = src ++ zero :: repeat zero (127 - length src)).
  { unfold strncpy_value. change (Z.to_nat (VALUE_SIZE - 1)) with 127%nat.
    change (Z.to_nat VALUE_SIZE) with 128%nat. fold src. f_equal.
    replace (128 - length src)%nat with (S (127 - length src)) by lia. reflexivity. }
  assert (Hval : value_string (strncpy_value s) = string_of_list_ascii src).
  { unfold value_string. rewrite Hv, cstr_app_zero by exact Hnz. reflexivity. }
  split; [rewrite Hv, length_app; cbn [length]; rewrite repeat_length; change (Z.to_nat VALUE_SIZE) with 128%nat; lia|].
  split; [exact Hval|].
  intros Hs Hs0. rewrite Hval. unfold src. rewrite cstr_nozero_id by exact Hs0.
  rewrite firstn_all2 by (rewrite length_list_ascii_of_string; lia).
  apply string_of_list_ascii_of_string.
Qed.

Lemma value_roundtrip_witness : value_string (strncpy_value "abc"%string) = "abc"%string.
Proof.
  destruct (value_roundtrip "abc"%string) as (_ & _ & H). apply H.
  - cbn. lia.
  - repeat constructor; discriminate.
Defined.

(** *** The empty store *)

(** On a store without a root, [Search], [Scan] and [Remove] touch
    nothing and answer "no value", "no pairs" and [false]. *)
Theorem empty_store_queries tr fuel k a b : IsEmpty tr = true ->
  Search fuel k tr = Ok None tr /\ Scan fuel a b tr = Ok [] tr /\ Remove fuel k tr = Ok false tr.
Proof.
  unfold IsEmpty. intros H. apply bool_decide_eq_true in H.
  unfold Search, Scan, Remove, FindLeafPage, bind, get, ret. rewrite !decide_True by exact H.
  split; [reflexivity|split; reflexivity].
Qed.

Lemma empty_store_queries_witness :
  let tr := BPlusTree.mk (BufferPoolManager.create 4 (DiskManager.Open ∅)) INVALID_PAGE_ID in
  Search 8 1 tr = Ok None tr /\ Scan 8 0 9 tr = Ok [] tr /\ Remove 8 1 tr = Ok false tr.
Proof. intros tr. apply empty_store_queries. vm_compute. reflexivity. Defined.

(** *** What the queries return *)

Definition scan_exit_list (e : scan_exit) : list (Z * string) :=
  match e with ScanReturn r => r | ScanNext r => r end.

Definition in_range (a b : Z) (kv : Z * string) : Prop := a <= kv.1 <= b /\ kv.2 <> EmptyString.

Lemma value_string_nonempty v : Ascii.eqb (first_byte v) zero = false -> value_string v <> EmptyString.
Proof.
  destruct v as [|c v]; cbn; [discriminate|]. intros E. unfold value_string. cbn. rewrite E. discriminate.
Qed.

Lemma scan_leaf_in_range cnt d i a b results :
  Forall (in_range a b) results -> Forall (in_range a b) (scan_exit_list (scan_leaf cnt d i a b results)).
Proof.
  revert i results. induction cnt as [|c IH]; intros i results H; cbn [scan_leaf]; [exact H|].
  case_decide as Hb; [exact H|]. apply IH.
  destruct (bool_decide (key (entry_at d i) >= a)) eqn:Ea; [|exact H].
  destruct (Ascii.eqb (first_byte (value (entry_at d i))) zero) eqn:Ez; cbn; [exact H|].
  apply bool_decide_eq_true in Ea. apply Forall_app. split; [exact H|].
  constructor; [|constructor]. split; cbn; [lia|]. apply value_string_nonempty, Ez.
Qed.

Lemma wp_any {S A} (m : M S A) (Q : A -> S -> Prop) s : (forall a s', Q a s') -> wp m Q s.
Proof. intros H. unfold wp. destruct (m s); [apply H|exact I]. Qed.

Lemma scan_loop_in_range fuel a b f results tr :
  Forall (in_range a b) results ->
  wp (scan_loop fuel a b f results) (fun r _ => Forall (in_range a b) r) tr.
Proof.
  revert f results tr. induction fuel as [|n IH]; intros f results tr H; cbn [scan_loop]; [exact I|].
  apply wp_bind. unfold wp at 1, page_of. cbv beta.
  pose proof (scan_leaf_in_range (Z.to_nat (num_keys (data (frame (bpm tr) f)) -
       match results with [] => LeafFindKey (data (frame (bpm tr) f)) a | _ => 0 end))
       (data (frame (bpm tr) f)) (match results with [] => LeafFindKey (data (frame (bpm tr) f)) a | _ => 0 end)
       a b results H) as Hl.
  destruct (scan_leaf _ _ _ _ _ _) as [r|r]; cbn in Hl.
  - apply wp_bind. unfold wp at 1, pid_of. apply wp_bind, wp_any. intros _ s'. apply wp_ret. exact Hl.
  - apply wp_bind. unfold wp at 1, pid_of. apply wp_bind, wp_any. intros _ s'.
    case_decide; [apply wp_ret; exact Hl|].
    apply wp_bind, wp_any. intros [f'|] s2; [apply IH, Hl|apply wp_ret; exact Hl].
Qed.

(** Every pair returned by [Scan(a, b)] has its key in [a, b] and a
    non-empty value. *)
Theorem scan_results_in_range fuel a b tr r tr' :
  Scan fuel a b tr = Ok r tr' -> Forall (fun kv => a <= kv.1 <= b /\ kv.2 <> EmptyString) r.
Proof.
  intros E. assert (Hw : wp (Scan fuel a b) (fun r _ => Forall (in_range a b) r) tr).
  { unfold Scan. apply wp_bind, wp_get. case_decide; [apply wp_ret; constructor|].
    apply wp_bind, wp_any. intros [f|] s'; [apply scan_loop_in_range; constructor|apply wp_ret; constructor]. }
  exact (wp_run _ _ _ _ _ Hw E).
Qed.

Lemma scan_results_in_range_witness :
  Forall (fun kv => 1 <= kv.1 <= 3 /\ kv.2 <> EmptyString) (ok_value (Scan 16 1 3 demo_store) []).
Proof.
  apply (scan_results_in_range 16 1 3 demo_store _ (ok_state (Scan 16 1 3 demo_store) demo_store)).
  vm_compute. reflexivity.
Defined.

(** [Search] never returns an empty string. *)
Theorem search_some_nonempty fuel k tr s tr' : Search fuel k tr = Ok (Some s) tr' -> s <> EmptyString.
Proof.
  intros E. assert (Hw : wp (Search fuel k) (fun r _ => forall s, r = Some s -> s <> EmptyString) tr).
  { unfold Search. apply wp_bind, wp_any. intros [f|] s'; [|apply wp_ret; discriminate].
    apply wp_bind. unfold wp at 1, page_of. apply wp_bind. unfold wp at 1, pid_of. apply wp_bind, wp_any.
    intros _ s2. apply wp_ret. intros s0. unfold leaf_lookup.
    case_decide; [|discriminate]. destruct (Ascii.eqb _ zero) eqn:Ez; cbn; [discriminate|].
    intros [= <-]. apply value_string_nonempty, Ez. }
  exact (wp_run _ _ _ _ _ Hw E s eq_refl).
Qed.

Lemma search_some_nonempty_witness : "v"%string <> EmptyString.
Proof.
  apply (search_some_nonempty 16 1 demo_store "v"%string (ok_state (Search 16 1 demo_store) demo_store)).
  vm_compute. reflexivity.
Defined.

Lemma demo_store_sinv : sinv 4 demo_store.
Proof. apply (session_ok 4 16 demo_ops (ok_value demo_session [])). vm_compute. reflexivity. Qed.

Lemma search_results fuel k tr : tinv true tr [] ->
  Observe.results_of (Search fuel k tr) = search_v (views tr) (nz tr) fuel k (root_page_id_ tr).
Proof.
  intros Hinv. unfold Observe.results_of. destruct (Search fuel k tr) as [r tr'|e] eqn:E.
  - symmetry. exact (proj1 (wpe_run _ _ _ _ _ _ (Search_e fuel k tr Hinv) E)).
  - symmetry. exact (wpe_run_err _ _ _ _ _ (Search_e fuel k tr Hinv) E).
Qed.

Lemma scan_results fuel a b tr : tinv true tr [] ->
  Observe.results_of (Scan fuel a b tr) = scan_v (views tr) (nz tr) fuel a b (root_page_id_ tr).
Proof.
  intros Hinv. unfold Observe.results_of. destruct (Scan fuel a b tr) as [r tr'|e] eqn:E.
  - symmetry. exact (proj1 (wpe_run _ _ _ _ _ _ (Scan_e fuel a b tr Hinv) E)).
  - symmetry. exact (wpe_run_err _ _ _ _ _ (Scan_e fuel a b tr Hinv) E).
Qed.

(** [Search] and [Scan] are read-only: every page reads as before, the
    root and the page count are kept, no page is left pinned, and so
    every later query answers as it would have before. *)
Theorem queries_read_only fuel o tr r tr' : tinv true tr [] -> is_query o = true ->
  run_op fuel o tr = Ok r tr' ->
  same_views tr tr' /\ root_page_id_ tr' = root_page_id_ tr /\ np (bpm tr') = np (bpm tr) /\
  (forall p, pin_of (bpm tr') p = 0) /\
  (forall k, Observe.results_of (Search fuel k tr') = Observe.results_of (Search fuel k tr)) /\
  (forall a b, Observe.results_of (Scan fuel a b tr') = Observe.results_of (Scan fuel a b tr)).
Proof.
  intros Hinv Hq E.
  assert (H : tinv true tr' [] /\ rd tr tr').
  { destruct o as [k v|k|k|a b]; try discriminate; cbn [run_op] in E; unfold bind, ret in E.
    - destruct (Search fuel k tr) as [r0 tr1|e] eqn:E1; [|discriminate]. injection E as _ <-.
      destruct (wpe_run _ _ _ _ _ _ (Search_e fuel k tr Hinv) E1) as (_ & Hinv1 & Hrd). split; assumption.
    - destruct (Scan fuel a b tr) as [r0 tr1|e] eqn:E1; [|discriminate]. injection E as _ <-.
      destruct (wpe_run _ _ _ _ _ _ (Scan_e fuel a b tr Hinv) E1) as (_ & Hinv1 & Hrd). split; assumption. }
  destruct H as (Hinv' & Hv & Hr & Hnp & Hps).
  assert (Hnz : nz tr' = nz tr) by (unfold nz; rewrite Hps; reflexivity).
  split; [exact Hv|split; [exact Hr|split; [exact Hnp|split]]].
  - intros p. exact (po_pins _ _ _ (proj1 Hinv') p).
  - split.
    + intros k. rewrite !search_results by assumption. rewrite Hnz, Hr. apply search_v_ext, Hv.
    + intros a b. rewrite !scan_results by assumption. rewrite Hnz, Hr. apply scan_v_ext, Hv.
Qed.

Lemma queries_read_only_witness :
  same_views demo_store (ok_state (run_op 16 (OpSearch 1) demo_store) demo_store).
Proof.
  destruct (queries_read_only 16 (OpSearch 1) demo_store (ok_value (run_op 16 (OpSearch 1) demo_store) (RBool false))
              (ok_state (run_op 16 (OpSearch 1) demo_store) demo_store) (proj1 demo_store_sinv) eq_refl
              ltac:(vm_compute; reflexivity)) as (H & _).
  exact H.
Defined.

(** [FetchPage] never changes what a page reads as: the frame it returns
    holds the page's current contents with one more pin, and every page
    reads as before (a dirty victim is written back first). *)
Theorem fetch_keeps_views s b P p r b' : pool_ok s b P -> p < np b -> FetchPage p b = Ok r b' ->
  match r with
  | None => b' = b
  | Some f => page_table_ b' !! p = Some f /\ data (frame b' f) = Observe.view_page b p /\
              pin_count (frame b' f) = pin_of b p + 1 /\
              forall q, Observe.view_page b' q = Observe.view_page b q
  end.
Proof.
  intros Hok Hp E. pose proof (wp_run _ _ _ _ _ (FetchPage_ok s b P p Hok Hp) E) as H.
  destruct r as [f|]; cbn [fetch_post] in H.
  - destruct H as (Hok' & Hv & _ & Hh & _). split; [exact Hh|split; [|split; [|exact Hv]]].
    + rewrite <- (Hv p). symmetry. exact (view_holds _ _ _ Hh).
    + rewrite <- (pin_of_holds _ _ _ Hh). rewrite (po_pins _ _ _ Hok' p), (po_pins _ _ _ Hok p).
      cbn [occ]. rewrite decide_True by reflexivity. lia.
  - exact (proj1 H).
Qed.

Lemma fetch_keeps_views_witness :
  match FetchPage 1 (bpm demo_store) with
  | Ok (Some f) b' => data (frame b' f) = Observe.view_page (bpm demo_store) 1
  | _ => False
  end.
Proof.
  destruct (FetchPage 1 (bpm demo_store)) as [[f|] b'|e] eqn:E.
  - destruct (fetch_keeps_views true (bpm demo_store) [] 1 (Some f) b' (proj1 (proj1 demo_store_sinv))
                ltac:(vm_compute; reflexivity) E) as (_ & H & _).
    exact H.
  - vm_compute in E. discriminate.
  - vm_compute in E. discriminate.
Defined.

(** *** Remove, then Search *)

Lemma leaf_lookup_tomb d k k' : key (entry_at d (LeafFindKey d k)) = k ->
  leaf_lookup (tomb d (LeafFindKey d k)) k' = if decide (k' = k) then None else leaf_lookup d k'.
Proof.
  intros Hk. unfold leaf_lookup. rewrite LeafFindKey_tomb.
  change (num_keys (tomb d (LeafFindKey d k))) with (num_keys d).
  rewrite entry_at_tomb. pose proof (LeafFindKey_nonneg d k). pose proof (LeafFindKey_nonneg d k').
  destruct (decide (Z.to_nat (LeafFindKey d k') = Z.to_nat (LeafFindKey d k))) as [E|E].
  - assert (Ei : LeafFindKey d k' = LeafFindKey d k) by lia. rewrite Ei, Hk. cbn [key value].
    change (first_byte zero_value) with zero. cbn [Ascii.eqb zero negb Bool.eqb].
    destruct (decide (LeafFindKey d k < num_keys d /\ k = k')), (decide (k' = k)); try reflexivity.
    exfalso. intuition congruence.
  - destruct (decide (k' = k)) as [->|_]; [exfalso; exact (E eq_refl)|reflexivity].
Qed.

Lemma search_v_tomb V h fuel k root p k' :
  find_leaf_v V h fuel k root = Some (Some p) -> key (entry_at (V p) (LeafFindKey (V p) k)) = k ->
  search_v (fun q => if decide (q = p) then tomb (V p) (LeafFindKey (V p) k) else V q) h fuel k' root =
  if decide (k' = k) then Some None else search_v V h fuel k' root.
Proof.
  intros Hfl Hk. pose proof (find_leaf_v_leaf _ _ _ _ _ _ Hfl) as Hleaf.
  assert (HF : forall k0, find_leaf_v (fun q => if decide (q = p) then tomb (V p) (LeafFindKey (V p) k) else V q) h fuel k0 root =
                          find_leaf_v V h fuel k0 root).
  { intros k0. unfold find_leaf_v. rewrite descend_v_upd by (exact Hleaf || reflexivity). reflexivity. }
  unfold search_v. rewrite HF. destruct (decide (k' = k)) as [->|Hne].
  - rewrite Hfl. cbv beta. rewrite decide_True by reflexivity. rewrite leaf_lookup_tomb by exact Hk.
    rewrite decide_True by reflexivity. reflexivity.
  - destruct (find_leaf_v V h fuel k' root) as [[p'|]|]; try reflexivity. cbv beta.
    destruct (decide (p' = p)) as [->|Hp']; [|reflexivity].
    rewrite leaf_lookup_tomb, decide_False by assumption. reflexivity.
Qed.

Lemma Remove_views fuel k tr : tinv true tr [] ->
  wpe (Remove fuel k) True (fun r tr' =>
    tinv true tr' [] /\ root_page_id_ tr' = root_page_id_ tr /\ pool_size_ (bpm tr') = pool_size_ (bpm tr) /\
    (r = false -> same_views tr tr') /\
    (r = true -> exists p, find_leaf_v (views tr) (nz tr) fuel k (root_page_id_ tr) = Some (Some p) /\
       LeafFindKey (views tr p) k < num_keys (views tr p) /\ key (entry_at (views tr p) (LeafFindKey (views tr p) k)) = k /\
       forall q, views tr' q = if decide (q = p) then tomb (views tr p) (LeafFindKey (views tr p) k) else views tr q)) tr.
Proof.
  intros Hinv. unfold Remove. apply wpe_get_bind. case_decide as Hr.
  { apply wpe_ret. split; [exact Hinv|split; [reflexivity|split; [reflexivity|split; [intros _ q; reflexivity|discriminate]]]]. }
  apply wpe_bind. eapply wpe_mono; [intros _; exact I| |apply (FindLeafPage_e fuel k tr Hinv)].
  intros [f|] tr1 [(Hv1 & Hr1 & Hnp1 & Hps1) Hfl].
  - destruct Hfl as (p & Hfl & Hinv1 & Hh1). apply wpe_page_of, wpe_pid_of.
    rewrite (pid_holds _ _ _ _ _ Hinv1 Hh1).
    assert (Hd : views tr p = data (frame (bpm tr1) f))
      by (rewrite <- (Hv1 p); exact (view_holds _ _ _ Hh1)).
    case_decide as Hk.
    + apply (wpe_unpin true tr1 [] p false); [exact Hinv1|discriminate|].
      intros tr2 Hinv2 Hv2 _ Hnp2 Hr2 Hps2. apply wpe_ret.
      split; [exact Hinv2|split; [congruence|split; [congruence|split; [|discriminate]]]].
      intros _ q. rewrite Hv2, Hv1. reflexivity.
    + pose proof (tinv_weaken _ _ _ Hinv1) as Hw.
      apply (wpe_write tr1 [p] f p); [exact Hw|exact Hh1|left|refs_keep|]. intros Hinv2.
      apply (wpe_unpin false _ [] p true); [exact Hinv2|reflexivity|].
      intros tr3 [Hok3 Hroot3] Hv3 _ Hnp3 Hr3 Hps3. apply wpe_ret.
      split; [split; [apply pool_ok_strict, Hok3|exact Hroot3]|].
      split; [rewrite Hr3; exact Hr1|split; [rewrite Hps3; exact Hps1|split; [discriminate|]]].
      intros _. exists p. rewrite Hd. split; [exact Hfl|].
      set (d := data (frame (bpm tr1) f)) in *.
      split; [lia|]. split.
      { destruct (Z.eq_dec (key (entry_at d (LeafFindKey d k))) k); [assumption|exfalso; apply Hk; right; assumption]. }
      intros q. rewrite Hv3. unfold views at 1. rewrite (write_view tr1 [p] f p _ Hw Hh1 q).
      destruct (decide (q = p)) as [->|Hq].
      * rewrite (view_holds _ _ _ Hh1). reflexivity.
      * exact (Hv1 q).
  - destruct Hfl as (_ & Hinv1). apply wpe_ret.
    split; [exact Hinv1|split; [exact Hr1|split; [exact Hps1|split; [intros _; exact Hv1|discriminate]]]].
Qed.

(** After [Remove(k)], [Search(k)] finds no value if [Remove] returned
    [true], and every other key (and [k] itself if it returned [false])
    is answered as before. *)
Theorem remove_then_search fuel k tr r tr1 k' : tinv true tr [] -> Remove fuel k tr = Ok r tr1 ->
  Observe.results_of (Search fuel k' tr1) =
  if r && bool_decide (k' = k) then Some None else Observe.results_of (Search fuel k' tr).
Proof.
  intros Hinv E.
  destruct (wpe_run _ _ _ _ _ _ (Remove_views fuel k tr Hinv) E) as (Hinv1 & Hr1 & Hps1 & Hfalse & Htrue).
  rewrite !search_results by assumption.
  assert (Hnz : nz tr1 = nz tr) by (unfold nz; rewrite Hps1; reflexivity). rewrite Hnz, Hr1.
  destruct r.
  - destruct (Htrue eq_refl) as (p & Hfl & _ & Hk & Hv).
    rewrite (search_v_ext (fun q => if decide (q = p) then tomb (views tr p) (LeafFindKey (views tr p) k) else views tr q)
               (views tr1)) by exact Hv.
    rewrite (search_v_tomb _ _ _ _ _ _ k' Hfl Hk). cbn [andb].
    case_bool_decide; [rewrite decide_True by assumption|rewrite decide_False by assumption]; reflexivity.
  - rewrite (search_v_ext (views tr) (views tr1)) by exact (Hfalse eq_refl). reflexivity.
Qed.

Lemma remove_then_search_witness :
  Observe.results_of (Search 16 3 (ok_state (Remove 16 3 demo_store) demo_store)) = Some None.
Proof.
  rewrite (remove_then_search 16 3 demo_store true (ok_state (Remove 16 3 demo_store) demo_store) 3
             (proj1 demo_store_sinv) ltac:(vm_compute; reflexivity)).
  reflexivity.
Defined.

(** *** Destroying a store *)

(** Destroying a store writes it out: afterwards the file holds exactly
    the allocated pages, each as it read in the pool. *)
Theorem destroy_persists tr : tinv true tr [] ->
  exists tr', Destroy tr = Ok tt tr' /\
    (forall q, DiskManager.file_page (file_of tr') q = views tr q) /\
    (forall q, is_Some (file_of tr' !! q) <-> 0 <= q < np (bpm tr)).
Proof.
  intros Hinv. destruct (Destroy_ok tr Hinv) as (tr' & E & Hok & Hv & Hnp & _ & _ & Hcl).
  destruct (clean_file (bpm tr') Hok Hcl) as [Hf Hd].
  exists tr'. split; [exact E|split].
  - intros q. rewrite <- (Hv q). exact (Hf q).
  - intros q. rewrite <- Hnp. exact (Hd q).
Qed.

Lemma destroy_persists_witness :
  exists tr', Destroy demo_store = Ok tt tr' /\ DiskManager.file_page (file_of tr') 1 = views demo_store 1.
Proof.
  destruct (destroy_persists demo_store (proj1 demo_store_sinv)) as (tr' & E & H & _).
  exists tr'. split; [exact E|apply H].
Defined.

(** [kf] is strictly increasing on the slots [0 .. n - 1]. *)
Definition sorted_upto (kf : Z -> Z) (n : Z) : Prop :=
  forall i j, 0 <= i -> i < j -> j < n -> kf i < kf j.

Lemma mid_bounds lo hi : lo < hi -> lo <= (lo + hi) / 2 < hi.
Proof. intros H. split; [apply Z.div_le_lower_bound|apply Z.div_lt_upper_bound]; lia. Qed.

Lemma leaf_bsearch_spec fuel d k lo hi :
  sorted_upto (fun i => key (entry_at d i)) (num_keys d) ->
  0 <= lo <= hi -> hi <= num_keys d -> hi - lo < Z.of_nat fuel ->
  (forall i, 0 <= i < lo -> key (entry_at d i) < k) ->
  (forall i, hi <= i < num_keys d -> k <= key (entry_at d i)) ->
  lo <= leaf_bsearch fuel d k lo hi <= hi /\
  (forall i, 0 <= i < leaf_bsearch fuel d k lo hi -> key (entry_at d i) < k) /\
  (forall i, leaf_bsearch fuel d k lo hi <= i < num_keys d -> k <= key (entry_at d i)).
Proof.
  intros Hs. revert lo hi. induction fuel as [|n IH]; intros lo hi Hlo Hhi Hf Hl Hh; cbn [leaf_bsearch]; [lia|].
  case_decide as Hlt.
  - pose proof (mid_bounds lo hi Hlt) as Hm. set (mid := (lo + hi) / 2) in *.
    case_decide as Hk.
    + destruct (IH (mid + 1) hi) as (B & L & R); [lia|lia|lia| |exact Hh|].
      { intros i Hi. destruct (decide (i = mid)) as [->|Ne]; [exact Hk|].
        pose proof (Hs i mid ltac:(lia) ltac:(lia) ltac:(lia)). cbv beta in *. lia. }
      split; [lia|split; assumption].
    + destruct (IH lo mid) as (B & L & R); [lia|lia|lia|exact Hl| |].
      { intros i Hi. destruct (decide (i = mid)) as [->|Ne]; [lia|].
        pose proof (Hs mid i ltac:(lia) ltac:(lia) ltac:(lia)). cbv beta in *. lia. }
      split; [lia|split; assumption].
  - assert (lo = hi) by lia. subst. split; [lia|split; assumption].
Qed.

Lemma internal_bsearch_spec fuel d k lo hi :
  sorted_upto (key_at d) (num_keys d) ->
  0 <= lo <= hi -> hi <= num_keys d -> hi - lo < Z.of_nat fuel ->
  (forall i, 0 <= i < lo -> key_at d i <= k) ->
  (forall i, hi <= i < num_keys d -> k < key_at d i) ->
  lo <= internal_bsearch fuel d k lo hi <= hi /\
  (forall i, 0 <= i < internal_bsearch fuel d k lo hi -> key_at d i <= k) /\
  (forall i, internal_bsearch fuel d k lo hi <= i < num_keys d -> k < key_at d i).
Proof.
  intros Hs. revert lo hi. induction fuel as [|n IH]; intros lo hi Hlo Hhi Hf Hl Hh; cbn [internal_bsearch]; [lia|].
  case_decide as Hlt.
  - pose proof (mid_bounds lo hi Hlt) as Hm. set (mid := (lo + hi) / 2) in *.
    case_decide as Hk.
    + destruct (IH (mid + 1) hi) as (B & L & R); [lia|lia|lia| |exact Hh|].
      { intros i Hi. destruct (decide (i = mid)) as [->|Ne]; [exact Hk|].
        pose proof (Hs i mid ltac:(lia) ltac:(lia) ltac:(lia)). cbv beta in *. lia. }
      split; [lia|split; assumption].
    + destruct (IH lo mid) as (B & L & R); [lia|lia|lia|exact Hl| |].
      { intros i Hi. destruct (decide (i = mid)) as [->|Ne]; [lia|].
        pose proof (Hs mid i ltac:(lia) ltac:(lia) ltac:(lia)). cbv beta in *. lia. }
      split; [lia|split; assumption].
  - assert (lo = hi) by lia. subst. split; [lia|split; assumption].
Qed.

Lemma LeafFindKey_spec d k : 0 <= num_keys d ->
  sorted_upto (fun i => key (entry_at d i)) (num_keys d) ->
  0 <= LeafFindKey d k <= num_keys d /\
  (forall i, 0 <= i < LeafFindKey d k -> key (entry_at d i) < k) /\
  (forall i, LeafFindKey d k <= i < num_keys d -> k <= key (entry_at d i)) /\
  ((exists i, 0 <= i < num_keys d /\ key (entry_at d i) = k) <->
   LeafFindKey d k < num_keys d /\ key (entry_at d (LeafFindKey d k)) = k).
Proof.
  intros Hn Hs. unfold LeafFindKey.
  destruct (leaf_bsearch_spec (S (Z.to_nat (num_keys d))) d k 0 (num_keys d)) as (B & L & R);
    [exact Hs|lia|lia|lia|lia|lia|].
  set (idx := leaf_bsearch _ d k 0 (num_keys d)) in *.
  split; [lia|split; [exact L|split; [exact R|]]]. split.
  - intros (i & Hi & Hk). destruct (decide (i < idx)) as [Lt|Ge]; [specialize (L i ltac:(lia)); lia|].
    split; [lia|]. specialize (R idx ltac:(lia)). destruct (decide (i = idx)) as [->|Ne]; [exact Hk|].
    pose proof (Hs idx i ltac:(lia) ltac:(lia) ltac:(lia)). cbv beta in *. lia.
  - intros [Hi Hk]. exists idx. split; [lia|exact Hk].
Qed.

(** [LeafFindKey] on a leaf with strictly increasing keys returns the
    number of keys below [k]: every key before the index is smaller than
    [k], every key from it on is at least [k], and the key at the index is
    [k] exactly when the leaf holds [k]. *)
Theorem leaf_find_key_correct d k : 0 <= num_keys d ->
  sorted_upto (fun i => key (entry_at d i)) (num_keys d) ->
  0 <= LeafFindKey d k <= num_keys d /\
  (forall i, 0 <= i < LeafFindKey d k -> key (entry_at d i) < k) /\
  (forall i, LeafFindKey d k <= i < num_keys d -> k <= key (entry_at d i)) /\
  ((exists i, 0 <= i < num_keys d /\ key (entry_at d i) = k) <->
   LeafFindKey d k < num_keys d /\ key (entry_at d (LeafFindKey d k)) = k).
Proof. exact (LeafFindKey_spec d k). Qed.

Lemma leaf_find_key_correct_witness :
  let d := set_num_keys 3 (set_entries [mkLeafEntry 1 zero_value; mkLeafEntry 3 zero_value; mkLeafEntry 5 zero_value] zero_page) in
  0 <= LeafFindKey d 4 <= num_keys d /\
  (forall i, 0 <= i < LeafFindKey d 4 -> key (entry_at d i) < 4) /\
  (forall i, LeafFindKey d 4 <= i < num_keys d -> 4 <= key (entry_at d i)) /\
  ((exists i, 0 <= i < num_keys d /\ key (entry_at d i) = 4) <->
   LeafFindKey d 4 < num_keys d /\ key (entry_at d (LeafFindKey d 4)) = 4).
Proof.
  intros d. apply (leaf_find_key_correct d 4); [vm_compute; discriminate|].
  intros i j H0 H1 H2. cbn [num_keys d set_num_keys] in H2.
  assert (Hi : i = 0 \/ i = 1) by lia. assert (Hj : j = 1 \/ j = 2) by lia.
  destruct Hi as [->| ->], Hj as [->| ->]; first [lia|vm_compute; reflexivity].
Defined.

(** [InternalFindChild] on a node with strictly increasing keys follows
    child [i], where [i] is the number of keys not above [k]: the keys
    before slot [i] are at most [k] and those from slot [i] on exceed [k]. *)
Theorem internal_find_child_correct d k : 0 <= num_keys d -> sorted_upto (key_at d) (num_keys d) ->
  exists i, InternalFindChild d k = child_at d i /\ 0 <= i <= num_keys d /\
    (forall j, 0 <= j < i -> key_at d j <= k) /\ (forall j, i <= j < num_keys d -> k < key_at d j).
Proof.
  intros Hn Hs. unfold InternalFindChild.
  destruct (internal_bsearch_spec (S (Z.to_nat (num_keys d))) d k 0 (num_keys d)) as (B & L & R);
    [exact Hs|lia|lia|lia|lia|lia|].
  eexists. split; [reflexivity|]. split; [lia|split; assumption].
Qed.

Lemma internal_find_child_correct_witness :
  let d := set_num_keys 2 (set_keys [10; 20] (set_children [7; 8; 9] zero_page)) in
  exists i, InternalFindChild d 15 = child_at d i /\ 0 <= i <= num_keys d /\
    (forall j, 0 <= j < i -> key_at d j <= 15) /\ (forall j, i <= j < num_keys d -> 15 < key_at d j).
Proof.
  intros d. apply (internal_find_child_correct d 15); [vm_compute; discriminate|].
  intros i j H0 H1 H2. cbn [num_keys d set_num_keys] in H2.
  assert (i = 0) as -> by lia. assert (j = 1) as -> by lia. vm_compute. reflexivity.
Defined.

Lemma leaf_lookup_spec d k : 0 <= num_keys d -> sorted_upto (fun i => key (entry_at d i)) (num_keys d) ->
  (forall i, 0 <= i < num_keys d -> key (entry_at d i) = k ->
     leaf_lookup d k = if negb (Ascii.eqb (first_byte (value (entry_at d i))) zero)
                       then Some (value_string (value (entry_at d i))) else None) /\
  ((forall i, 0 <= i < num_keys d -> key (entry_at d i) <> k) -> leaf_lookup d k = None).
Proof.
  intros Hn Hs. destruct (LeafFindKey_spec d k Hn Hs) as (B & L & R & Iff).
  unfold leaf_lookup. split.
  - intros i Hi Hk. destruct (proj1 Iff (ex_intro _ i (conj Hi Hk))) as [Hlt He].
    assert (Heq : LeafFindKey d k = i).
    { destruct (Z.lt_trichotomy (LeafFindKey d k) i) as [C|[C|C]]; [|exact C|].
      - pose proof (Hs (LeafFindKey d k) i ltac:(lia) ltac:(lia) ltac:(lia)). cbv beta in *. lia.
      - pose proof (Hs i (LeafFindKey d k) ltac:(lia) ltac:(lia) ltac:(lia)). cbv beta in *. lia. }
    rewrite decide_True by (split; [exact Hlt|exact He]). rewrite Heq. reflexivity.
  - intros Hno. rewrite decide_False; [reflexivity|]. intros [Hlt He]. exact (Hno (LeafFindKey d k) ltac:(lia) He).
Qed.

(** The leaf lookup of [Search] on a leaf with strictly increasing keys:
    if slot [i] holds [k], it answers the value stored there ([None] for
    an empty value); if no slot holds [k], it answers [None]. *)
Theorem leaf_lookup_sorted d k : 0 <= num_keys d -> sorted_upto (fun i => key (entry_at d i)) (num_keys d) ->
  (forall i, 0 <= i < num_keys d -> key (entry_at d i) = k ->
     leaf_lookup d k = if negb (Ascii.eqb (first_byte (value (entry_at d i))) zero)
                       then Some (value_string (value (entry_at d i))) else None) /\
  ((forall i, 0 <= i < num_keys d -> key (entry_at d i) <> k) -> leaf_lookup d k = None).
Proof. exact (leaf_lookup_spec d k). Qed.

Lemma leaf_lookup_sorted_witness :
  let d := set_num_keys 3 (set_entries [mkLeafEntry 1 (strncpy_value "a"%string); mkLeafEntry 3 (strncpy_value "b"%string);
                                        mkLeafEntry 5 (strncpy_value "c"%string)] zero_page) in
  leaf_lookup d 3 = Some "b"%string.
Proof.
  intros d. rewrite (proj1 (leaf_lookup_sorted d 3 ltac:(vm_compute; discriminate) ltac:(
    intros i j H0 H1 H2; cbn [num_keys d set_num_keys] in H2;
    assert (Hi : i = 0 \/ i = 1) by lia; assert (Hj : j = 1 \/ j = 2) by lia;
    destruct Hi as [->| ->], Hj as [->| ->]; first [lia|vm_compute; reflexivity])) 1); [|unfold d; cbn [num_keys set_num_keys]; lia|vm_compute; reflexivity].
  vm_compute. reflexivity.
Defined.

Lemma update_frame_ext b f g g' : g (frame b f) = g' (frame b f) -> update_frame f g b = update_frame f g' b.
Proof. intros H. unfold update_frame. rewrite H. reflexivity. Qed.

Lemma update_frame_twice' b f u1 u2 :
  update_frame f u2 (update_frame f u1 b) = update_frame f (fun pg => u2 (u1 pg)) b.
Proof.
  destruct (decide (f < length (pages_ b))%nat) as [Hl|Hl]; [apply update_frame_twice, Hl|].
  unfold update_frame, set_pages, frame; cbn [pages_ pool_size_ disk_manager_ page_table_ free_list_ lru_list_].
  rewrite !list_insert_ge by (rewrite ?length_insert; lia). reflexivity.
Qed.

Lemma wstate_wstate f u1 u2 tr : wstate f u2 (wstate f u1 tr) = wstate f (fun d => u2 (u1 d)) tr.
Proof.
  unfold wstate, set_bpm. cbn [bpm root_page_id_]. f_equal.
  rewrite update_frame_twice'. apply update_frame_ext. reflexivity.
Qed.

Lemma wstate_ext f u u' tr : u (data (frame (bpm tr) f)) = u' (data (frame (bpm tr) f)) ->
  wstate f u tr = wstate f u' tr.
Proof. intros H. unfold wstate. f_equal. apply update_frame_ext. cbv beta. rewrite H. reflexivity. Qed.

Lemma shift_entries_get c i es j : 0 <= i - Z.of_nat c -> 0 <= j ->
  arr_get zero_entry (shift_entries c i es) j =
  if decide (i - Z.of_nat c < j <= i) then arr_get zero_entry es (j - 1) else arr_get zero_entry es j.
Proof.
  revert i es. induction c as [|c IH]; intros i es Hi Hj; cbn [shift_entries].
  - rewrite decide_False by lia. reflexivity.
  - rewrite IH by lia. rewrite !arr_get_set.
    destruct (decide (i - 1 - Z.of_nat c < j <= i - 1)).
    + rewrite decide_False by lia. rewrite decide_True by lia. reflexivity.
    + destruct (decide (Z.to_nat j = Z.to_nat i)).
      * rewrite decide_True by lia. assert (j = i) as -> by lia. reflexivity.
      * rewrite decide_False by lia. reflexivity.
Qed.

(** The page [LeafInsert] leaves in its frame: the write that replaces
    the value of an existing key, or the three writes that shift the
    entries from [idx] on, store the new entry and count it, applied in
    order to the leaf [d]. *)
Definition leaf_insert_page (d : PageData) (k : Z) (v : string) : PageData :=
  let idx := LeafFindKey d k in
  if decide (idx < num_keys d /\ key (entry_at d idx) = k) then
    set_entries (arr_set zero_entry (entries d) idx (mkLeafEntry (key (entry_at d idx)) (strncpy_value v))) d
  else
    let d1 := set_entries (shift_entries (Z.to_nat (num_keys d - idx)) (num_keys d) (entries d)) d in
    let d2 := set_entries (arr_set zero_entry (entries d1) idx (mkLeafEntry k (strncpy_value v))) d1 in
    set_num_keys (num_keys d2 + 1) d2.

Lemma LeafInsert_eq f k v tr :
  LeafInsert f k v tr = Ok true (wstate f (fun _ => leaf_insert_page (data (frame (bpm tr) f)) k v) tr).
Proof.
  unfold LeafInsert. unfold bind at 1. unfold page_of.
  set (d := data (frame (bpm tr) f)). unfold leaf_insert_page. set (idx := LeafFindKey d k).
  destruct (decide (idx < num_keys d /\ key (entry_at d idx) = k)).
  - unfold bind. rewrite write_page_eq. f_equal; try (apply wstate_ext; reflexivity).
  - unfold bind. rewrite !write_page_eq, !wstate_wstate. f_equal; try (apply wstate_ext; reflexivity).
Qed.

Lemma leaf_insert_page_spec d k v :
  let d' := leaf_insert_page d k v in
  let idx := LeafFindKey d k in
  page_type d' = page_type d /\ parent_page_id d' = parent_page_id d /\
  next_page_id d' = next_page_id d /\ children d' = children d /\ keys d' = keys d /\
  (idx < num_keys d /\ key (entry_at d idx) = k ->
     num_keys d' = num_keys d /\
     forall j, 0 <= j -> entry_at d' j =
       if decide (j = idx) then mkLeafEntry k (strncpy_value v) else entry_at d j) /\
  (~ (idx < num_keys d /\ key (entry_at d idx) = k) ->
     num_keys d' = num_keys d + 1 /\
     forall j, 0 <= j -> entry_at d' j =
       if decide (j < idx) then entry_at d j
       else if decide (j = idx) then mkLeafEntry k (strncpy_value v)
       else if decide (j <= num_keys d) then entry_at d (j - 1) else entry_at d j).
Proof.
  intros d' idx. pose proof (LeafFindKey_nonneg d k) as Hidx. fold idx in Hidx.
  unfold d', leaf_insert_page. fold idx.
  destruct (decide (idx < num_keys d /\ key (entry_at d idx) = k)) as [F|F].
  - do 5 (split; [reflexivity|]). split.
    + intros _. split; [reflexivity|]. intros j Hj. unfold entry_at at 1. cbn [entries set_entries].
      rewrite arr_get_set. destruct (decide (j = idx)) as [->|Ne].
      * rewrite decide_True by reflexivity. rewrite (proj2 F). reflexivity.
      * rewrite decide_False by lia. reflexivity.
    + intros NF. exfalso. exact (NF F).
  - do 5 (split; [reflexivity|]). split.
    + intros F'. exfalso. exact (F F').
    + intros _. split; [reflexivity|]. intros j Hj. unfold entry_at at 1. cbn [entries set_entries set_num_keys].
      rewrite arr_get_set.
      destruct (decide (idx <= num_keys d)) as [Le|Gt].
      * rewrite shift_entries_get by lia. rewrite Z2Nat.id by lia.
        destruct (decide (j < idx)).
        -- rewrite decide_False by lia. rewrite decide_False by lia. reflexivity.
        -- destruct (decide (j = idx)) as [->|Ne]; [rewrite decide_True by reflexivity; reflexivity|].
           rewrite decide_False by lia.
           destruct (decide (j <= num_keys d)); [rewrite decide_True by lia|rewrite decide_False by lia]; reflexivity.
      * replace (Z.to_nat (num_keys d - idx)) with 0%nat by lia. cbn [shift_entries].
        destruct (decide (j < idx)); [rewrite decide_False by lia; reflexivity|].
        destruct (decide (j = idx)) as [->|Ne]; [rewrite decide_True by reflexivity; reflexivity|].
        rewrite decide_False by lia. rewrite decide_False by lia. reflexivity.
Qed.

Lemma leaf_insert_page_sorted d k v : 0 <= num_keys d ->
  sorted_upto (fun i => key (entry_at d i)) (num_keys d) ->
  let d' := leaf_insert_page d k v in
  ((exists i, 0 <= i < num_keys d /\ key (entry_at d i) = k) -> num_keys d' = num_keys d) /\
  ((forall i, 0 <= i < num_keys d -> key (entry_at d i) <> k) -> num_keys d' = num_keys d + 1) /\
  sorted_upto (fun i => key (entry_at d' i)) (num_keys d') /\
  leaf_lookup d' k = (if negb (Ascii.eqb (first_byte (strncpy_value v)) zero)
                      then Some (value_string (strncpy_value v)) else None) /\
  (forall k', k' <> k -> leaf_lookup d' k' = leaf_lookup d k').
Proof.
  intros Hn Hs d'.
  destruct (LeafFindKey_spec d k Hn Hs) as (B & L & R & Iff).
  destruct (leaf_insert_page_spec d k v) as (_ & _ & _ & _ & _ & Hf & Hnf). fold d' in Hf, Hnf.
  set (idx := LeafFindKey d k) in *.
  destruct (decide (idx < num_keys d /\ key (entry_at d idx) = k)) as [F|F].
  - destruct (Hf F) as [Hn' He]. clear Hf Hnf.
    assert (Hk' : forall j, 0 <= j -> key (entry_at d' j) = key (entry_at d j)).
    { intros j Hj. rewrite He by exact Hj. destruct (decide (j = idx)) as [->|_]; [exact (eq_sym (proj2 F))|reflexivity]. }
    assert (Hs' : sorted_upto (fun i => key (entry_at d' i)) (num_keys d')).
    { intros i j Hi Hij Hj. cbv beta. rewrite !Hk' by lia. rewrite Hn' in Hj. apply Hs; lia. }
    assert (Hn0 : 0 <= num_keys d') by lia.
    split; [intros _; exact Hn'|]. split; [intros Hno; exfalso; exact (Hno idx ltac:(lia) (proj2 F))|].
    split; [exact Hs'|]. split.
    + rewrite (proj1 (leaf_lookup_spec d' k Hn0 Hs') idx) by (try rewrite Hk'; lia).
      rewrite He by lia. rewrite decide_True by reflexivity. reflexivity.
    + intros k' Ne. destruct (LeafFindKey_spec d k' Hn Hs) as (B' & _ & _ & Iff').
      destruct (decide (LeafFindKey d k' < num_keys d /\ key (entry_at d (LeafFindKey d k')) = k')) as [P|P].
      * set (i := LeafFindKey d k') in *.
        rewrite (proj1 (leaf_lookup_spec d k' Hn Hs) i) by lia.
        rewrite (proj1 (leaf_lookup_spec d' k' Hn0 Hs') i) by (try rewrite Hk'; lia).
        rewrite He by lia. rewrite decide_False; [reflexivity|]. intros ->. apply Ne. rewrite <- (proj2 P). exact (proj2 F).
      * rewrite (proj2 (leaf_lookup_spec d k' Hn Hs)).
        2:{ intros i Hi Hk. exact (P (proj1 Iff' (ex_intro _ i (conj Hi Hk)))). }
        apply (proj2 (leaf_lookup_spec d' k' Hn0 Hs')). intros i Hi Hk. rewrite Hk' in Hk by lia.
        assert (Hi2 : 0 <= i < num_keys d) by lia. exact (P (proj1 Iff' (ex_intro _ i (conj Hi2 Hk)))).
  - destruct (Hnf F) as [Hn' He]. clear Hf Hnf.
    assert (Habs : forall i, 0 <= i < num_keys d -> key (entry_at d i) <> k).
    { intros i Hi Hk. exact (F (proj1 Iff (ex_intro _ i (conj Hi Hk)))). }
    assert (Rgt : forall m, idx <= m < num_keys d -> k < key (entry_at d m)).
    { intros m Hm. specialize (R m Hm). specialize (Habs m ltac:(lia)). lia. }
    assert (Hk' : forall j, 0 <= j -> key (entry_at d' j) =
              if decide (j < idx) then key (entry_at d j) else if decide (j = idx) then k
              else if decide (j <= num_keys d) then key (entry_at d (j - 1)) else key (entry_at d j)).
    { intros j Hj. rewrite He by exact Hj. repeat case_decide; reflexivity. }
    assert (Hs' : sorted_upto (fun i => key (entry_at d' i)) (num_keys d')).
    { intros i j Hi Hij Hj. cbv beta. rewrite Hn' in Hj. rewrite !Hk' by lia.
      destruct (decide (j < idx)).
      - rewrite decide_True by lia. apply Hs; lia.
      - destruct (decide (j = idx)).
        + rewrite decide_True by lia. apply L. lia.
        + destruct (decide (j <= num_keys d)) as [_|]; [|lia]. pose proof (Rgt (j - 1) ltac:(lia)).
          destruct (decide (i < idx)); [pose proof (L i ltac:(lia)); lia|].
          destruct (decide (i = idx)); [lia|]. rewrite decide_True by lia. apply Hs; lia. }
    assert (Hn0 : 0 <= num_keys d') by lia.
    split; [intros (i & Hi & Hk); exfalso; exact (Habs i Hi Hk)|]. split; [intros _; exact Hn'|].
    split; [exact Hs'|]. split.
    + rewrite (proj1 (leaf_lookup_spec d' k Hn0 Hs') idx).
      * rewrite He by lia. rewrite decide_False by lia. rewrite decide_True by reflexivity. reflexivity.
      * lia.
      * rewrite Hk' by lia. rewrite decide_False by lia. rewrite decide_True by reflexivity. reflexivity.
    + intros k' Ne. destruct (LeafFindKey_spec d k' Hn Hs) as (B' & _ & _ & Iff').
      destruct (decide (LeafFindKey d k' < num_keys d /\ key (entry_at d (LeafFindKey d k')) = k')) as [P|P].
      * set (i := LeafFindKey d k') in *.
        assert (Hpos : exists i', 0 <= i' < num_keys d' /\ entry_at d' i' = entry_at d i).
        { destruct (decide (i < idx)).
          - exists i. split; [lia|]. rewrite He by lia. rewrite decide_True by lia. reflexivity.
          - exists (i + 1). split; [lia|]. rewrite He by lia.
              rewrite decide_False by lia. rewrite decide_False by lia. rewrite decide_True by lia.
              f_equal. lia. }
        destruct Hpos as (i' & Hi' & Ei').
        rewrite (proj1 (leaf_lookup_spec d k' Hn Hs) i) by lia.
        rewrite (proj1 (leaf_lookup_spec d' k' Hn0 Hs') i'); [rewrite Ei'; reflexivity|lia|].
        rewrite Ei'. exact (proj2 P).
      * rewrite (proj2 (leaf_lookup_spec d k' Hn Hs)).
        2:{ intros i Hi Hk. exact (P (proj1 Iff' (ex_intro _ i (conj Hi Hk)))). }
        apply (proj2 (leaf_lookup_spec d' k' Hn0 Hs')). intros j Hj Hk. rewrite Hk' in Hk by lia.
        destruct (decide (j < idx)).
        { assert (Hj2 : 0 <= j < num_keys d) by lia. exact (P (proj1 Iff' (ex_intro _ j (conj Hj2 Hk)))). }
        destruct (decide (j = idx)); [exact (Ne (eq_sym Hk))|].
        rewrite decide_True in Hk by lia.
        assert (Hj2 : 0 <= j - 1 < num_keys d) by lia. exact (P (proj1 Iff' (ex_intro _ (j - 1) (conj Hj2 Hk)))).
Qed.

(** [LeafInsert] changes nothing but the bytes of its frame, which it
    rewrites as [leaf_insert_page]: for a key already at the slot
    [LeafFindKey] finds, only that entry's value is replaced; otherwise the
    entries from that slot up to [num_keys - 1] move one slot up, the new
    entry takes the slot and [num_keys] grows by one. The header fields
    other than [num_keys] are kept. *)
Theorem leaf_insert_effect f k v tr :
  let d := data (frame (bpm tr) f) in
  let d' := leaf_insert_page d k v in
  let idx := LeafFindKey d k in
  LeafInsert f k v tr = bind (write_page f (fun _ => d')) (fun _ => ret true) tr /\
  page_type d' = page_type d /\ parent_page_id d' = parent_page_id d /\
  next_page_id d' = next_page_id d /\ children d' = children d /\ keys d' = keys d /\
  (idx < num_keys d /\ key (entry_at d idx) = k ->
     num_keys d' = num_keys d /\
     forall j, 0 <= j -> entry_at d' j =
       if decide (j = idx) then mkLeafEntry k (strncpy_value v) else entry_at d j) /\
  (~ (idx < num_keys d /\ key (entry_at d idx) = k) ->
     num_keys d' = num_keys d + 1 /\
     forall j, 0 <= j -> entry_at d' j =
       if decide (j < idx) then entry_at d j
       else if decide (j = idx) then mkLeafEntry k (strncpy_value v)
       else if decide (j <= num_keys d) then entry_at d (j - 1) else entry_at d j).
Proof.
  intros d d' idx. split; [rewrite LeafInsert_eq; reflexivity|]. exact (leaf_insert_page_spec d k v).
Qed.

(** [LeafInsert] on a leaf with strictly increasing keys keeps them
    strictly increasing, adds a slot only for a new key, and afterwards the
    leaf lookup of [Search] answers the stored value for [k] and what it
    answered before for every other key. *)
Theorem leaf_insert_sorted f k v tr :
  0 <= num_keys (data (frame (bpm tr) f)) ->
  sorted_upto (fun i => key (entry_at (data (frame (bpm tr) f)) i)) (num_keys (data (frame (bpm tr) f))) ->
  let d := data (frame (bpm tr) f) in
  let d' := leaf_insert_page d k v in
  LeafInsert f k v tr = bind (write_page f (fun _ => d')) (fun _ => ret true) tr /\
  ((exists i, 0 <= i < num_keys d /\ key (entry_at d i) = k) -> num_keys d' = num_keys d) /\
  ((forall i, 0 <= i < num_keys d -> key (entry_at d i) <> k) -> num_keys d' = num_keys d + 1) /\
  sorted_upto (fun i => key (entry_at d' i)) (num_keys d') /\
  leaf_lookup d' k = (if negb (Ascii.eqb (first_byte (strncpy_value v)) zero)
                      then Some (value_string (strncpy_value v)) else None) /\
  (forall k', k' <> k -> leaf_lookup d' k' = leaf_lookup d k').
Proof.
  intros Hn Hs d d'. split; [rewrite LeafInsert_eq; reflexivity|]. exact (leaf_insert_page_sorted d k v Hn Hs).
Qed.

(** A leaf with keys 1, 3 and 5, held pinned in the only frame of a pool. *)
Definition sorted_leaf : PageData :=
  set_num_keys 3 (set_entries [mkLeafEntry 1 (strncpy_value "a"%string); mkLeafEntry 3 (strncpy_value "b"%string);
                               mkLeafEntry 5 (strncpy_value "c"%string)] (set_page_type PT_LEAF zero_page)).

Definition leaf_store : BPlusTree.t :=
  BPlusTree.mk (BufferPoolManager.mk 1 (DiskManager.Open ∅) [mkPage 1 sorted_leaf false 1] {[1 := 0%nat]} [] []) 1.

Lemma leaf_insert_sorted_witness :
  leaf_lookup (data (frame (bpm (ok_state (LeafInsert 0 4 "d"%string leaf_store) leaf_store)) 0)) 4 = Some "d"%string.
Proof.
  destruct (leaf_insert_sorted 0 4 "d"%string leaf_store) as (E & _ & _ & _ & Hl & _).
  - vm_compute. discriminate.
  - intros i j H0 H1 H2. replace (num_keys (data (frame (bpm leaf_store) 0))) with 3 in H2 by (vm_compute; reflexivity).
    assert (Hi : i = 0 \/ i = 1) by lia. assert (Hj : j = 1 \/ j = 2) by lia.
    destruct Hi as [->| ->], Hj as [->| ->]; first [lia|vm_compute; reflexivity].
  - rewrite E. unfold ok_state, bind, write_page, modify, ret. cbn [bpm set_bpm].
    rewrite frame_update_frame by (vm_compute; lia). rewrite decide_True by reflexivity.
    cbn [data set_data]. rewrite Hl. vm_compute. reflexivity.
Defined.

Lemma wpe_triv {S A} (m : M S A) (Q : A -> S -> Prop) s : (forall a s', Q a s') -> wpe m True Q s.
Proof. intros H. unfold wpe. destruct (m s); [apply H|exact I]. Qed.

Lemma Insert_views fuel k v tr : tinv true tr [] -> root_page_id_ tr <> INVALID_PAGE_ID ->
  wpe (Insert fuel k v) True (fun r tr' =>
    (r = false -> tinv true tr' [] /\ root_page_id_ tr' = root_page_id_ tr /\
                  pool_size_ (bpm tr') = pool_size_ (bpm tr) /\ same_views tr tr') /\
    (r = true -> exists p, find_leaf_v (views tr) (nz tr) fuel k (root_page_id_ tr) = Some (Some p) /\
       (num_keys (views tr p) < LEAF_MAX_ENTRIES ->
          tinv true tr' [] /\ root_page_id_ tr' = root_page_id_ tr /\
          pool_size_ (bpm tr') = pool_size_ (bpm tr) /\
          forall q, views tr' q = if decide (q = p) then leaf_insert_page (views tr p) k v else views tr q))) tr.
Proof.
  intros Hinv Hr. unfold Insert. apply wpe_get_bind. rewrite decide_False by exact Hr.
  apply wpe_bind. eapply wpe_mono; [intros _; exact I| |apply (FindLeafPage_e fuel k tr Hinv)].
  intros [f|] tr1 [(Hv1 & Hr1 & Hnp1 & Hps1) Hfl].
  - destruct Hfl as (p & Hfl & Hinv1 & Hh1). apply wpe_page_of.
    assert (Hd : views tr p = data (frame (bpm tr1) f))
      by (rewrite <- (Hv1 p); exact (view_holds _ _ _ Hh1)).
    apply wpe_bind. case_decide as Hfull.
    + pose proof (tinv_weaken _ _ _ Hinv1) as Hw. assert (Hin : p ∈ [p]) by left.
      pose (upd := fun _ : PageData => leaf_insert_page (data (frame (bpm tr1) f)) k v).
      destruct (wpe_run _ _ _ _ _ _ (LeafInsert_ok tr1 [p] f p k v Hw Hh1 Hin) (LeafInsert_eq f k v tr1))
        as (_ & [[Hinv2 G2] _]).
      apply wpe_bind. unfold wpe at 1. rewrite LeafInsert_eq. cbv beta iota.
      apply wpe_pid_of. rewrite (pid_holds _ _ _ _ _ Hinv2 (wgrows_holds _ _ _ _ _ G2 Hin Hh1)).
      apply wpe_ret_r. apply (wpe_unpin false _ [] p true); [exact Hinv2|reflexivity|].
      intros tr3 [Hok3 Hroot3] Hv3 _ Hnp3 Hr3 Hps3. apply wpe_ret, wpe_ret.
      split; [discriminate|]. intros _. exists p. split; [exact Hfl|]. intros _.
      split; [split; [apply pool_ok_strict, Hok3|exact Hroot3]|].
      split; [rewrite Hr3; exact Hr1|split; [rewrite Hps3; exact Hps1|]].
      intros q. rewrite Hv3. unfold views at 1. change (fun _ : PageData => leaf_insert_page (data (frame (bpm tr1) f)) k v) with upd. rewrite (write_view tr1 [p] f p upd Hw Hh1 q).
      destruct (decide (q = p)) as [->|Hq].
      * unfold upd. rewrite Hd. reflexivity.
      * exact (Hv1 q).
    + apply wpe_triv. intros a s'. apply wpe_ret. split; [discriminate|]. intros _.
      exists p. split; [exact Hfl|]. intros Hlt. exfalso. apply Hfull. rewrite <- Hd. exact Hlt.
  - destruct Hfl as (Hfl & Hinv1). apply wpe_ret. split; [|discriminate].
    intros _. split; [exact Hinv1|split; [exact Hr1|split; [exact Hps1|exact Hv1]]].
Qed.

(** After [Insert(k, v)] into a store with a root, where the leaf the
    search for [k] reaches has room and strictly increasing keys,
    [Search(k)] answers the stored value if [Insert] returned [true], and
    every other key (and [k] itself if it returned [false]) is answered
    as before. *)
Theorem insert_then_search fuel k v tr r tr1 k' :
  tinv true tr [] -> root_page_id_ tr <> INVALID_PAGE_ID ->
  (forall p, find_leaf_v (views tr) (nz tr) fuel k (root_page_id_ tr) = Some (Some p) ->
     0 <= num_keys (views tr p) < LEAF_MAX_ENTRIES /\
     sorted_upto (fun i => key (entry_at (views tr p) i)) (num_keys (views tr p))) ->
  Insert fuel k v tr = Ok r tr1 ->
  Observe.results_of (Search fuel k' tr1) =
  if r && bool_decide (k' = k)
  then Some (if negb (Ascii.eqb (first_byte (strncpy_value v)) zero)
             then Some (value_string (strncpy_value v)) else None)
  else Observe.results_of (Search fuel k' tr).
Proof.
  intros Hinv Hr Hleaf E.
  destruct (wpe_run _ _ _ _ _ _ (Insert_views fuel k v tr Hinv Hr) E) as [Hfalse Htrue].
  destruct r.
  - destruct (Htrue eq_refl) as (p & Hfl & Hnl). destruct (Hleaf p Hfl) as [Hn Hs].
    destruct (Hnl (proj2 Hn)) as (Hinv1 & Hr1 & Hps1 & Hv).
    rewrite !search_results by assumption.
    assert (Hnz : nz tr1 = nz tr) by (unfold nz; rewrite Hps1; reflexivity). rewrite Hnz, Hr1.
    set (V := views tr) in *.
    rewrite (search_v_ext (fun q => if decide (q = p) then leaf_insert_page (V p) k v else V q) (views tr1)) by exact Hv.
    pose proof (find_leaf_v_leaf _ _ _ _ _ _ Hfl) as Hleafp.
    destruct (leaf_insert_page_spec (V p) k v) as (Ht & _).
    destruct (leaf_insert_page_sorted (V p) k v (proj1 Hn) Hs) as (_ & _ & _ & Hlk & Hlk').
    assert (HF : forall k0, find_leaf_v (fun q => if decide (q = p) then leaf_insert_page (V p) k v else V q) (nz tr) fuel k0 (root_page_id_ tr) =
                            find_leaf_v V (nz tr) fuel k0 (root_page_id_ tr)).
    { intros k0. unfold find_leaf_v. rewrite descend_v_upd by assumption. reflexivity. }
    unfold search_v. rewrite HF. cbn [andb]. case_bool_decide as Hk.
    + subst k'. rewrite Hfl. cbv beta. rewrite decide_True by reflexivity. rewrite Hlk. reflexivity.
    + destruct (find_leaf_v V (nz tr) fuel k' (root_page_id_ tr)) as [[p'|]|]; try reflexivity. cbv beta.
      destruct (decide (p' = p)) as [->|Hp']; [|reflexivity].
      rewrite Hlk' by exact Hk. reflexivity.
  - destruct (Hfalse eq_refl) as (Hinv1 & Hr1 & Hps1 & Hv).
    rewrite !search_results by assumption.
    assert (Hnz : nz tr1 = nz tr) by (unfold nz; rewrite Hps1; reflexivity). rewrite Hnz, Hr1.
    apply search_v_ext, Hv.
Qed.

Lemma insert_then_search_witness :
  Observe.results_of (Search 16 2 (ok_state (Insert 16 2 "w"%string demo_store) demo_store)) = Some (Some "w"%string).
Proof.
  rewrite (insert_then_search 16 2 "w"%string demo_store true (ok_state (Insert 16 2 "w"%string demo_store) demo_store) 2
             (proj1 demo_store_sinv)).
  - vm_compute. reflexivity.
  - vm_compute. discriminate.
  - intros p Hp. vm_compute in Hp. injection Hp as <-.
    split; [vm_compute; split; [discriminate|reflexivity]|].
    intros i j H0 H1 H2. replace (num_keys (views demo_store 1)) with 5 in H2 by (vm_compute; reflexivity).
    assert (Hi : i = 0 \/ i = 1 \/ i = 2 \/ i = 3) by lia. assert (Hj : j = 1 \/ j = 2 \/ j = 3 \/ j = 4) by lia.
    destruct Hi as [->|[->|[->| ->]]], Hj as [->|[->|[->| ->]]]; first [lia|vm_compute; reflexivity].
  - vm_compute. reflexivity.
Defined.

End Extras.
